(** * SDLC-query: natural-language front end of a Zoekt code search

    A shallow embedding of the translation-and-fusion pipeline of
    [zoekt-nl-query] (the Go sources [server.go], [basic_translator.go],
    [openrouter_translator.go] and [semantic_search.go]) together with the
    properties stated for it.

    Conventions.
    - Go [string] and [[]byte] are byte strings: Rocq [string].
    - Go [float32] is IEEE 754 binary32: [spec_float] with the operations
      of [SpecFloat] at precision 24 and maximal exponent 128.
    - Go [int] is a 64-bit two's complement integer: [Z], wrapped where the
      code does arithmetic on values it does not control.
    - [map[string]*zoekt.FileMatch] is stdpp's [gmap string FileMatch].
    - Calls to the collaborators (completion service, vector store, keyword
      engine) are oracles of an environment; every call is logged. *)

From Stdlib Require Import ZArith Lia List Bool String Ascii DecimalString.
From Stdlib Require Import Permutation Sorted.
From Stdlib Require Import Floats.SpecFloat.
From stdpp Require Import base option list strings gmap.

Local Open Scope Z_scope.

(** ** binary32 arithmetic *)

Module F32.

Definition prec : Z := 24.
Definition emax : Z := 128.

Definition float32 : Type := spec_float.

Definition mul : float32 -> float32 -> float32 := SFmul prec emax.
Definition div : float32 -> float32 -> float32 := SFdiv prec emax.

(** [x < y], [x <= y], [x > y] as the Go comparison operators compute
    them: every comparison with a NaN is false. *)
Definition ltb (x y : float32) : bool := SFltb x y.
Definition leb (x y : float32) : bool := SFleb x y.
Definition gtb (x y : float32) : bool := SFltb y x.

Definition is_nan (x : float32) : bool :=
  match x with S754_nan => true | _ => false end.

(** The conversion of an integer and of an untyped rational constant
    [n / d] to [float32]: the nearest binary32 value, ties to even. *)
Definition of_Z (n : Z) : float32 := binary_normalize prec emax n 0 false.
Definition of_ratio (n d : Z) : float32 := div (of_Z n) (of_Z d).

Definition zero : float32 := S754_zero false.
Definition one : float32 := Eval vm_compute in of_Z 1.
(** The constants [1.3] and [1.2] of the boost, and [0.9]. *)
Definition c1_3 : float32 := Eval vm_compute in of_ratio 13 10.
Definition c1_2 : float32 := Eval vm_compute in of_ratio 12 10.
Definition c0_9 : float32 := Eval vm_compute in of_ratio 9 10.

(** Go's [min] on floating-point operands: a NaN operand gives NaN, and
    the negative zero is smaller than the positive zero. *)
Definition min (x y : float32) : float32 :=
  match SFcompare x y with
  | None => S754_nan
  | Some Lt => x
  | Some Gt => y
  | Some Eq => match x with S754_zero true => x | _ => y end
  end.

(** [0 <= x <= 1]. *)
Definition in_unit (x : float32) : Prop :=
  leb zero x = true /\ leb x one = true.

End F32.

Abbreviation float32 := F32.float32.

(** ** Byte strings: the functions of Go's [strings] package that the
    program calls *)

Module GoStrings.

Local Open Scope nat_scope.

(** The double quote, the line feed and the carriage return. *)
Definition dquote : ascii := ascii_of_nat 34.
Definition dq : string := String dquote EmptyString.
Definition nl : string := String (ascii_of_nat 10) EmptyString.
Definition crlf : string :=
  String (ascii_of_nat 13) (String (ascii_of_nat 10) EmptyString).

Definition len (s : string) : nat := String.length s.

(** The slices [s[:n]] and [s[n:]], for [n <= len(s)]. *)
Fixpoint sliceTo (n : nat) (s : string) : string :=
  match n, s with
  | S n', String c s' => String c (sliceTo n' s')
  | _, _ => EmptyString
  end.

Fixpoint sliceFrom (n : nat) (s : string) : string :=
  match n, s with
  | S n', String _ s' => sliceFrom n' s'
  | _, _ => s
  end.

Fixpoint HasPrefix (s prefix : string) : bool :=
  match prefix, s with
  | EmptyString, _ => true
  | String a p, String b s' => Ascii.eqb a b && HasPrefix s' p
  | String _ _, EmptyString => false
  end.

Definition HasSuffix (s suffix : string) : bool :=
  (len suffix <=? len s) && String.eqb (sliceFrom (len s - len suffix) s) suffix.

(** [Index]: the position of the first instance of [substr], [None]
    for Go's [-1]. *)
Fixpoint Index (s substr : string) : option nat :=
  if HasPrefix s substr then Some 0
  else match s with
       | EmptyString => None
       | String _ s' => S <$> Index s' substr
       end.

Definition Contains (s substr : string) : bool :=
  bool_decide (is_Some (Index s substr)).

(** [LastIndex]: the position of the last instance of [substr]. *)
Fixpoint LastIndex (s substr : string) : option nat :=
  match s with
  | EmptyString => if HasPrefix s substr then Some 0 else None
  | String _ s' =>
      match LastIndex s' substr with
      | Some k => Some (S k)
      | None => if HasPrefix s substr then Some 0 else None
      end
  end.

(** [Count]: the number of non-overlapping instances of a non-empty
    [substr]; [skip] bytes of a counted instance are still to be
    passed. *)
Fixpoint CountFrom (substr : string) (skip : nat) (s : string) : nat :=
  match s with
  | EmptyString => 0
  | String _ s' =>
      match skip with
      | S k => CountFrom substr k s'
      | O => if HasPrefix s substr
             then S (CountFrom substr (len substr - 1) s')
             else CountFrom substr 0 s'
      end
  end.

Definition Count (s substr : string) : nat := CountFrom substr 0 s.

(** [Split], for a non-empty separator (every call site passes a
    literal one): the pieces between the instances of [sep] found from
    left to right; [skip] bytes of a separator are still to be passed. *)
Fixpoint SplitFrom (sep : string) (skip : nat) (s : string) : list string :=
  match s with
  | EmptyString => [EmptyString]
  | String c s' =>
      match skip with
      | S k => SplitFrom sep k s'
      | O => if HasPrefix s sep
             then EmptyString :: SplitFrom sep (len sep - 1) s'
             else match SplitFrom sep 0 s' with
                  | p :: ps => String c p :: ps
                  | [] => [String c EmptyString]
                  end
      end
  end.

Definition Split (s sep : string) : list string := SplitFrom sep 0 s.

Fixpoint Join (elems : list string) (sep : string) : string :=
  match elems with
  | [] => EmptyString
  | [e] => e
  | e :: rest => e +:+ sep +:+ Join rest sep
  end.

Definition TrimPrefix (s prefix : string) : string :=
  if HasPrefix s prefix then sliceFrom (len prefix) s else s.

Definition TrimSuffix (s suffix : string) : string :=
  if HasSuffix s suffix then sliceTo (len s - len suffix) s else s.

(** Membership of a byte in an ASCII cutset. *)
Fixpoint inCutset (c : ascii) (cutset : string) : bool :=
  match cutset with
  | EmptyString => false
  | String d rest => Ascii.eqb c d || inCutset c rest
  end.

(** [TrimRight] with an ASCII cutset. *)
Fixpoint TrimRight (s cutset : string) : string :=
  match s with
  | EmptyString => EmptyString
  | String c s' =>
      match TrimRight s' cutset with
      | EmptyString => if inCutset c cutset then EmptyString
                       else String c EmptyString
      | t => String c t
      end
  end.

(** [TrimLeft] and [Trim] with an ASCII cutset. *)
Fixpoint TrimLeft (s cutset : string) : string :=
  match s with
  | String c s' => if inCutset c cutset then TrimLeft s' cutset else s
  | EmptyString => EmptyString
  end.

Definition Trim (s cutset : string) : string :=
  TrimLeft (TrimRight s cutset) cutset.

(** [%d] of [fmt.Sprintf]. *)
Definition Itoa (n : Z) : string :=
  DecimalString.NilZero.string_of_int (Z.to_int n).

(** The functions of the package that depend on the Unicode tables:
    [ToLower], [TrimSpace] and [Fields]. The development is parametric in them;
    [AsciiText] below is what they compute on ASCII text. *)
Class Unicode := {
  ToLower : string -> string;
  TrimSpace : string -> string;
  Fields : string -> list string
}.

Definition asciiToLower (c : ascii) : ascii :=
  let n := nat_of_ascii c in
  if (65 <=? n) && (n <=? 90) then ascii_of_nat (n + 32) else c.

Fixpoint asciiLower (s : string) : string :=
  match s with
  | EmptyString => EmptyString
  | String c s' => String (asciiToLower c) (asciiLower s')
  end.

Definition asciiSpace (c : ascii) : bool :=
  let n := nat_of_ascii c in
  ((9 <=? n) && (n <=? 13)) || (n =? 32).

Fixpoint trimLeft (s : string) : string :=
  match s with
  | String c s' => if asciiSpace c then trimLeft s' else s
  | EmptyString => EmptyString
  end.

Fixpoint trimRight (s : string) : string :=
  match s with
  | EmptyString => EmptyString
  | String c s' =>
      match trimRight s' with
      | EmptyString => if asciiSpace c then EmptyString
                       else String c EmptyString
      | t => String c t
      end
  end.

Definition AsciiText : Unicode :=
  {| ToLower := asciiLower;
     TrimSpace := fun s => trimRight (trimLeft s);
     Fields := String.words |}.

End GoStrings.

Import GoStrings.

(** ** Data model *)

(** [SemanticCodeChunk] of the indexer and [SemanticSearchResultV2] of
    [semantic_search.go]. *)
Record SemanticCodeChunk := {
  ID : string;
  Content : string;
  FileName : string;
  StartLine : Z;
  EndLine : Z;
  Type_ : string;
  Language : string;
  Embedding : list float32
}.

Record SemanticSearchResultV2 := {
  Chunk : SemanticCodeChunk;
  Similarity : float32;
  Score : float32
}.

(** The fields of the keyword engine's result types that this program
    reads. *)
Module zoekt.

Record LineMatch := {
  Line : string;
  LineNumber : Z;
  Before : string;
  After : string
}.

Record FileMatch := {
  FileName : string;
  Repository : string;
  LineMatches : list LineMatch;
  Content : string
}.

Record SearchResult := {
  Files : list FileMatch
}.

End zoekt.

(** [Intent] of [openrouter_translator.go]; [Confidence] is a [float64]. *)
Module Intent.

Record t := {
  Type_ : string;
  Entity : string;
  Topic : string;
  Confidence : spec_float;
  Query : string;
  Variations : list string
}.

End Intent.

Module F64.

Definition prec : Z := 53.
Definition emax : Z := 1024.
Definition of_Z (n : Z) : spec_float := binary_normalize prec emax n 0 false.
Definition of_ratio (n d : Z) : spec_float :=
  SFdiv prec emax (of_Z n) (of_Z d).

Definition one : spec_float := Eval vm_compute in of_Z 1.
Definition c0_7 : spec_float := Eval vm_compute in of_ratio 7 10.

End F64.

(** ** The Pattern Translator: [BasicTranslator.Translate] *)

Section BasicTranslator.

Context {U : Unicode}.

Definition Translate (nlQuery : string) : string * string :=
  let query := TrimSpace nlQuery in
  let lower := ToLower query in
  let queryType := "search" in
  if Contains lower "how many"
     && (Contains lower "article" || Contains lower "blog")
  then ("title:", "count")
  else if Contains lower "list"
          && (Contains lower "article" || Contains lower "blog")
  then ("title:", "list")
  else if Contains lower "find" && Contains lower "article"
  then
    let blogTerms := ("title:", "find") in
    if Contains lower "about" then
      match Split lower "about" with
      | _ :: part1 :: _ =>
          let topic := TrimSpace part1 in
          (topic, "find")
      | _ => blogTerms
      end
    else blogTerms
  else if (Contains lower "have" || Contains lower "written about")
          && Contains lower "about"
  then
    match Split lower "about" with
    | _ :: part1 :: _ =>
        let topic := TrimSpace part1 in
        let topic := TrimSuffix topic " in articles" in
        let topic := TrimSuffix topic " or not" in
        let topic := TrimSpace topic in
        (topic, "yesno")
    | _ => ("title:", "yesno")
    end
  else (query, queryType).

End BasicTranslator.

(** ** Quote repair *)

Section QuoteRepair.

Context {U : Unicode}.

Definition contentq : string := "content:" +:+ dq.
Definition fileq : string := "file:" +:+ dq.

(** The two closing-quote fixes that open [validateAndFixQuery]. *)
Definition closeContentQuote (queryStr : string) : string :=
  if Contains queryStr contentq then
    let trimmed := TrimSpace queryStr in
    if negb (HasSuffix trimmed dq) then queryStr +:+ dq else queryStr
  else queryStr.

Definition closeFileQuote (queryStr : string) : string :=
  if Contains queryStr fileq then
    let afterFile :=
      match LastIndex queryStr fileq with
      | Some lastFileIdx => sliceFrom (lastFileIdx + 6) queryStr
      | None => sliceFrom 5 queryStr
      end in
    let quoteCount := Count afterFile dq in
    if (quoteCount =? 0)%nat then queryStr +:+ dq else queryStr
  else queryStr.

Definition closeQuotes (q : string) : string :=
  closeFileQuote (closeContentQuote q).

(** The removal of the [content:] wrappers, run when the repaired query
    does not parse. *)
Definition unwrapContent (queryStr : string) : string :=
  if Contains queryStr contentq then
    let parts := Fields queryStr in
    let cleanParts :=
      foldl (fun cleanParts part =>
               if HasPrefix part contentq then
                 let term := TrimPrefix part contentq in
                 let term := TrimSuffix term dq in
                 if negb (String.eqb term "") then cleanParts ++ [term]
                 else cleanParts
               else if negb (HasPrefix part "content:")
               then cleanParts ++ [part]
               else cleanParts)
            [] parts in
    if (0 <? length cleanParts)%nat then Join cleanParts " " else queryStr
  else queryStr.

(** [validateAndFixQuery]; [parses] tells whether [query.Parse] accepts
    a query. *)
Definition validateAndFixQuery (parses : string -> bool) (q : string)
  : string :=
  let queryStr := closeQuotes q in
  if parses queryStr then queryStr else unwrapContent queryStr.

(** The repair of the [file:] segments in [TranslateWithOpenRouter]. *)
Definition endIdxOf (part : string) : nat :=
  foldl (fun endIdx sep =>
           match Index part sep with
           | Some idx => if (idx <? endIdx)%nat then idx else endIdx
           | None => endIdx
           end)
        (len part) [" OR "; " AND "; " "].

Definition repairPart (part : string) : string :=
  let endIdx := endIdxOf part in
  let segment := sliceTo endIdx part in
  if negb (Contains segment dq) && Contains segment ".*"
  then segment +:+ dq +:+ sliceFrom endIdx part
  else part.

(** [for i := 1; i < len(parts); i++ { ... parts[i] = ... }]. *)
Definition repairParts (parts : list string) : list string :=
  foldl (fun parts i =>
           match parts !! i with
           | Some part => <[i := repairPart part]> parts
           | None => parts
           end)
        parts (seq 1 (length parts - 1)).

Definition repairFileQuotes (zoektQuery : string) : string :=
  if Contains zoektQuery fileq then
    let parts := Split zoektQuery fileq in
    Join (repairParts parts) fileq
  else zoektQuery.

End QuoteRepair.

(** ** Loops and run-time panics

    An index expression out of range and an integer division by zero stop
    a Go program with a panic; [Result] keeps the two apart from a value. *)

Inductive Result (A : Type) : Type :=
  | Ok (a : A)
  | Panic (msg : string).

Arguments Ok {A} a.
Arguments Panic {A} msg.

#[global] Instance Result_bind : MBind Result := fun A B f m =>
  match m with
  | Ok a => f a
  | Panic msg => Panic msg
  end.

#[global] Instance Result_ret : MRet Result := fun A a => Ok a.

(** [l[i]]. *)
Definition index {A} (l : list A) (i : Z) : Result A :=
  if i <? 0 then Panic "index out of range"
  else match l !! Z.to_nat i with
       | Some a => Ok a
       | None => Panic "index out of range"
       end.

(** [for _, x := range l { if brk { break }; body }]. *)
Fixpoint forEach {A S} (l : list A) (brk : S -> bool)
    (body : A -> S -> Result S) (st : S) : Result S :=
  match l with
  | [] => Ok st
  | x :: rest =>
      if brk st then Ok st
      else st' ← body x st; forEach rest brk body st'
  end.

(** [for i := lo; i < hi && cond; i++ { body }], [n] being the number of
    indexes from [i] up to [hi]. *)
Fixpoint forUpTo {S} (n : nat) (i : Z) (cond : S -> bool)
    (body : Z -> S -> Result S) (st : S) : Result S :=
  match n with
  | O => Ok st
  | Datatypes.S n' =>
      if cond st
      then st' ← body i st; forUpTo n' (i + 1) cond body st'
      else Ok st
  end.

Definition forRange {S} (lo hi : Z) (cond : S -> bool)
    (body : Z -> S -> Result S) (st : S) : Result S :=
  forUpTo (Z.to_nat (hi - lo)) lo cond body st.

(** The value of a Go [int] (64 bits, two's complement). *)
Definition wrap64 (z : Z) : Z := (z + 2 ^ 63) mod 2 ^ 64 - 2 ^ 63.

(** ** Snippet extraction with a line budget: [extractAnswerSnippets] of
    the keyword server *)

Module KeywordServer.
Section Extract.

Context {U : Unicode}.

Definition targetLinesTotal : Z := 100.

(** [strings.Builder] as the sequence of the strings written to it. *)
Record FileState := {
  snippet : list string;
  fileLines : Z;
  totalLines : Z
}.

Definition String_ (b : list string) : string :=
  foldr String.append EmptyString b.

(** [snippet.WriteString(line); snippet.WriteString("\n"); fileLines++;
    totalLines++]. *)
Definition writeLine (line : string) (st : FileState) : FileState :=
  {| snippet := snippet st ++ [line; nl];
     fileLines := fileLines st + 1;
     totalLines := totalLines st + 1 |}.

Definition linesPerFileOf (maxFiles : Z) : Result Z :=
  if maxFiles =? 0 then Panic "integer divide by zero"
  else
    let linesPerFile := Z.quot targetLinesTotal maxFiles in
    Ok (if linesPerFile <? 15 then 15 else linesPerFile).

Definition withinBudget (linesPerFile : Z) (st : FileState) : bool :=
  (fileLines st <? linesPerFile) && (totalLines st <? targetLinesTotal).

Definition budgetSpent (linesPerFile : Z) (st : FileState) : bool :=
  (linesPerFile <=? fileLines st) || (targetLinesTotal <=? totalLines st).

(** Method 1, with line matches: a window of lines around each match. *)
Definition aroundMatch (linesPerFile : Z) (allLines : list string)
    (match_ : zoekt.LineMatch) (st : FileState) : Result FileState :=
  let lineNum := zoekt.LineNumber match_ in
  let startLine := wrap64 (lineNum - 10) in
  let startLine := if startLine <? 0 then 0 else startLine in
  let endLine := wrap64 (lineNum + 10) in
  let endLine :=
    if Z.of_nat (length allLines) <? endLine
    then Z.of_nat (length allLines) else endLine in
  forRange startLine endLine (withinBudget linesPerFile)
    (fun i st =>
       l ← index allLines i;
       let line := TrimRight l crlf in
       Ok (if negb (String.eqb line "") || (i =? wrap64 (lineNum - 1))
           then writeLine line st else st))
    st.

(** Method 1, without line matches: the leading lines of the file. *)
Definition leadingLines (linesPerFile : Z) (allLines : list string)
    (st : FileState) : Result FileState :=
  let extractCount := linesPerFile in
  let extractCount :=
    if Z.of_nat (length allLines) <? extractCount
    then Z.of_nat (length allLines) else extractCount in
  forRange 0 extractCount (fun st => totalLines st <? targetLinesTotal)
    (fun i st =>
       l ← index allLines i;
       let line := TrimRight l crlf in
       Ok (writeLine line st))
    st.

(** Method 2: the context blobs of a match, line by line. *)
Definition contextLines (linesPerFile : Z) (blob : string)
    (st : FileState) : Result FileState :=
  let blobLines := Split blob nl in
  forRange 0 (Z.of_nat (length blobLines)) (withinBudget linesPerFile)
    (fun j st =>
       l ← index blobLines j;
       let line := TrimSpace l in
       Ok (if negb (String.eqb line "") then writeLine line st else st))
    st.

Definition fromMatch (linesPerFile : Z) (match_ : zoekt.LineMatch)
    (st : FileState) : Result FileState :=
  st ← (if (0 <? len (zoekt.Before match_))%nat
         then contextLines linesPerFile (zoekt.Before match_) st
         else Ok st);
  let st :=
    if withinBudget linesPerFile st then
      let lineStr := TrimSpace (zoekt.Line match_) in
      if negb (String.eqb lineStr "") then writeLine lineStr st else st
    else st in
  if (0 <? len (zoekt.After match_))%nat && withinBudget linesPerFile st
  then contextLines linesPerFile (zoekt.After match_) st
  else Ok st.

(** The body of the loop over the files. *)
Definition extractFile (linesPerFile : Z) (file : zoekt.FileMatch)
    (total : Z) : Result FileState :=
  let st :=
    {| snippet := ["File: " +:+ zoekt.FileName file +:+ nl;
                   "Repository: " +:+ zoekt.Repository file +:+ nl +:+ nl];
       fileLines := 0;
       totalLines := total |} in
  if (0 <? len (zoekt.Content file))%nat then
    let allLines := Split (zoekt.Content file) nl in
    if (0 <? length (zoekt.LineMatches file))%nat then
      forEach (zoekt.LineMatches file) (budgetSpent linesPerFile)
        (aroundMatch linesPerFile allLines) st
    else leadingLines linesPerFile allLines st
  else if (0 <? length (zoekt.LineMatches file))%nat then
    forEach (zoekt.LineMatches file) (budgetSpent linesPerFile)
      (fromMatch linesPerFile) st
  else Ok st.

(** The state of the loop over the files; [files] keeps, for every
    snippet appended, the builder and the counters it ended with. *)
Record State := {
  files : list FileState;
  count : Z;
  total : Z
}.

Definition extractLoop (result : zoekt.SearchResult) (maxFiles : Z)
  : Result State :=
  linesPerFile ← linesPerFileOf maxFiles;
  forEach (zoekt.Files result)
    (fun st => (maxFiles <=? count st) || (targetLinesTotal <=? total st))
    (fun file st =>
       fs ← extractFile linesPerFile file (total st);
       Ok (if (0 <? len (String_ (snippet fs)))%nat
           then {| files := files st ++ [fs];
                   count := count st + 1;
                   total := totalLines fs |}
           else {| files := files st;
                   count := count st;
                   total := totalLines fs |}))
    {| files := []; count := 0; total := 0 |}.

Definition extractAnswerSnippets (result : zoekt.SearchResult)
    (maxFiles : Z) : Result (list string) :=
  st ← extractLoop result maxFiles;
  Ok (map (fun fs => String_ (snippet fs)) (files st)).

End Extract.
End KeywordServer.

(** ** The hybrid server

    [Q] is the keyword engine's parsed query ([query.Q]). The engine, the
    completion service and the vector store are outside this program: what
    they answer is given by the fields of the records below, and every
    call of [HandleSearch] to one of them is logged. The functions of this
    program that talk to them ([TranslateWithOpenRouter],
    [AnswerFromSnippets] and [Search] of the vector store) are given to
    the handlers in the same way, the first and the last with the panic
    that they can stop with; what they compute from a reply is modelled
    further down. *)

Section Server.

Context {U : Unicode} {Q : Type}.

Record SearchOptions := {
  MaxDocDisplayCount : Z;
  NumContextLines : Z;
  Whole : bool
}.

(** [zoekt.Searcher]: [Search] returns a result pointer and an error. *)
Record Searcher := {
  Search : Q -> SearchOptions -> option zoekt.SearchResult * option string
}.

(** What a call of [TranslateWithOpenRouter] ends in: an error, a query
    (or [DIRECT_ANSWER:] text) with its intent, or a run-time panic, which
    no caller recovers from (the function reads the first word of
    [strings.Fields] without a test of its length). *)
Inductive TranslateResult :=
  | TranslateError (err : string)
  | TranslateOk (zoektQuery : string) (intent : Intent.t)
  | TranslatePanic (msg : string).

Record OpenRouterTranslator := {
  enabled : bool;
  TranslateWithOpenRouter : string -> TranslateResult;
  AnswerFromSnippets : string -> list string -> string
}.

(** The reply of the vector store to the count request of [IsIndexed];
    [CountBody None] is a body without a numeric [count]. The count, a
    JSON number, is a number of chunks: an integer here. *)
Inductive CountReply :=
  | RequestFailed (err : string)
  | StatusNotOK (code : Z)
  | BodyUndecodable (err : string)
  | CountBody (count : option Z).

(** [SemanticSearch] is [Search] of the service: it returns results or
    an error, or it stops with a run-time panic (on a reply whose lists
    are missing or short, which it indexes without a test). *)
Record SemanticSearchService := {
  countReply : CountReply;
  SemanticSearch :
    string -> Z -> Result (list SemanticSearchResultV2 + string)
}.

Definition IsIndexed (svc : SemanticSearchService) : bool * option string :=
  match countReply svc with
  | RequestFailed err => (false, Some err)
  | StatusNotOK _ => (false, None)
  | BodyUndecodable err => (false, Some err)
  | CountBody countVal =>
      let count := match countVal with Some c => c | None => 0 end in
      (0 <? count, None)
  end.

(** The fields of the server that the handler reads; the Pattern
    Translator has no state and the indexer serves another endpoint. *)
Record NLQueryServer := {
  searcher : option Searcher;
  openRouterTranslator : OpenRouterTranslator;
  semanticSearch : option SemanticSearchService
}.

(** [query.Parse] and the clock. *)
Record Runtime := {
  Parse : string -> Q + string;
  sinceStartMs : Z
}.

(** *** Fusion: [enhanceSemanticWithZoekt] *)

(** The lookup from file name to keyword match: one map store per file
    of the keyword result, a later file replacing an earlier one of the
    same name. *)
Definition zoektFileMapOf (files : list zoekt.FileMatch)
  : gmap string zoekt.FileMatch :=
  foldl (fun m file => <[zoekt.FileName file := file]> m) ∅ files.

(** The body of the loop over the semantic results. *)
Definition enhanceOne (zoektFileMap : gmap string zoekt.FileMatch)
    (semResult : SemanticSearchResultV2) : SemanticSearchResultV2 :=
  let fileName := FileName (Chunk semResult) in
  match zoektFileMap !! fileName with
  | Some zoektFile =>
      let score := F32.mul (Score semResult) F32.c1_3 in
      let score := if F32.gtb score F32.one then F32.one else score in
      let similarity := F32.mul (Similarity semResult) F32.c1_2 in
      let similarity :=
        if F32.gtb similarity F32.one then F32.one else similarity in
      {| Chunk := Chunk semResult;
         Similarity := similarity;
         Score := score |}
  | None => semResult
  end.

(** [enhanced[i], enhanced[j] = enhanced[j], enhanced[i]]. *)
Definition swap {A} (l : list A) (i j : nat) : list A :=
  match l !! i, l !! j with
  | Some a, Some b => <[i:=b]> (<[j:=a]> l)
  | _, _ => l
  end.

(** One test of the inner loop of the re-sort, at indexes [i < j]. *)
Definition resortStep (i : nat) (enhanced : list SemanticSearchResultV2)
    (j : nat) : list SemanticSearchResultV2 :=
  match enhanced !! j, enhanced !! i with
  | Some ej, Some ei =>
      if F32.gtb (Score ej) (Score ei) then swap enhanced i j else enhanced
  | _, _ => enhanced
  end.

(** [for j := i + 1; j < len(enhanced); j++]. *)
Definition resortInner (enhanced : list SemanticSearchResultV2) (i : nat)
  : list SemanticSearchResultV2 :=
  foldl (resortStep i) enhanced (seq (S i) (length enhanced - S i)).

(** [for i := 0; i < len(enhanced); i++]. *)
Definition resort (enhanced : list SemanticSearchResultV2)
  : list SemanticSearchResultV2 :=
  foldl resortInner enhanced (seq 0 (length enhanced)).

Definition enhanceSemanticWithZoekt (s : NLQueryServer)
    (semanticResults : list SemanticSearchResultV2)
    (zoektResult : option zoekt.SearchResult) (originalQuery : string)
  : list SemanticSearchResultV2 :=
  match searcher s, zoektResult with
  | Some _, Some zr =>
      let zoektFileMap := zoektFileMapOf (zoekt.Files zr) in
      let enhanced :=
        foldl (fun enhanced semResult =>
                 enhanced ++ [enhanceOne zoektFileMap semResult])
              [] semanticResults in
      resort enhanced
  | _, _ => semanticResults
  end.

(** *** Snippet extraction of the hybrid server: [extractAnswerSnippets] *)

(** The writes of one line match to the builder. *)
Definition writeMatch (snippet : string) (match_ : zoekt.LineMatch)
  : string :=
  let snippet :=
    if (0 <? len (zoekt.Before match_))%nat
    then snippet +:+ zoekt.Before match_ +:+ nl else snippet in
  let snippet := snippet +:+ zoekt.Line match_ +:+ nl in
  if (0 <? len (zoekt.After match_))%nat
  then snippet +:+ zoekt.After match_ +:+ nl else snippet.

(** [for i, match := range file.LineMatches { if i >= 5 { break } ... }]:
    the loop state is the index and the builder. *)
Definition snippetOf (file : zoekt.FileMatch) : string :=
  let start := "File: " +:+ zoekt.FileName file +:+ nl in
  match forEach (zoekt.LineMatches file)
          (fun st : Z * string => 5 <=? fst st)
          (fun match_ st => Ok (fst st + 1, writeMatch (snd st) match_))
          (0, start) with
  | Ok st => snd st
  | Panic _ => start
  end.

Definition extractAnswerSnippets (result : zoekt.SearchResult)
    (maxFiles : Z) : list string :=
  match forEach (zoekt.Files result)
          (fun st : Z * list string => maxFiles <=? fst st)
          (fun file st => Ok (fst st + 1, snd st ++ [snippetOf file]))
          (0, []) with
  | Ok st => snd st
  | Panic _ => []
  end.

(** *** The search handler: [HandleSearch] *)

Inductive JSON :=
  | JNull
  | JBool (b : bool)
  | JInt (n : Z)
  | JFloat (f : spec_float)
  | JString (s : string)
  | JStrings (l : list string)
  | JIntent (type entity topic : string) (confidence : spec_float)
      (variations : list string)
  | JSemantic (l : list SemanticSearchResultV2)
  | JResult (r : option zoekt.SearchResult).

(** What the handler wrote: the status code and the encoded object. *)
Record Response := {
  statusCode : Z;
  body : gmap string JSON
}.

Definition StatusOK : Z := 200.
Definition StatusBadRequest : Z := 400.

Inductive Outcome :=
  | Responded (r : Response)
  | Panicked (msg : string).

(** The calls to the collaborators. *)
Inductive Call :=
  | CallTranslateWithOpenRouter (nlQuery : string)
  | CallIsIndexed
  | CallSemanticSearch (query : string) (topK : Z)
  | CallSearch (q : Q) (opts : SearchOptions)
  | CallAnswerFromSnippets (question : string) (snippets : list string).

(** A computation that logs its calls. *)
Definition Logged (A : Type) : Type := A * list Call.

Definition pure {A} (a : A) : Logged A := (a, []).
Definition call {A} (c : Call) (answer : A) : Logged A := (answer, [c]).
Definition andThen {A B} (m : Logged A) (k : A -> Logged B) : Logged B :=
  let '(a, l1) := m in
  let '(b, l2) := k a in
  (b, l1 ++ l2).

(** The query parameters of the request. *)
Record Request := {
  q : string;
  mode : string;
  direct : string
}.

Definition intentJSON (intent : Intent.t) : JSON :=
  JIntent (Intent.Type_ intent) (Intent.Entity intent) (Intent.Topic intent)
    (Intent.Confidence intent) (Intent.Variations intent).

Definition object (fields : list (string * JSON)) : gmap string JSON :=
  list_to_map fields.

(** The state after translation. *)
Record Translated := {
  zoektQuery : string;
  intent : Intent.t;
  queryType : string;
  translatorUsed : string;
  isNL : bool
}.

Definition basicFallback (nlQuery : string) : Translated :=
  let '(basicQuery, basicQueryType) := Translate nlQuery in
  {| zoektQuery := basicQuery;
     intent := {| Intent.Type_ := basicQueryType;
                  Intent.Entity := "";
                  Intent.Topic := "";
                  Intent.Confidence := F64.c0_7;
                  Intent.Query := basicQuery;
                  Intent.Variations := [] |};
     queryType := basicQueryType;
     translatorUsed := "basic";
     isNL := true |}.

Definition directAnswerResponse (rt : Runtime) (nlQuery directAnswer : string)
    (intent : Intent.t) : Response :=
  {| statusCode := StatusOK;
     body := object
       [("originalQuery", JString nlQuery);
        ("translatedQuery", JString "");
        ("generatedQuery", JString "");
        ("queryType", JString "answer");
        ("isNL", JBool true);
        ("success", JBool true);
        ("resultCount", JInt 0);
        ("responseTime", JInt (sinceStartMs rt));
        ("results", JNull);
        ("error", JString "");
        ("yesNoAnswer", JString directAnswer);
        ("countAnswer", JString "");
        ("directAnswer", JString directAnswer);
        ("translatorUsed", JString "openrouter");
        ("intent", intentJSON intent)] |}.

(** Translation: the direct mode, the completion service, the Pattern
    Translator. The result is a response (the direct answer) or the
    translated query; a panic of the completion service's translator
    stops the handler. *)
Definition translate (rt : Runtime) (s : NLQueryServer) (nlQuery : string)
    (directQuery : bool) : Logged (Result (Response + Translated)) :=
  if directQuery then
    pure (Ok (inr {| zoektQuery := nlQuery;
                     intent := {| Intent.Type_ := "search";
                                  Intent.Entity := "";
                                  Intent.Topic := "";
                                  Intent.Confidence := F64.one;
                                  Intent.Query := nlQuery;
                                  Intent.Variations := [] |};
                     queryType := "search";
                     translatorUsed := "direct";
                     isNL := false |}))
  else if negb (enabled (openRouterTranslator s)) then
    pure (Ok (inr (basicFallback nlQuery)))
  else
    andThen (call (CallTranslateWithOpenRouter nlQuery)
               (TranslateWithOpenRouter (openRouterTranslator s) nlQuery))
      (fun r =>
         match r with
         | TranslatePanic msg => pure (Panic msg)
         | TranslateError _ => pure (Ok (inr (basicFallback nlQuery)))
         | TranslateOk zoektQuery intent =>
             if String.eqb zoektQuery "" then
               pure (Ok (inr (basicFallback nlQuery)))
             else if HasPrefix zoektQuery "DIRECT_ANSWER:" then
               let directAnswer := TrimPrefix zoektQuery "DIRECT_ANSWER:" in
               pure (Ok (inl (directAnswerResponse rt nlQuery directAnswer
                                intent)))
             else
               pure (Ok (inr {| zoektQuery := zoektQuery;
                                intent := intent;
                                queryType := Intent.Type_ intent;
                                translatorUsed := "openrouter";
                                isNL := true |}))
         end).

(** Semantic retrieval, when the service exists and the mode asks for
    it; a panic of the search of the vector store stops the handler. *)
Definition semanticRetrieve (s : NLQueryServer) (nlQuery searchMode : string)
  : Logged (Result (list SemanticSearchResultV2)) :=
  match semanticSearch s with
  | Some svc =>
      if String.eqb searchMode "semantic" || String.eqb searchMode "hybrid"
      then
        andThen (call CallIsIndexed (IsIndexed svc))
          (fun r =>
             let isIndexed := fst r in
             if isIndexed then
               andThen (call (CallSemanticSearch nlQuery 20)
                          (SemanticSearch svc nlQuery 20))
                 (fun r =>
                    match r with
                    | Panic msg => pure (Panic msg)
                    | Ok (inl semResults) => pure (Ok semResults)
                    | Ok (inr _) => pure (Ok [])
                    end)
             else pure (Ok []))
      else pure (Ok [])
  | None => pure (Ok [])
  end.

Definition semanticResponse (rt : Runtime) (nlQuery : string)
    (semanticResults : list SemanticSearchResultV2)
    (mode : string) (note : option string) : Response :=
  {| statusCode := StatusOK;
     body :=
       let fields :=
         [("originalQuery", JString nlQuery);
          ("queryType", JString "semantic");
          ("isNL", JBool true);
          ("success", JBool true);
          ("resultCount", JInt (Z.of_nat (length semanticResults)));
          ("responseTime", JInt (sinceStartMs rt));
          ("semanticResults", JSemantic semanticResults);
          ("mode", JString mode)] in
       match note with
       | Some text => object (fields ++ [("note", JString text)])
       | None => object fields
       end |}.

Definition parseErrorResponse (nlQuery zoektQuery err : string) : Response :=
  {| statusCode := StatusBadRequest;
     body := object
       [("error", JString ("Query parse error: " +:+ err));
        ("originalQuery", JString nlQuery);
        ("translatedQuery", JString zoektQuery);
        ("success", JBool false)] |}.

(** The number of line matches of all the files. *)
Definition countLineMatches (files : list zoekt.FileMatch) : Z :=
  foldl (fun lineMatchCount file =>
           lineMatchCount + Z.of_nat (length (zoekt.LineMatches file)))
        0 files.

(** What the handler computes from the keyword result. *)
Record Counted := {
  resultCount : Z;
  lineMatchCount : Z;
  directAnswer : string
}.

Definition countResults (s : NLQueryServer) (nlQuery queryType : string)
    (result : option zoekt.SearchResult) : Logged Counted :=
  match result with
  | Some res =>
      let resultCount := Z.of_nat (length (zoekt.Files res)) in
      let lineMatchCount :=
        if String.eqb queryType "count"
        then countLineMatches (zoekt.Files res) else 0 in
      let resultCount :=
        if String.eqb queryType "count" && (0 <? lineMatchCount)
        then lineMatchCount else resultCount in
      if String.eqb queryType "yesno" && (0 <? resultCount) then
        let snippets := extractAnswerSnippets res 3 in
        if (0 <? length snippets)%nat then
          andThen (call (CallAnswerFromSnippets nlQuery snippets)
                     (AnswerFromSnippets (openRouterTranslator s)
                        nlQuery snippets))
            (fun answer =>
               pure {| resultCount := resultCount;
                       lineMatchCount := lineMatchCount;
                       directAnswer := answer |})
        else pure {| resultCount := resultCount;
                     lineMatchCount := lineMatchCount;
                     directAnswer := "" |}
      else pure {| resultCount := resultCount;
                   lineMatchCount := lineMatchCount;
                   directAnswer := "" |}
  | None => pure {| resultCount := 0; lineMatchCount := 0;
                    directAnswer := "" |}
  end.

Definition yesNoAnswerOf (queryType : string) (c : Counted) : string :=
  if String.eqb queryType "yesno" then
    if negb (String.eqb (directAnswer c) "") then directAnswer c
    else if 0 <? resultCount c
    then "✅ YES, found " +:+ Itoa (resultCount c) +:+ " result(s)."
    else "❌ NO, no results found."
  else "".

Definition countAnswerOf (queryType : string) (c : Counted) : string :=
  if String.eqb queryType "count" then
    if 0 <? lineMatchCount c
    then "Found " +:+ Itoa (lineMatchCount c) +:+ " item(s)."
    else if 0 <? resultCount c
    then "Found " +:+ Itoa (resultCount c) +:+ " file(s)."
    else "Found 0 items."
  else "".

(** The response of the keyword path, with the fused semantic results
    in hybrid mode. *)
Definition keywordResponse (rt : Runtime) (s : NLQueryServer)
    (nlQuery searchMode : string) (t : Translated)
    (semanticResults : list SemanticSearchResultV2)
    (result : option zoekt.SearchResult) (err : option string)
    (c : Counted) : Response :=
  let success := match err with None => true | Some _ => false end in
  let response := object
    [("originalQuery", JString nlQuery);
     ("translatedQuery", JString (zoektQuery t));
     ("generatedQuery", JString (zoektQuery t));
     ("queryType", JString (queryType t));
     ("isNL", JBool (isNL t));
     ("success", JBool success);
     ("resultCount", JInt (resultCount c));
     ("responseTime", JInt (sinceStartMs rt));
     ("results", JResult result);
     ("error", JString "");
     ("yesNoAnswer", JString (yesNoAnswerOf (queryType t) c));
     ("countAnswer", JString (countAnswerOf (queryType t) c));
     ("directAnswer", JString (directAnswer c));
     ("translatorUsed", JString (translatorUsed t));
     ("mode", JString searchMode);
     ("intent", intentJSON (intent t))] in
  let response :=
    if String.eqb searchMode "hybrid"
       && (0 <? length semanticResults)%nat
       && bool_decide (is_Some result)
    then
      let enhancedResults :=
        enhanceSemanticWithZoekt s semanticResults result nlQuery in
      <["enhanced" := JBool true]>
        (<["semanticResultCount" :=
             JInt (Z.of_nat (length enhancedResults))]>
           (<["semanticResults" := JSemantic enhancedResults]> response))
    else if (0 <? length semanticResults)%nat then
      <["semanticResultCount" :=
          JInt (Z.of_nat (length semanticResults))]>
        (<["semanticResults" := JSemantic semanticResults]> response)
    else response in
  let response :=
    match err with
    | Some e => <["error" := JString e]> response
    | None => response
    end in
  {| statusCode := StatusOK; body := response |}.

(** [&zoekt.SearchOptions{MaxDocDisplayCount: 100}]. *)
Definition searchOpts : SearchOptions :=
  {| MaxDocDisplayCount := 100; NumContextLines := 0; Whole := false |}.

(** Everything after translation and semantic retrieval. *)
Definition keywordPath (rt : Runtime) (s : NLQueryServer)
    (nlQuery searchMode : string) (t : Translated)
    (semanticResults : list SemanticSearchResultV2) : Logged Outcome :=
  if String.eqb searchMode "semantic" && (0 <? length semanticResults)%nat
  then pure (Responded
               (semanticResponse rt nlQuery semanticResults "semantic" None))
  else
    match Parse rt (zoektQuery t) with
    | inr err =>
        if (0 <? length semanticResults)%nat then
          pure (Responded
                  (semanticResponse rt nlQuery semanticResults "hybrid"
                     (Some "Keyword query failed, using semantic results")))
        else
          pure (Responded (parseErrorResponse nlQuery (zoektQuery t) err))
    | inl parsedQuery =>
        let opts := searchOpts in
        match searcher s with
        | None => pure (Panicked "nil pointer dereference")
        | Some sr =>
            andThen (call (CallSearch parsedQuery opts)
                       (Search sr parsedQuery opts))
              (fun r =>
                 let '(result, err) := r in
                 andThen (countResults s nlQuery (queryType t) result)
                   (fun c =>
                      pure (Responded
                              (keywordResponse rt s nlQuery searchMode t
                                 semanticResults result err c))))
        end
    end.

Definition HandleSearch (rt : Runtime) (s : NLQueryServer) (r : Request)
  : Logged Outcome :=
  let nlQuery := q r in
  if String.eqb nlQuery "" then
    pure (Responded
            {| statusCode := StatusBadRequest;
               body := object
                 [("error", JString "Missing query parameter 'q'");
                  ("success", JBool false)] |})
  else
    let searchMode := mode r in
    let searchMode :=
      if String.eqb searchMode "" then "hybrid" else searchMode in
    let directQuery := String.eqb (direct r) "true" in
    andThen (translate rt s nlQuery directQuery)
      (fun tr =>
         match tr with
         | Panic msg => pure (Panicked msg)
         | Ok (inl response) => pure (Responded response)
         | Ok (inr t) =>
             andThen (semanticRetrieve s nlQuery searchMode)
               (fun retrieved =>
                  match retrieved with
                  | Panic msg => pure (Panicked msg)
                  | Ok semanticResults =>
                      keywordPath rt s nlQuery searchMode t semanticResults
                  end)
         end).

End Server.

(** [for _, x := range l { if brk { break }; body }], for a body that
    cannot panic. *)
Fixpoint rangeUntil {A S} (l : list A) (brk : S -> bool)
    (body : A -> S -> S) (st : S) : S :=
  match l with
  | [] => st
  | x :: rest => if brk st then st else rangeUntil rest brk body (body x st)
  end.

(** [m[k]] for a [map[string]bool]: a missing key reads as [false]. *)
Definition lookupBool (m : gmap string bool) (k : string) : bool :=
  default false (m !! k).

(** ** The translator's own code: key terms and snippets *)

Section KeyTerms.

Context {U : Unicode}.

Definition stopWords : gmap string bool :=
  list_to_map
    [("how", true); ("much", true); ("many", true); ("does", true);
     ("do", true); ("have", true); ("has", true); ("is", true);
     ("are", true); ("the", true); ("a", true); ("an", true);
     ("what", true); ("where", true); ("when", true); ("which", true);
     ("who", true); ("find", true); ("show", true); ("list", true);
     ("get", true); ("search", true); ("for", true); ("in", true);
     ("on", true); ("at", true); ("to", true); ("of", true);
     ("and", true); ("or", true)].

(** The punctuation trimmed from a word. *)
Definition punctuation : string := ".,!?;:()[]{}'" +:+ dq.

(** The state of the loop of [extractKeyTerms]. *)
Record KeyTerms := {
  keyTerms : list string;
  seen : gmap string bool
}.

Definition extractKeyTerms (query : string) : list string :=
  let words := Fields (ToLower query) in
  keyTerms
    (foldl (fun st word =>
              let word := Trim word punctuation in
              if lookupBool stopWords word || (len word <? 3)%nat then st
              else if lookupBool (seen st) word then st
              else {| keyTerms := keyTerms st ++ [word];
                      seen := <[word := true]> (seen st) |})
           {| keyTerms := []; seen := ∅ |} words).

End KeyTerms.

Section Snippets.

Context {U : Unicode}.

(** The builder and the number of lines written to it. *)
Record Extracted := {
  text : string;
  linesExtracted : Z
}.

(** The loop over the lines of a context blob ([Before] or [After]);
    it is written out four times, with the limit [maxLines] of its
    function. *)
Definition writeContext (maxLines : Z) (blob : string) (st : Extracted)
  : Extracted :=
  if (0 <? len blob)%nat then
    rangeUntil (Split blob nl) (fun st => maxLines <=? linesExtracted st)
      (fun line st =>
         if (0 <? len line)%nat
         then {| text := text st +:+ line +:+ nl;
                 linesExtracted := linesExtracted st + 1 |}
         else st)
      st
  else st.

(** The body of the loop over the line matches. *)
Definition writeLineMatch (maxLines : Z) (match_ : zoekt.LineMatch)
    (st : Extracted) : Extracted :=
  let st := writeContext maxLines (zoekt.Before match_) st in
  let st :=
    if linesExtracted st <? maxLines
    then {| text := text st +:+ zoekt.Line match_ +:+ nl;
            linesExtracted := linesExtracted st + 1 |}
    else st in
  writeContext maxLines (zoekt.After match_) st.

Definition fromLineMatches (maxLines : Z) (file : zoekt.FileMatch) : string :=
  text
    (rangeUntil (zoekt.LineMatches file)
       (fun st => maxLines <=? linesExtracted st)
       (writeLineMatch maxLines)
       {| text := ""; linesExtracted := 0 |}).

(** The clean-up of the blank lines: of every run of blank lines the
    first [maxBlank] are kept. The state is the cleaned lines and
    [blankCount]. *)
Definition dropBlankRuns (maxBlank : Z) (lines : list string) : list string :=
  fst
    (foldl (fun (st : list string * Z) line =>
              let '(cleanedLines, blankCount) := st in
              if String.eqb (TrimSpace line) "" then
                let blankCount := blankCount + 1 in
                if blankCount <=? maxBlank
                then (cleanedLines ++ [line], blankCount)
                else (cleanedLines, blankCount)
              else (cleanedLines ++ [line], 0))
           ([], 0) lines).

Definition truncated : string := "... (truncated)".

(** [if len(cleanedLines) > n { cleanedLines = cleanedLines[:n];
    cleanedLines = append(cleanedLines, "... (truncated)") }]. *)
Definition capLines (n : nat) (cleanedLines : list string) : list string :=
  if (n <? length cleanedLines)%nat
  then take n cleanedLines ++ [truncated]
  else cleanedLines.

(** The end of the two snippet functions: the text of the builder is
    split into lines, the runs of blank lines are cut to [maxBlank] lines,
    the lines are capped at [n] and joined. *)
Definition cleanedSnippet (maxBlank : Z) (n : nat) (result : string)
  : string :=
  let lines := Split result nl in
  let cleanedLines := dropBlankRuns maxBlank lines in
  Join (capLines n cleanedLines) nl.

(** [extractSnippetFromFile]; the search term is not read. *)
Definition extractSnippetFromFile (file : zoekt.FileMatch)
    (searchTerm : string) : string :=
  let maxLines := 15 in
  let snippet :=
    if (0 <? length (zoekt.LineMatches file))%nat
    then fromLineMatches maxLines file else "" in
  cleanedSnippet 1 (Z.to_nat maxLines) snippet.

(** The cut of a snippet to 15 lines in [findRelevantCodeSnippets]. *)
Definition cutSnippet (snippet : string) : string :=
  let lines := Split snippet nl in
  if (15 <? length lines)%nat
  then Join (take 15 lines) nl +:+ nl +:+ truncated
  else snippet.

End Snippets.

(** [regexp.QuoteMeta]: a backslash before every byte of
    [\.+*?()|[]{}^$]. *)
Definition special (b : ascii) : bool := inCutset b "\.+*?()|[]{}^$".

Fixpoint QuoteMeta (s : string) : string :=
  match s with
  | EmptyString => EmptyString
  | String b s' =>
      if special b then String "\" (String b (QuoteMeta s'))
      else String b (QuoteMeta s')
  end.

Section TranslatorSearches.

Context {U : Unicode} {Q : Type}.

(** What the functions below read of the translator and of the
    run-time: [t.searcher] and [query.Parse]. *)
Variable Parse : string -> Q + string.
Variable searcher : option (@Searcher Q).

(** [extractCodeSnippet]: from the line matches of the file or, without
    line matches, from the start of its content, which a search for the
    file name gets. *)
Definition extractCodeSnippet (file : zoekt.FileMatch)
  : Logged (Q := Q) (Result string) :=
  if (0 <? length (zoekt.LineMatches file))%nat then
    pure (Ok (cleanedSnippet 2 50 (fromLineMatches 20 file)))
  else
    let fileQueryStr :=
      "file:" +:+ dq +:+ "^" +:+ QuoteMeta (zoekt.FileName file)
      +:+ "$" +:+ dq in
    match Parse fileQueryStr with
    | inr _ => pure (Ok (cleanedSnippet 2 50 ""))
    | inl fileQuery =>
        let opts := {| MaxDocDisplayCount := 1; NumContextLines := 0;
                       Whole := true |} in
        match searcher with
        | None => pure (Panic "nil pointer dereference")
        | Some sr =>
            andThen (call (CallSearch fileQuery opts)
                       (Search sr fileQuery opts))
              (fun r =>
                 let '(result, err) := r in
                 let snippet :=
                   match err, result with
                   | None, Some res =>
                       match zoekt.Files res with
                       | first :: _ =>
                           let content := zoekt.Content first in
                           if (0 <? len content)%nat then
                             if (2000 <? len content)%nat
                             then sliceTo 2000 content +:+ nl +:+ truncated
                             else content
                           else ""
                       | [] => ""
                       end
                   | _, _ => ""
                   end in
                 pure (Ok (cleanedSnippet 2 50 snippet)))
        end
    end.

(** The state of the loops of [findRelevantCodeSnippets]. *)
Record Found := {
  allSnippets : list string;
  snippetMap : gmap string bool
}.

(** The body of the loop over the files of one term's result. *)
Definition addSnippet (term : string) (st : Found) (file : zoekt.FileMatch)
  : Found :=
  let fileKey := zoekt.FileName file +:+ ":" +:+ term in
  if lookupBool (snippetMap st) fileKey then st
  else
    let snippetMap := <[fileKey := true]> (snippetMap st) in
    let snippet := extractSnippetFromFile file term in
    if negb (String.eqb snippet "") && (20 <? len snippet)%nat then
      let snippet := cutSnippet snippet in
      {| allSnippets :=
           allSnippets st
           ++ ["Found '" +:+ term +:+ "' in " +:+ zoekt.FileName file
               +:+ ":" +:+ nl +:+ "```" +:+ nl +:+ snippet +:+ nl +:+ "```"];
         snippetMap := snippetMap |}
    else {| allSnippets := allSnippets st; snippetMap := snippetMap |}.

(** The body of the loop over the key terms. *)
Definition searchForTerm (sr : @Searcher Q) (st : Found) (term : string)
  : Logged (Q := Q) Found :=
  match Parse term with
  | inr _ => pure st
  | inl searchQuery =>
      let opts := {| MaxDocDisplayCount := 3; NumContextLines := 3;
                     Whole := false |} in
      andThen (call (CallSearch searchQuery opts) (Search sr searchQuery opts))
        (fun r =>
           let '(result, err) := r in
           match err, result with
           | None, Some res =>
               if (length (zoekt.Files res) =? 0)%nat then pure st
               else pure (foldl (addSnippet term) st (zoekt.Files res))
           | _, _ => pure st
           end)
  end.

Definition relevantSnippets (sr : @Searcher Q) (keyTerms : list string)
  : Logged (Q := Q) (list string) :=
  andThen
    (foldl (fun acc term => andThen acc (fun st => searchForTerm sr st term))
       (pure {| allSnippets := []; snippetMap := ∅ |}) keyTerms)
    (fun st => pure (allSnippets st)).

Definition findRelevantCodeSnippets (nlQuery : string)
  : Logged (Q := Q) string :=
  match searcher with
  | None => pure ""
  | Some sr =>
      let keyTerms := extractKeyTerms nlQuery in
      if (length keyTerms =? 0)%nat then pure ""
      else
        andThen (relevantSnippets sr keyTerms)
          (fun allSnippets =>
             if (length allSnippets =? 0)%nat then pure ""
             else
               let allSnippets :=
                 if (5 <? length allSnippets)%nat
                 then take 5 allSnippets else allSnippets in
               pure ("RELEVANT CODE SNIPPETS (found in codebase for your query):"
                     +:+ nl +:+ Join allSnippets (nl +:+ nl) +:+ nl))
  end.

End TranslatorSearches.

(** [for i, x := range l { body }], from the index [i]. *)
Fixpoint rangeFrom {A S} (i : Z) (l : list A) (body : Z -> A -> S -> S)
    (st : S) : S :=
  match l with
  | [] => st
  | x :: rest => rangeFrom (i + 1) rest body (body i x st)
  end.

(** ** Regular expressions

    The patterns of the indexer are matched with [MatchString]; all of
    them begin with [^], so a line matches when one of its prefixes is in
    the language of the pattern. The classes of the patterns are sets of
    bytes. *)

Module regexp.

Inductive Regexp :=
  | Nothing
  | Empty
  | Class (p : ascii -> bool)
  | Cat (r1 r2 : Regexp)
  | Alt (r1 r2 : Regexp)
  | Star (r : Regexp).

Fixpoint nullable (r : Regexp) : bool :=
  match r with
  | Nothing => false
  | Empty => true
  | Class _ => false
  | Cat r1 r2 => nullable r1 && nullable r2
  | Alt r1 r2 => nullable r1 || nullable r2
  | Star _ => true
  end.

(** The derivative of [r] by the byte [c]: what is left to match after
    [c]. *)
Fixpoint deriv (c : ascii) (r : Regexp) : Regexp :=
  match r with
  | Nothing => Nothing
  | Empty => Nothing
  | Class p => if p c then Empty else Nothing
  | Cat r1 r2 =>
      if nullable r1
      then Alt (Cat (deriv c r1) r2) (deriv c r2)
      else Cat (deriv c r1) r2
  | Alt r1 r2 => Alt (deriv c r1) (deriv c r2)
  | Star r' => Cat (deriv c r') (Star r')
  end.

(** [MatchString] of the pattern [^r]. *)
Fixpoint MatchString (r : Regexp) (s : string) : bool :=
  nullable r
  || match s with
     | EmptyString => false
     | String c s' => MatchString (deriv c r) s'
     end.

(** A literal, [r+], [r?], and the classes [\s], [\w] and [[^)]]. *)
Fixpoint Lit (s : string) : Regexp :=
  match s with
  | EmptyString => Empty
  | String c s' => Cat (Class (Ascii.eqb c)) (Lit s')
  end.

Definition Plus (r : Regexp) : Regexp := Cat r (Star r).
Definition Opt (r : Regexp) : Regexp := Alt r Empty.

Definition space : Regexp :=
  Class (fun c => let n := nat_of_ascii c in
                  (n =? 9) || (n =? 10) || (n =? 12) || (n =? 13)
                  || (n =? 32))%nat.

Definition word : Regexp :=
  Class (fun c => let n := nat_of_ascii c in
                  ((48 <=? n) && (n <=? 57)) || ((65 <=? n) && (n <=? 90))
                  || ((97 <=? n) && (n <=? 122)) || (n =? 95))%nat.

Definition notClosing : Regexp := Class (fun c => negb (Ascii.eqb c ")")).

Fixpoint Seq (rs : list Regexp) : Regexp :=
  match rs with
  | [] => Empty
  | r :: rest => Cat r (Seq rest)
  end.

End regexp.

(** ** The indexer: language detection and chunking *)

Module filepath.

(** [filepath.Ext], with [/] as the path separator: the suffix of the
    last element of the path that begins at its last dot. *)
Fixpoint Ext (path : string) : string :=
  match path with
  | EmptyString => EmptyString
  | String c rest =>
      match Ext rest with
      | EmptyString =>
          if Ascii.eqb c "." && negb (Contains rest "/") then path
          else EmptyString
      | ext => ext
      end
  end.

End filepath.

Section Indexer.

Context {U : Unicode}.

Definition codeExts : list string :=
  [".go"; ".js"; ".ts"; ".jsx"; ".tsx"; ".py"; ".java"; ".cpp"; ".c"; ".h";
   ".rs"; ".rb"; ".php"; ".swift"; ".kt"; ".scala"].

Definition isCodeFile (path : string) : bool :=
  let ext := ToLower (filepath.Ext path) in
  existsb (fun codeExt => String.eqb ext codeExt) codeExts.

Definition langMap : gmap string string :=
  list_to_map
    [(".go", "go"); (".js", "javascript"); (".jsx", "javascript");
     (".ts", "typescript"); (".tsx", "typescript"); (".py", "python");
     (".java", "java"); (".cpp", "cpp"); (".c", "c"); (".h", "c");
     (".rs", "rust"); (".rb", "ruby"); (".php", "php");
     (".swift", "swift"); (".kt", "kotlin"); (".scala", "scala")].

Definition detectLanguage (path : string) : string :=
  let ext := ToLower (filepath.Ext path) in
  match langMap !! ext with
  | Some lang => lang
  | None => "unknown"
  end.

(** The chunk literal of the chunkers: the ID is
    [fmt.Sprintf("%s:%d-%d", filePath, from, to)]. *)
Definition newChunk (filePath : string) (from to : Z) (content : string)
    (startLine endLine : Z) (chunkType language : string)
  : SemanticCodeChunk :=
  {| ID := filePath +:+ ":" +:+ Itoa from +:+ "-" +:+ Itoa to;
     Content := content;
     FileName := filePath;
     StartLine := startLine;
     EndLine := endLine;
     Type_ := chunkType;
     Language := language;
     Embedding := [] |}.

(** The variables of a chunker; [level] is [inBlock] for Go and
    JavaScript and [indentLevel] for Python. *)
Record Chunker := {
  chunks : list SemanticCodeChunk;
  currentChunk : string;
  startLine : Z;
  chunkType : string;
  level : Z
}.

Definition noChunks : Chunker :=
  {| chunks := []; currentChunk := ""; startLine := 0; chunkType := "";
     level := 0 |}.

(** A declaration line: the chunk that is open, if any, is appended and
    a chunk of type [type] begins with the line [i]. *)
Definition declaration (filePath language : string) (i : Z) (line : string)
    (type : string) (level : Z) (st : Chunker) : Chunker :=
  {| chunks :=
       if (0 <? len (currentChunk st))%nat
       then chunks st
            ++ [newChunk filePath (startLine st + 1) i (currentChunk st)
                  (startLine st) (i - 1) (chunkType st) language]
       else chunks st;
     currentChunk := line +:+ nl;
     startLine := i;
     chunkType := type;
     level := level |}.

(** A line that is no declaration, for Go and JavaScript: it goes to the
    open chunk, which is appended when its braces are closed and it has
    more than 50 bytes. *)
Definition braces (filePath language : string) (i : Z) (line : string)
    (st : Chunker) : Chunker :=
  if (0 <? len (currentChunk st))%nat then
    let inBlock :=
      level st + (Z.of_nat (Count line "{") - Z.of_nat (Count line "}")) in
    let currentChunk := currentChunk st +:+ line +:+ nl in
    if (inBlock =? 0) && (50 <? len currentChunk)%nat then
      {| chunks :=
           chunks st
           ++ [newChunk filePath (startLine st + 1) (i + 1) currentChunk
                 (startLine st) i (chunkType st) language];
         currentChunk := "";
         startLine := startLine st;
         chunkType := chunkType st;
         level := inBlock |}
    else
      {| chunks := chunks st;
         currentChunk := currentChunk;
         startLine := startLine st;
         chunkType := chunkType st;
         level := inBlock |}
  else st.

(** [// Add remaining chunk]. *)
Definition remaining (filePath language : string) (lines : list string)
    (st : Chunker) : list SemanticCodeChunk :=
  if (0 <? len (currentChunk st))%nat
  then chunks st
       ++ [newChunk filePath (startLine st + 1) (Z.of_nat (length lines))
             (currentChunk st) (startLine st) (Z.of_nat (length lines) - 1)
             (chunkType st) language]
  else chunks st.

(** The patterns of [chunkGoCode]:
    [^func\s+(\([^)]+\)\s+)?(\w+)\s*\(], [^type\s+(\w+)\s+struct] and
    [^type\s+(\w+)\s+interface]. *)
Definition goFuncPattern : regexp.Regexp :=
  regexp.Seq
    [regexp.Lit "func"; regexp.Plus regexp.space;
     regexp.Opt
       (regexp.Seq [regexp.Lit "("; regexp.Plus regexp.notClosing;
                    regexp.Lit ")"; regexp.Plus regexp.space]);
     regexp.Plus regexp.word; regexp.Star regexp.space; regexp.Lit "("].

Definition goStructPattern : regexp.Regexp :=
  regexp.Seq
    [regexp.Lit "type"; regexp.Plus regexp.space; regexp.Plus regexp.word;
     regexp.Plus regexp.space; regexp.Lit "struct"].

Definition goInterfacePattern : regexp.Regexp :=
  regexp.Seq
    [regexp.Lit "type"; regexp.Plus regexp.space; regexp.Plus regexp.word;
     regexp.Plus regexp.space; regexp.Lit "interface"].

Definition chunkGoCode (lines : list string) (filePath : string)
  : list SemanticCodeChunk :=
  let funcPattern := regexp.MatchString goFuncPattern in
  let structPattern := regexp.MatchString goStructPattern in
  let interfacePattern := regexp.MatchString goInterfacePattern in
  remaining filePath "go" lines
    (rangeFrom 0 lines
       (fun i line st =>
          let trimmed := TrimSpace line in
          if funcPattern trimmed
          then declaration filePath "go" i line "function" 0 st
          else if structPattern trimmed
          then declaration filePath "go" i line "struct" 0 st
          else if interfacePattern trimmed
          then declaration filePath "go" i line "interface" 0 st
          else braces filePath "go" i line st)
       noChunks).

(** The patterns of [chunkJavaScriptCode]:
    [^(export\s+)?(async\s+)?function\s+(\w+)],
    [^(export\s+)?class\s+(\w+)] and
    [^(export\s+)?const\s+(\w+)\s*=\s*(async\s+)?\(]. *)
Definition exportOpt : regexp.Regexp :=
  regexp.Opt (regexp.Seq [regexp.Lit "export"; regexp.Plus regexp.space]).

Definition asyncOpt : regexp.Regexp :=
  regexp.Opt (regexp.Seq [regexp.Lit "async"; regexp.Plus regexp.space]).

Definition jsFuncPattern : regexp.Regexp :=
  regexp.Seq
    [exportOpt; asyncOpt; regexp.Lit "function"; regexp.Plus regexp.space;
     regexp.Plus regexp.word].

Definition jsClassPattern : regexp.Regexp :=
  regexp.Seq
    [exportOpt; regexp.Lit "class"; regexp.Plus regexp.space;
     regexp.Plus regexp.word].

Definition jsConstPattern : regexp.Regexp :=
  regexp.Seq
    [exportOpt; regexp.Lit "const"; regexp.Plus regexp.space;
     regexp.Plus regexp.word; regexp.Star regexp.space; regexp.Lit "=";
     regexp.Star regexp.space; asyncOpt; regexp.Lit "("].

Definition chunkJavaScriptCode (lines : list string) (filePath : string)
  : list SemanticCodeChunk :=
  let funcPattern := regexp.MatchString jsFuncPattern in
  let classPattern := regexp.MatchString jsClassPattern in
  let constPattern := regexp.MatchString jsConstPattern in
  remaining filePath "javascript" lines
    (rangeFrom 0 lines
       (fun i line st =>
          let trimmed := TrimSpace line in
          if funcPattern trimmed || constPattern trimmed
          then declaration filePath "javascript" i line "function" 0 st
          else if classPattern trimmed
          then declaration filePath "javascript" i line "class" 0 st
          else braces filePath "javascript" i line st)
       noChunks).

(** The patterns of [chunkPythonCode]: [^def\s+(\w+)] and
    [^class\s+(\w+)]. *)
Definition pyFuncPattern : regexp.Regexp :=
  regexp.Seq
    [regexp.Lit "def"; regexp.Plus regexp.space; regexp.Plus regexp.word].

Definition pyClassPattern : regexp.Regexp :=
  regexp.Seq
    [regexp.Lit "class"; regexp.Plus regexp.space; regexp.Plus regexp.word].

(** The space and the tab. *)
Definition blanks : string := String " " (String (ascii_of_nat 9) EmptyString).

(** A line that is no declaration, for Python: it goes to the open chunk
    when it is indented as the declaration or deeper; a line that is
    indented less ends the chunk, which is appended when it has more than
    50 bytes. *)
Definition indented (filePath : string) (i : Z) (line trimmed : string)
    (currentIndent : Z) (st : Chunker) : Chunker :=
  if (0 <? len (currentChunk st))%nat then
    if level st <? currentIndent then
      {| chunks := chunks st;
         currentChunk := currentChunk st +:+ line +:+ nl;
         startLine := startLine st;
         chunkType := chunkType st;
         level := level st |}
    else if (currentIndent =? level st) && negb (String.eqb trimmed "") then
      {| chunks := chunks st;
         currentChunk := currentChunk st +:+ line +:+ nl;
         startLine := startLine st;
         chunkType := chunkType st;
         level := level st |}
    else
      {| chunks :=
           if (50 <? len (currentChunk st))%nat
           then chunks st
                ++ [newChunk filePath (startLine st + 1) i (currentChunk st)
                      (startLine st) (i - 1) (chunkType st) "python"]
           else chunks st;
         currentChunk := "";
         startLine := startLine st;
         chunkType := chunkType st;
         level := level st |}
  else st.

Definition chunkPythonCode (lines : list string) (filePath : string)
  : list SemanticCodeChunk :=
  let funcPattern := regexp.MatchString pyFuncPattern in
  let classPattern := regexp.MatchString pyClassPattern in
  remaining filePath "python" lines
    (rangeFrom 0 lines
       (fun i line st =>
          let trimmed := TrimSpace line in
          if String.eqb trimmed "" then st
          else
            let currentIndent :=
              Z.of_nat (len line) - Z.of_nat (len (TrimLeft line blanks)) in
            if funcPattern trimmed
            then declaration filePath "python" i line "function"
                   currentIndent st
            else if classPattern trimmed
            then declaration filePath "python" i line "class"
                   currentIndent st
            else indented filePath i line trimmed currentIndent st)
       noChunks).

(** The variables of [chunkGenericCode]. *)
Record Blocks := {
  blocks : list SemanticCodeChunk;
  currentBlock : string;
  blockStart : Z
}.

Definition chunkGenericCode (lines : list string) (filePath language : string)
  : list SemanticCodeChunk :=
  let maxChunkSize := 100 in
  let st :=
    rangeFrom 0 lines
      (fun i line st =>
         let currentChunk := currentBlock st +:+ line +:+ nl in
         if (maxChunkSize <=? i - blockStart st)
            || (String.eqb (TrimSpace line) ""
                && (200 <? len currentChunk)%nat)
         then
           {| blocks :=
                if (50 <? len currentChunk)%nat
                then blocks st
                     ++ [newChunk filePath (blockStart st + 1) (i + 1)
                           currentChunk (blockStart st) i "block" language]
                else blocks st;
              currentBlock := "";
              blockStart := i + 1 |}
         else
           {| blocks := blocks st;
              currentBlock := currentChunk;
              blockStart := blockStart st |})
      {| blocks := []; currentBlock := ""; blockStart := 0 |} in
  if (50 <? len (currentBlock st))%nat
  then blocks st
       ++ [newChunk filePath (blockStart st + 1) (Z.of_nat (length lines))
             (currentBlock st) (blockStart st)
             (Z.of_nat (length lines) - 1) "block" language]
  else blocks st.

(** [chunkCode]. *)
Definition chunkCode (content filePath language : string)
  : list SemanticCodeChunk :=
  let lines := Split content nl in
  if String.eqb language "go" then chunkGoCode lines filePath
  else if String.eqb language "javascript" || String.eqb language "typescript"
  then chunkJavaScriptCode lines filePath
  else if String.eqb language "python" then chunkPythonCode lines filePath
  else chunkGenericCode lines filePath language.

End Indexer.

(** The batches of [IndexCodebase]:
    [for i := 0; i < len(chunks); i += batchSize]; [n] bounds the number
    of the batches. *)
Fixpoint batchesFrom (n : nat) (batchSize : Z) (i : Z)
    (chunks : list SemanticCodeChunk) : list (list SemanticCodeChunk) :=
  match n with
  | O => []
  | S n' =>
      if i <? Z.of_nat (length chunks) then
        let end_ := i + batchSize in
        let end_ :=
          if Z.of_nat (length chunks) <? end_
          then Z.of_nat (length chunks) else end_ in
        let batch :=
          take (Z.to_nat (end_ - i)) (drop (Z.to_nat i) chunks) in
        batch :: batchesFrom n' batchSize (i + batchSize) chunks
      else []
  end.

Definition batches (chunks : list SemanticCodeChunk)
  : list (list SemanticCodeChunk) :=
  batchesFrom (length chunks) 50 0 chunks.

(** ** The keyword server: [HandleSearch] and [HandleAsk]

    The server of this version has no semantic search: of
    [NLQueryServer] it reads the searcher and the translator, and of the
    request [q] and [direct]. Its translation step is the one of the
    hybrid server, line by line. *)

Module KeywordHandlers.
Section Handlers.

Context {U : Unicode} {Q : Type}.

Definition StatusInternalServerError : Z := 500.
Definition StatusServiceUnavailable : Z := 503.

(** What [HandleSearch] computes from the keyword result; the snippets
    for a yes/no question come from the extraction with a line budget. *)
Definition countResults (s : @NLQueryServer Q) (nlQuery queryType : string)
    (result : option zoekt.SearchResult) : Logged (Q := Q) (Result Counted) :=
  match result with
  | Some res =>
      let resultCount := Z.of_nat (length (zoekt.Files res)) in
      let lineMatchCount :=
        if String.eqb queryType "count"
        then countLineMatches (zoekt.Files res) else 0 in
      let resultCount :=
        if String.eqb queryType "count" && (0 <? lineMatchCount)
        then lineMatchCount else resultCount in
      if String.eqb queryType "yesno" && (0 <? resultCount) then
        match KeywordServer.extractAnswerSnippets res 3 with
        | Panic msg => pure (Panic msg)
        | Ok snippets =>
            if (0 <? length snippets)%nat then
              andThen (call (CallAnswerFromSnippets nlQuery snippets)
                         (AnswerFromSnippets (openRouterTranslator s)
                            nlQuery snippets))
                (fun answer =>
                   pure (Ok {| resultCount := resultCount;
                               lineMatchCount := lineMatchCount;
                               directAnswer := answer |}))
            else pure (Ok {| resultCount := resultCount;
                             lineMatchCount := lineMatchCount;
                             directAnswer := "" |})
        end
      else pure (Ok {| resultCount := resultCount;
                       lineMatchCount := lineMatchCount;
                       directAnswer := "" |})
  | None => pure (Ok {| resultCount := 0; lineMatchCount := 0;
                        directAnswer := "" |})
  end.

Definition searchResponse (rt : @Runtime Q) (nlQuery : string)
    (t : Translated) (result : option zoekt.SearchResult)
    (err : option string) (c : Counted) : Response :=
  let success := match err with None => true | Some _ => false end in
  let response := object
    [("originalQuery", JString nlQuery);
     ("translatedQuery", JString (zoektQuery t));
     ("generatedQuery", JString (zoektQuery t));
     ("queryType", JString (queryType t));
     ("isNL", JBool (isNL t));
     ("success", JBool success);
     ("resultCount", JInt (resultCount c));
     ("responseTime", JInt (sinceStartMs rt));
     ("results", JResult result);
     ("error", JString "");
     ("yesNoAnswer", JString (yesNoAnswerOf (queryType t) c));
     ("countAnswer", JString (countAnswerOf (queryType t) c));
     ("directAnswer", JString (directAnswer c));
     ("translatorUsed", JString (translatorUsed t));
     ("intent", intentJSON (intent t))] in
  let response :=
    match err with
    | Some e => <["error" := JString e]> response
    | None => response
    end in
  {| statusCode := StatusOK; body := response |}.

Definition HandleSearch (rt : @Runtime Q) (s : @NLQueryServer Q)
    (r : Request) : Logged (Q := Q) Outcome :=
  let nlQuery := q r in
  if String.eqb nlQuery "" then
    pure (Responded
            {| statusCode := StatusBadRequest;
               body := object
                 [("error", JString "Missing query parameter 'q'");
                  ("success", JBool false)] |})
  else
    let directQuery := String.eqb (direct r) "true" in
    andThen (translate rt s nlQuery directQuery)
      (fun tr =>
         match tr with
         | Panic msg => pure (Panicked msg)
         | Ok (inl response) => pure (Responded response)
         | Ok (inr t) =>
             match Parse rt (zoektQuery t) with
             | inr err =>
                 pure (Responded
                         (parseErrorResponse nlQuery (zoektQuery t) err))
             | inl parsedQuery =>
                 let opts := searchOpts in
                 match searcher s with
                 | None => pure (Panicked "nil pointer dereference")
                 | Some sr =>
                     andThen (call (CallSearch parsedQuery opts)
                                (Search sr parsedQuery opts))
                       (fun r =>
                          let '(result, err) := r in
                          andThen
                            (countResults s nlQuery (queryType t) result)
                            (fun c =>
                               match c with
                               | Panic msg => pure (Panicked msg)
                               | Ok c =>
                                   pure (Responded
                                           (searchResponse rt nlQuery t
                                              result err c))
                               end))
                 end
             end
         end).

(** *** [HandleAsk] *)

(** [&zoekt.SearchOptions{MaxDocDisplayCount: 20, NumContextLines: 30,
    Whole: true}]. *)
Definition askOpts : SearchOptions :=
  {| MaxDocDisplayCount := 20; NumContextLines := 30; Whole := true |}.

(** Step 1: the query that the translator generates is parsed and
    searched for. The result is [zoektQuery], [searchResult] and
    [searchErr]; a panic of the translator, a nil searcher, and a nil
    result without an error, stop the handler with a panic. *)
Definition findCode (rt : @Runtime Q) (s : @NLQueryServer Q)
    (question : string)
  : Logged (Q := Q)
      (Result (string * option zoekt.SearchResult * option string)) :=
  if enabled (openRouterTranslator s) then
    andThen (call (CallTranslateWithOpenRouter question)
               (TranslateWithOpenRouter (openRouterTranslator s) question))
      (fun r =>
         match r with
         | TranslatePanic msg => pure (Panic msg)
         | TranslateError searchErr => pure (Ok ("", None, Some searchErr))
         | TranslateOk zoektQuery _ =>
             if negb (String.eqb zoektQuery "") then
               if negb (HasPrefix zoektQuery "DIRECT_ANSWER:") then
                 match Parse rt zoektQuery with
                 | inl parsedQuery =>
                     match searcher s with
                     | None => pure (Panic "nil pointer dereference")
                     | Some sr =>
                         andThen (call (CallSearch parsedQuery askOpts)
                                    (Search sr parsedQuery askOpts))
                           (fun r =>
                              let '(searchResult, searchErr) := r in
                              match searchErr, searchResult with
                              | None, None =>
                                  pure (Panic "nil pointer dereference")
                              | _, _ =>
                                  pure (Ok (zoektQuery, searchResult,
                                            searchErr))
                              end)
                     end
                 | inr _ => pure (Ok (zoektQuery, None, None))
                 end
               else pure (Ok ("", None, None))
             else pure (Ok (zoektQuery, None, None))
         end)
  else pure (Ok ("", None, None)).

Definition askError (status : Z) (message question : string) : Response :=
  {| statusCode := status;
     body := object
       [("error", JString message);
        ("success", JBool false);
        ("question", JString question)] |}.

(** Steps 2 and 3: the snippets of the result, and the answer of the
    completion service from them. *)
Definition answerFrom (rt : @Runtime Q) (s : @NLQueryServer Q)
    (question zoektQuery : string)
    (searchResult : option zoekt.SearchResult) : Logged (Q := Q) Outcome :=
  let extracted :=
    match searchResult with
    | Some res =>
        if (0 <? length (zoekt.Files res))%nat
        then KeywordServer.extractAnswerSnippets res 10
        else Ok []
    | None => Ok []
    end in
  match extracted with
  | Panic msg => pure (Panicked msg)
  | Ok codeSnippets =>
      if enabled (openRouterTranslator s) then
        andThen
          (if (0 <? length codeSnippets)%nat then
             andThen (call (CallAnswerFromSnippets question codeSnippets)
                        (AnswerFromSnippets (openRouterTranslator s)
                           question codeSnippets))
               (fun answer =>
                  pure (if String.eqb answer ""
                        then inr "failed to generate answer from snippets"
                        else inl answer))
           else pure (inr "no code snippets available for answering"))
          (fun r =>
             match r with
             | inr err =>
                 pure (Responded
                         (askError StatusInternalServerError
                            ("Failed to generate answer: " +:+ err)
                            question))
             | inl answer =>
                 let filesFound :=
                   match searchResult with
                   | Some res => Z.of_nat (length (zoekt.Files res))
                   | None => 0
                   end in
                 pure (Responded
                         {| statusCode := StatusOK;
                            body := object
                              [("question", JString question);
                               ("answer", JString answer);
                               ("success", JBool true);
                               ("responseTime", JInt (sinceStartMs rt));
                               ("type", JString "text_answer");
                               ("queryUsed", JString zoektQuery);
                               ("filesFound", JInt filesFound)] |})
             end)
      else
        pure (Responded
                (askError StatusServiceUnavailable
                   "OpenRouter translator not available" question))
  end.

Definition HandleAsk (rt : @Runtime Q) (s : @NLQueryServer Q)
    (question : string) : Logged (Q := Q) Outcome :=
  if String.eqb question "" then
    pure (Responded
            {| statusCode := StatusBadRequest;
               body := object
                 [("error", JString "Missing question parameter 'q'");
                  ("success", JBool false)] |})
  else
    andThen (findCode rt s question)
      (fun found =>
         match found with
         | Panic msg => pure (Panicked msg)
         | Ok (zoektQuery, searchResult, _) =>
             answerFrom rt s question zoektQuery searchResult
         end).

End Handlers.
End KeywordHandlers.

(** ** The translator: from the reply of the completion service to the
    query

    [TranslateWithOpenRouter] sends its prompt to the completion service
    and works on the message of the first choice of the reply. The parts
    below are what it does before the request (the direct answer) and
    after it (the query of the reply); the request itself and the sample
    of the code base in its prompt are not modelled. *)

Section Reply.

Context {U : Unicode} {Q : Type}.

(** [0.9] and [0.95], of type [float64]. *)
Definition c0_9 : spec_float := Eval vm_compute in F64.of_ratio 9 10.
Definition c0_95 : spec_float := Eval vm_compute in F64.of_ratio 95 100.

(** *** The direct answer *)

Definition isQuestion (nlQuery : string) : bool :=
  let lowerQuery := ToLower nlQuery in
  HasPrefix lowerQuery "does "
  || HasPrefix lowerQuery "do "
  || HasPrefix lowerQuery "have "
  || HasPrefix lowerQuery "has "
  || Contains lowerQuery "?".

(** The attempt to answer a question from the relevant snippets; [None]
    when the translation goes on. *)
Definition answerDirectly (t : @OpenRouterTranslator)
    (nlQuery relevantCodeSnippets : string)
  : Logged (Q := Q) (option TranslateResult) :=
  if isQuestion nlQuery
     && negb (String.eqb relevantCodeSnippets "")
     && (100 <? len relevantCodeSnippets)%nat
  then
    let snippetLines := Split relevantCodeSnippets (nl +:+ nl) in
    let cleanSnippets :=
      foldl (fun cleanSnippets line =>
               if Contains line "Found '" && Contains line "```"
               then cleanSnippets ++ [line] else cleanSnippets)
            [] snippetLines in
    if (0 <? length cleanSnippets)%nat then
      andThen (call (CallAnswerFromSnippets nlQuery cleanSnippets)
                 (AnswerFromSnippets t nlQuery cleanSnippets))
        (fun directAnswer =>
           if negb (String.eqb directAnswer "")
              && (10 <? len directAnswer)%nat
           then
             pure (Some (TranslateOk ("DIRECT_ANSWER:" +:+ directAnswer)
                           {| Intent.Type_ := "answer";
                              Intent.Entity := "";
                              Intent.Topic := "";
                              Intent.Confidence := c0_9;
                              Intent.Query := directAnswer;
                              Intent.Variations := [] |}))
           else pure None)
    else pure None
  else pure None.

(** *** The query of the reply *)

(** The message of the first choice: [message["content"].(string)] and
    [message["reasoning"].(string)], [None] for a field that is missing or
    no string. *)
Record Message := {
  content : option string;
  reasoning : option string
}.

(** The text that the query is looked for in; [message] is [None] when
    the reply has no first choice with a message. *)
Definition replyText (message : option Message) : string :=
  match message with
  | None => ""
  | Some message =>
      match content message with
      | Some (String c rest) => TrimSpace (String c rest)
      | _ =>
          match reasoning message with
          | Some (String c rest) =>
              let zoektQuery := TrimSpace (String c rest) in
              if Contains zoektQuery "Output:" then
                let parts := Split zoektQuery "Output:" in
                if (1 <? length parts)%nat
                then TrimSpace (List.last parts "")
                else zoektQuery
              else zoektQuery
          | _ => ""
          end
      end
  end.

Definition isExplanation (explanationWords : list string) (lower : string)
  : bool :=
  existsb (fun word =>
             String.eqb lower word || HasPrefix lower (word +:+ " "))
    explanationWords.

(** The lines of the text that look like queries. *)
Definition queryLinesOf (zoektQuery : string) : list string :=
  foldl (fun queryLines line =>
           let line := TrimSpace line in
           let lowerLine := ToLower (TrimSpace line) in
           let explanationWords :=
             ["converting"; "formulating"; "transforming"; "searching";
              "looking"; "finding"; "analyzing"; "processing"] in
           if isExplanation explanationWords lowerLine
              || Contains lowerLine "i need"
              || Contains lowerLine "the user"
              || Contains lowerLine "they're asking"
              || (200 <? len line)%nat
           then queryLines
           else if HasPrefix (TrimSpace line) "I "
                   || HasPrefix (TrimSpace line) ("I" +:+ nl)
                   || String.eqb (TrimSpace line) "I"
           then queryLines
           else if Contains line "file:"
                   || Contains line "lang:"
                   || Contains line "content:"
                   || Contains line "sym:"
                   || ((0 <? len line)%nat && (len line <? 150)%nat
                       && negb (Contains (ToLower line) "how")
                       && negb (Contains (ToLower line) "what")
                       && negb (HasPrefix (ToLower (TrimSpace line)) "i "))
           then queryLines ++ [line]
           else queryLines)
        [] (Split zoektQuery nl).

(** The removal of what models put around a query. *)
Definition stripWrappers (zoektQuery : string) : string :=
  let zoektQuery := TrimPrefix zoektQuery "Output:" in
  let zoektQuery := TrimPrefix zoektQuery "Query:" in
  let zoektQuery := TrimPrefix zoektQuery "Zoekt query:" in
  let zoektQuery := TrimPrefix zoektQuery "query:" in
  let zoektQuery := TrimPrefix zoektQuery "```" in
  let zoektQuery := TrimSuffix zoektQuery "```" in
  let zoektQuery := TrimPrefix zoektQuery "```zoekt" in
  let zoektQuery := TrimPrefix zoektQuery "```js" in
  let zoektQuery := Trim zoektQuery "`" in
  let zoektQuery := Trim zoektQuery (dq +:+ "'") in
  TrimSpace zoektQuery.

(** The cut of the query to its [file:] pattern and, without one, of a
    query of more than 200 bytes to one word. *)
Definition keepPattern (zoektQuery : string) : Result string :=
  if Contains zoektQuery "file:" then
    let parts := Split zoektQuery "file:" in
    if (1 <? length parts)%nat then
      part1 ← index parts 1;
      filePart ← index (Fields part1) 0;
      if Contains zoektQuery "blogs" && Contains filePart "blogs"
      then Ok "file:blogs.js"
      else Ok ("file:" +:+ filePart)
    else Ok zoektQuery
  else if (200 <? len zoektQuery)%nat then
    let words := Fields zoektQuery in
    let zoektQuery :=
      match List.find (fun word => HasPrefix word "file:"
                                   || HasPrefix word "lang:") words with
      | Some word => word
      | None => zoektQuery
      end in
    match words with
    | first :: _ => if (200 <? len zoektQuery)%nat then Ok first
                    else Ok zoektQuery
    | [] => Ok zoektQuery
    end
  else Ok zoektQuery.

(** What is done with a text that is not empty. *)
Definition cleanReply (zoektQuery : string) : Result string :=
  let zoektQuery := TrimSpace zoektQuery in
  let queryLines := queryLinesOf zoektQuery in
  let zoektQuery :=
    match queryLines with
    | first :: _ => first
    | [] => zoektQuery
    end in
  let zoektQuery := stripWrappers zoektQuery in
  zoektQuery ← keepPattern zoektQuery;
  Ok (repairFileQuotes zoektQuery).

(** *** The checks of the query *)

(** [FindAllString] of the pattern of query atoms; what it finds is
    written to [zoektQuery] and overwritten by the statement that
    follows. *)
Variable FindAllString : string -> list string.

(** [keyTerms := t.extractKeyTerms(nlQuery); if len(keyTerms) > 0 {
    zoektQuery = strings.Join(keyTerms, " ") } else { zoektQuery = nlQuery
    }]. *)
Definition keyTermsOr (nlQuery : string) : string :=
  let keyTerms := extractKeyTerms nlQuery in
  if (0 <? length keyTerms)%nat then Join keyTerms " " else nlQuery.

(** The same with the extraction repeated in the branch without key
    terms. *)
Definition keyTermsTwiceOr (nlQuery : string) : string :=
  let keyTerms := extractKeyTerms nlQuery in
  if (0 <? length keyTerms)%nat then Join keyTerms " "
  else keyTermsOr nlQuery.

Definition intentTypeOf (nlQuery : string) : string :=
  let lower := ToLower nlQuery in
  if Contains lower "how many" || Contains lower "count" then "count"
  else if Contains lower "list" || Contains lower "show all" then "list"
  else if Contains lower "have" || Contains lower "do i"
          || Contains lower "did i"
  then "yesno"
  else "search".

(** From the query of the reply to what [TranslateWithOpenRouter]
    returns; [parses] tells whether [query.Parse] accepts a query. *)
Definition finishQuery (parses : string -> bool)
    (zoektQuery nlQuery : string) : TranslateResult :=
  let zoektQuery :=
    if (len (TrimSpace zoektQuery) <=? 1)%nat
    then keyTermsOr nlQuery else zoektQuery in
  if String.eqb zoektQuery "" || (len (TrimSpace zoektQuery) <=? 1)%nat then
    TranslateError
      "no valid query generated from OpenRouter API and fallback failed"
  else
    let zoektQuery := validateAndFixQuery parses zoektQuery in
    let lowerQueryCheck := ToLower (TrimSpace zoektQuery) in
    let explanationWords :=
      ["converting"; "formulating"; "searching"; "transforming";
       "looking"; "finding"; "analyzing"; "processing"] in
    let zoektQuery :=
      if isExplanation explanationWords lowerQueryCheck
      then keyTermsTwiceOr nlQuery else zoektQuery in
    let zoektQuery :=
      if (200 <? len zoektQuery)%nat || Contains zoektQuery "**" then
        let matches := FindAllString zoektQuery in
        let zoektQuery :=
          match List.find (fun match_ => HasPrefix match_ "file:"
                                         || HasPrefix match_ "lang:"
                                         || (len match_ <? 50)%nat)
                  matches with
          | Some match_ => match_
          | None => zoektQuery
          end in
        keyTermsOr nlQuery
      else zoektQuery in
    let trimmedQuery := TrimSpace zoektQuery in
    let zoektQuery :=
      if (len trimmedQuery <=? 1)%nat || String.eqb trimmedQuery "I"
         || String.eqb trimmedQuery "i"
      then keyTermsTwiceOr nlQuery else zoektQuery in
    TranslateOk zoektQuery
      {| Intent.Type_ := intentTypeOf nlQuery;
         Intent.Entity := "";
         Intent.Topic := "";
         Intent.Confidence := c0_95;
         Intent.Query := zoektQuery;
         Intent.Variations := [] |}.

(** The translation from the decoded reply on. *)
Definition translateReply (parses : string -> bool)
    (message : option Message) (nlQuery : string) : Result TranslateResult :=
  let zoektQuery := replyText message in
  zoektQuery ← (if negb (String.eqb zoektQuery "")
                 then cleanReply zoektQuery else Ok zoektQuery);
  Ok (finishQuery parses zoektQuery nlQuery).

End Reply.

(** ** Semantic search: the results of a reply of the vector store

    [Search] of [semantic_search.go] embeds the query, posts it to the
    vector store and decodes the reply to a [map[string]interface{}];
    what follows is what it does with the decoded reply. *)

(** A decoded JSON value ([interface{}]); an object is given by its
    fields. *)
Module Decoded.

#[warnings="-register-all"] Inductive Value :=
  | Null
  | Boolean (b : bool)
  | Number (f : spec_float)
  | Text (s : string)
  | Array (l : list Value)
  | Object (field : string -> option Value).

End Decoded.

(** The conversion [float32(x)] of a [float64]: the nearest binary32
    number, ties to even. *)
Definition float32Of (x : spec_float) : float32 :=
  match x with
  | S754_finite s m e =>
      binary_normalize F32.prec F32.emax (cond_Zopp s (Z.pos m)) e s
  | _ => x
  end.

Section SemanticResults.

(** [int(x)] of a [float64]: the language leaves the result to the
    implementation when the number is not in the range of [int]. *)
Variable float64ToInt : spec_float -> Z.

(** [v, _ := x.([]interface{})]: nil for what is no array. *)
Definition arrayOrNil (x : option Decoded.Value) : list Decoded.Value :=
  match x with
  | Some (Decoded.Array l) => l
  | _ => []
  end.

(** [x.([]interface{})], without the test: a panic for what is no
    array. *)
Definition mustArray (x : Decoded.Value) : Result (list Decoded.Value) :=
  match x with
  | Decoded.Array l => Ok l
  | _ => Panic "interface conversion"
  end.

Definition textOr (x : option Decoded.Value) (default : string) : string :=
  match x with
  | Some (Decoded.Text s) => s
  | _ => default
  end.

Definition numberOr (x : option Decoded.Value) (default : spec_float)
  : spec_float :=
  match x with
  | Some (Decoded.Number f) => f
  | _ => default
  end.

Definition intOr (x : option Decoded.Value) (default : Z) : Z :=
  match x with
  | Some (Decoded.Number f) => float64ToInt f
  | _ => default
  end.

(** [float32(1.0 / (1.0 + distance))], at most [1.0]. *)
Definition similarityOf (distance : spec_float) : float32 :=
  let similarity :=
    float32Of (SFdiv F64.prec F64.emax F64.one
                 (SFadd F64.prec F64.emax F64.one distance)) in
  if F32.gtb similarity F32.one then F32.one else similarity.

(** The body of the loop over the results. *)
Definition resultAt (idsList documentsList metadatasList distancesList
                       : list Decoded.Value)
    (i : Z) (searchResults : list SemanticSearchResultV2)
  : Result (list SemanticSearchResultV2) :=
  distVal ← index distancesList i;
  let distance := numberOr (Some distVal) (S754_zero false) in
  let similarity := similarityOf distance in
  idVal ← index idsList i;
  let chunkID := textOr (Some idVal) "" in
  docVal ← index documentsList i;
  let docContent := textOr (Some docVal) "" in
  metaVal ← index metadatasList i;
  let metadata :=
    match metaVal with
    | Decoded.Object field => field
    | _ => fun _ => None
    end in
  let fileName := textOr (metadata "file_name") "" in
  let startLine := intOr (metadata "start_line") 0 in
  let endLine := intOr (metadata "end_line") 0 in
  let chunkType := textOr (metadata "type") "" in
  let language := textOr (metadata "language") "" in
  Ok (searchResults
      ++ [{| Chunk := {| ID := chunkID;
                         Content := docContent;
                         FileName := fileName;
                         StartLine := startLine;
                         EndLine := endLine;
                         Type_ := chunkType;
                         Language := language;
                         Embedding := [] |};
             Similarity := similarity;
             Score := similarity |}]).

(** The results of the decoded reply [result];
    [for i := 0; i < len(idsList) && i < topK; i++] runs to the smaller of
    the two bounds. *)
Definition searchResultsOf (result : string -> option Decoded.Value)
    (topK : Z) : Result (list SemanticSearchResultV2) :=
  let topK := if topK <=? 0 then 10 else topK in
  let ids := arrayOrNil (result "ids") in
  let documents := arrayOrNil (result "documents") in
  let metadatas := arrayOrNil (result "metadatas") in
  let distances := arrayOrNil (result "distances") in
  if (0 <? length ids)%nat && (0 <? length documents)%nat then
    idsList ← index ids 0 ≫= mustArray;
    documentsList ← index documents 0 ≫= mustArray;
    metadatasList ← index metadatas 0 ≫= mustArray;
    distancesList ← index distances 0 ≫= mustArray;
    forRange 0 (Z.min (Z.of_nat (length idsList)) topK) (fun _ => true)
      (resultAt idsList documentsList metadatasList distancesList) []
  else Ok [].

End SemanticResults.

(** * Properties *)

(** ** binary32: order and sign facts *)

Module F32Facts.

Import F32.

(** The constants are the binary32 numbers of the bit patterns 3F800000,
    3FA66666, 3F99999A and 3F666666. *)
Example constants_bits :
  F32.one = S754_finite false 8388608 (-23)
  /\ F32.c1_3 = S754_finite false 10905190 (-23)
  /\ F32.c1_2 = S754_finite false 10066330 (-23)
  /\ F32.c0_9 = S754_finite false 15099494 (-24)
  /\ valid_binary F32.prec F32.emax F32.c1_3 = true.
Proof. repeat split. Qed.

Lemma lex_lt (e1 e2 : Z) (m1 m2 : positive) :
  match Z.compare e1 e2 with
  | Lt => Lt | Gt => Gt | Eq => Pos.compare_cont Eq m1 m2
  end = Lt <-> (e1 < e2 \/ (e1 = e2 /\ (m1 < m2)%positive)).
Proof.
  change (Pos.compare_cont Eq m1 m2) with (Pos.compare m1 m2).
  destruct (Z.compare_spec e1 e2); destruct (Pos.compare_spec m1 m2);
    split; intros; try discriminate; try lia; auto.
Qed.

Lemma lex_gt (e1 e2 : Z) (m1 m2 : positive) :
  match Z.compare e1 e2 with
  | Lt => Gt | Gt => Lt | Eq => CompOpp (Pos.compare_cont Eq m1 m2)
  end = Lt <-> (e2 < e1 \/ (e1 = e2 /\ (m2 < m1)%positive)).
Proof.
  change (Pos.compare_cont Eq m1 m2) with (Pos.compare m1 m2).
  destruct (Z.compare_spec e1 e2); destruct (Pos.compare_spec m1 m2);
    simpl; split; intros; try discriminate; try lia; auto.
Qed.

Lemma ltb_finite (s1 s2 : bool) m1 e1 m2 e2 :
  SFltb (S754_finite s1 m1 e1) (S754_finite s2 m2 e2) = true <->
  match s1, s2 with
  | true, false => True
  | false, true => False
  | false, false => e1 < e2 \/ (e1 = e2 /\ (m1 < m2)%positive)
  | true, true => e2 < e1 \/ (e1 = e2 /\ (m2 < m1)%positive)
  end.
Proof.
  unfold SFltb, SFcompare. destruct s1, s2.
  - rewrite <- lex_gt.
    destruct (match e1 ?= e2 with Lt => Gt | Eq => _ | Gt => Lt end);
      split; congruence.
  - split; auto.
  - split; [discriminate | tauto].
  - rewrite <- lex_lt.
    destruct (match e1 ?= e2 with Lt => Lt | Eq => _ | Gt => Gt end);
      split; congruence.
Qed.

Lemma ltb_irrefl (x : float32) : ltb x x = false.
Proof.
  destruct x as [s|s| |s m e]; unfold ltb; try (destruct s; reflexivity).
  - reflexivity.
  - apply not_true_is_false. rewrite ltb_finite. destruct s; lia.
Qed.

Lemma ltb_trans (x y z : float32) :
  ltb x y = true -> ltb y z = true -> ltb x z = true.
Proof.
  unfold ltb.
  destruct x as [sx|sx| |sx mx ex], y as [sy|sy| |sy my ey],
    z as [sz|sz| |sz mz ez];
    try (destruct sx); try (destruct sy); try (destruct sz);
    intros H1 H2;
    try (cbv in H1; discriminate H1); try (cbv in H2; discriminate H2);
    try reflexivity;
    rewrite ?ltb_finite in *; simpl in *; try tauto; try lia.
Qed.

(** Comparing the other way round gives the opposite answer. *)
Lemma compare_antisym (x y : float32) :
  SFcompare y x = option_map CompOpp (SFcompare x y).
Proof.
  destruct x as [sx|sx| |sx mx ex], y as [sy|sy| |sy my ey];
    try (destruct sx); try (destruct sy); try reflexivity; simpl;
    change (Pos.compare_cont Eq my mx) with (Pos.compare my mx);
    change (Pos.compare_cont Eq mx my) with (Pos.compare mx my);
    rewrite (Z.compare_antisym ey ex), (Pos.compare_antisym my mx);
    destruct (ey ?= ex); simpl; try reflexivity;
    destruct (my ?= mx)%positive; reflexivity.
Qed.

Lemma compare_None (x y : float32) :
  SFcompare x y = None -> is_nan x = true \/ is_nan y = true.
Proof.
  destruct x as [sx|sx| |sx mx ex], y as [sy|sy| |sy my ey];
    simpl; auto; try discriminate;
    try (destruct sx); try (destruct sy); discriminate.
Qed.

(** Among numbers, "not greater" is "less or equal". *)
Lemma not_gtb_leb (x y : float32) :
  is_nan x = false -> is_nan y = false ->
  gtb y x = false -> leb y x = true.
Proof.
  intros Hx Hy. unfold gtb, leb, SFltb, SFleb.
  rewrite (compare_antisym x y).
  destruct (SFcompare x y) as [[]|] eqn:E; simpl; try done.
  destruct (compare_None _ _ E); congruence.
Qed.

(** The clamp of the boost is Go's [min] with [1.0]. *)
Lemma clamp_min (p : float32) :
  (if gtb p one then one else p) = min one p.
Proof.
  unfold gtb, min, SFltb.
  destruct (SFcompare one p) as [[]|] eqn:E; try reflexivity.
  destruct p; try discriminate; reflexivity.
Qed.

(** *** The sign of a product *)

Lemma shr_1_nonneg mrs : 0 <= shr_m mrs -> 0 <= shr_m (shr_1 mrs).
Proof.
  destruct mrs as [m r s]. simpl.
  destruct m as [|[p|p|]|[p|p|]]; simpl; lia.
Qed.

Lemma iter_shr_1_nonneg p mrs :
  0 <= shr_m mrs -> 0 <= shr_m (SpecFloat.iter_pos shr_1 p mrs).
Proof.
  revert mrs.
  induction p as [p IH|p IH|]; intros mrs H; simpl.
  - apply IH, IH, shr_1_nonneg, H.
  - apply IH, IH, H.
  - apply shr_1_nonneg, H.
Qed.

Lemma shr_fexp_nonneg m e l :
  0 <= m -> 0 <= shr_m (fst (shr_fexp prec emax m e l)).
Proof.
  intros H. unfold shr_fexp, shr.
  assert (H0 : 0 <= shr_m (shr_record_of_loc m l))
    by (destruct l as [|[]]; exact H).
  destruct (fexp prec emax (Zdigits2 m + e) - e); simpl; auto.
  apply iter_shr_1_nonneg, H0.
Qed.

Lemma round_nearest_even_nonneg m l :
  0 <= m -> 0 <= round_nearest_even m l.
Proof.
  intros H. destruct l as [|[]]; simpl; try lia.
  destruct (Z.even m); lia.
Qed.

(** Rounding a non-negative mantissa with sign [s] gives a zero, a
    finite number or an infinity of sign [s]: never a NaN. *)
Lemma binary_round_aux_sign s m e l :
  0 <= m ->
  match binary_round_aux prec emax s m e l with
  | S754_zero s' | S754_infinity s' | S754_finite s' _ _ => s' = s
  | S754_nan => False
  end.
Proof.
  intros H. unfold binary_round_aux.
  pose proof (shr_fexp_nonneg m e l H) as H1.
  destruct (shr_fexp prec emax m e l) as [mrs' e'] eqn:E1. simpl in H1.
  pose proof (shr_fexp_nonneg
                (round_nearest_even (shr_m mrs') (loc_of_shr_record mrs'))
                e' loc_Exact
                (round_nearest_even_nonneg _ _ H1)) as H2.
  destruct (shr_fexp prec emax _ e' loc_Exact) as [mrs'' e''] eqn:E2.
  simpl in H2.
  destruct (shr_m mrs'') as [|p|p]; try reflexivity; try lia.
  destruct (e'' <=? emax - prec); reflexivity.
Qed.

(** A number of the unit interval is a zero or a positive finite
    number. *)
Lemma in_unit_cases (x : float32) :
  in_unit x -> (exists s, x = S754_zero s) \/ (exists m e, x = S754_finite false m e).
Proof.
  intros [H0 H1]. destruct x as [s|s| |s m e].
  - left. eauto.
  - destruct s; cbv in H0, H1; discriminate.
  - cbv in H0. discriminate.
  - destruct s; [cbv in H0; discriminate|]. right. eauto.
Qed.

(** The clamped product of a number of the unit interval with a
    positive finite constant is in the unit interval. *)
Lemma clamp_mul_in_unit (x : float32) (mc : positive) (ec : Z) :
  in_unit x ->
  let p := mul x (S754_finite false mc ec) in
  in_unit (if gtb p one then one else p).
Proof.
  intros Hx p.
  destruct (gtb p one) eqn:G; [split; reflexivity|].
  assert (Hp : (exists s, p = S754_zero s) \/
               (exists m e, p = S754_finite false m e) \/
               p = S754_infinity false).
  { destruct (in_unit_cases x Hx) as [[s ->]|(m & e & ->)].
    - left. exists (xorb s false). reflexivity.
    - subst p. unfold mul, SFmul. simpl xorb.
      pose proof (binary_round_aux_sign false (Z.pos (m * mc)) (e + ec)
                    loc_Exact ltac:(lia)) as H.
      destruct (binary_round_aux prec emax false _ _ _) as [s|s| |s m' e'];
        try contradiction; subst; eauto. }
  unfold gtb, SFltb in G. unfold in_unit, leb, SFleb.
  rewrite (compare_antisym one p).
  destruct Hp as [[s ->]|[(m & e & ->)| ->]].
  - split; reflexivity.
  - split; [reflexivity|].
    destruct (SFcompare one (S754_finite false m e)) as [[]|] eqn:E;
      try reflexivity; try discriminate.
  - cbv in G. discriminate.
Qed.
End F32Facts.

(** ** Fusion *)

Section FusionFacts.

Context {U : Unicode} {Q : Type}.

Implicit Types (r x y : SemanticSearchResultV2).
Implicit Types (l pre suf : list SemanticSearchResultV2).

(** The order test of the re-sort: [y] goes before [x]. *)
Definition before (y x : SemanticSearchResultV2) : bool :=
  F32.gtb (Score y) (Score x).

(** One pass of the inner loop, on the element at [i] and the elements
    after it: the element that ends at [i] and the rest. *)
Fixpoint sift x l : SemanticSearchResultV2 * list SemanticSearchResultV2 :=
  match l with
  | [] => (x, [])
  | y :: ys =>
      if before y x
      then let '(m, rest) := sift y ys in (m, x :: rest)
      else let '(m, rest) := sift x ys in (m, y :: rest)
  end.

(** [n] passes. *)
Fixpoint passes (n : nat) l : list SemanticSearchResultV2 :=
  match n, l with
  | S n', x :: suf => let '(m, rest) := sift x suf in m :: passes n' rest
  | _, _ => l
  end.

Lemma sift_length x l : length (sift x l).2 = length l.
Proof.
  revert x. induction l as [|y ys IH]; intros x; simpl; [done|].
  destruct (before y x).
  - specialize (IH y). destruct (sift y ys). simpl in *. lia.
  - specialize (IH x). destruct (sift x ys). simpl in *. lia.
Qed.

Lemma sift_perm x l : Permutation (x :: l) ((sift x l).1 :: (sift x l).2).
Proof.
  revert x. induction l as [|y ys IH]; intros x; simpl; [done|].
  destruct (before y x).
  - specialize (IH y). destruct (sift y ys) as [m rest]. simpl in *.
    etrans; [apply perm_skip, IH | apply perm_swap].
  - specialize (IH x). destruct (sift x ys) as [m rest]. simpl in *.
    etrans; [apply perm_swap|].
    etrans; [apply perm_skip, IH | apply perm_swap].
Qed.

Lemma swap_middle {A} (pre mid suf : list A) (a b : A) :
  swap (pre ++ a :: mid ++ b :: suf) (length pre)
       (length pre + S (length mid))
  = pre ++ b :: mid ++ a :: suf.
Proof.
  unfold swap.
  rewrite list_lookup_middle by done.
  replace (pre ++ a :: mid ++ b :: suf)
    with ((pre ++ a :: mid) ++ b :: suf) by (by rewrite <- app_assoc).
  rewrite list_lookup_middle by (rewrite length_app; simpl; lia).
  rewrite insert_app_r_alt by (rewrite length_app; simpl; lia).
  replace (length pre + S (length mid) - length (pre ++ a :: mid))%nat
    with 0%nat by (rewrite length_app; simpl; lia).
  simpl. rewrite <- app_assoc. simpl.
  rewrite insert_app_r_alt by lia.
  replace (length pre - length pre)%nat with 0%nat by lia. done.
Qed.

Lemma resortStep_middle pre mid suf x y :
  resortStep (length pre) (pre ++ x :: mid ++ y :: suf)
    (length pre + S (length mid))
  = if before y x then pre ++ y :: mid ++ x :: suf
    else pre ++ x :: mid ++ y :: suf.
Proof.
  unfold resortStep.
  replace (pre ++ x :: mid ++ y :: suf)
    with ((pre ++ x :: mid) ++ y :: suf) at 1 by (by rewrite <- app_assoc).
  rewrite list_lookup_middle by (rewrite length_app; simpl; lia).
  rewrite list_lookup_middle by done.
  unfold before. destruct (F32.gtb (Score y) (Score x)); [|done].
  apply swap_middle.
Qed.

(** The inner loop computes [sift]. *)
Lemma inner_loop_sift pre mid suf x :
  foldl (resortStep (length pre)) (pre ++ x :: mid ++ suf)
    (seq (length pre + S (length mid)) (length suf))
  = pre ++ (sift x suf).1 :: mid ++ (sift x suf).2.
Proof.
  revert x mid. induction suf as [|y ys IH]; intros x mid; simpl; [done|].
  rewrite resortStep_middle.
  destruct (before y x).
  - replace (pre ++ y :: mid ++ x :: ys)
      with (pre ++ y :: (mid ++ [x]) ++ ys) by (by rewrite <- app_assoc).
    replace (S (length pre + S (length mid)))
      with (length pre + S (length (mid ++ [x])))%nat
      by (rewrite length_app; simpl; lia).
    rewrite IH. destruct (sift y ys). simpl. by rewrite <- app_assoc.
  - replace (pre ++ x :: mid ++ y :: ys)
      with (pre ++ x :: (mid ++ [y]) ++ ys) by (by rewrite <- app_assoc).
    replace (S (length pre + S (length mid)))
      with (length pre + S (length (mid ++ [y])))%nat
      by (rewrite length_app; simpl; lia).
    rewrite IH. destruct (sift x ys). simpl. by rewrite <- app_assoc.
Qed.

Lemma resortInner_sift pre x suf :
  resortInner (pre ++ x :: suf) (length pre)
  = pre ++ (sift x suf).1 :: (sift x suf).2.
Proof.
  unfold resortInner.
  replace (length (pre ++ x :: suf) - S (length pre))%nat
    with (length suf) by (rewrite length_app; simpl; lia).
  replace (S (length pre)) with (length pre + S (length (@nil SemanticSearchResultV2)))%nat
    by (simpl; lia).
  apply (inner_loop_sift pre [] suf x).
Qed.

(** The outer loop computes [passes]. *)
Lemma outer_loop_passes n pre l :
  length l = n ->
  foldl resortInner (pre ++ l) (seq (length pre) n) = pre ++ passes n l.
Proof.
  revert pre l. induction n as [|n IH]; intros pre l Hn; simpl; [by destruct l|].
  destruct l as [|x suf]; [done|]. simpl in Hn.
  rewrite resortInner_sift.
  pose proof (sift_length x suf) as HL.
  destruct (sift x suf) as [m rest]. simpl in *.
  replace (pre ++ m :: rest) with ((pre ++ [m]) ++ rest)
    by (by rewrite <- app_assoc).
  replace (S (length pre)) with (length (pre ++ [m]))
    by (rewrite length_app; simpl; lia).
  rewrite IH by lia. by rewrite <- app_assoc.
Qed.

Lemma resort_passes l : resort l = passes (length l) l.
Proof. apply (outer_loop_passes (length l) [] l eq_refl). Qed.

Lemma before_irrefl x : before x x = false.
Proof. apply F32Facts.ltb_irrefl. Qed.

Lemma before_trans x y z :
  before x y = true -> before y z = true -> before x z = true.
Proof. unfold before, F32.gtb. intros H1 H2. exact (F32Facts.ltb_trans _ _ _ H2 H1). Qed.

Lemma before_asym x y : before x y = true -> before y x = false.
Proof.
  intros H. apply not_true_is_false. intros H'.
  pose proof (before_trans _ _ _ H H') as C.
  rewrite before_irrefl in C. discriminate.
Qed.

(** The element that a pass leaves in front is not preceded by any
    other. *)
Lemma sift_front x l :
  ((sift x l).1 = x \/ before (sift x l).1 x = true)
  /\ before x (sift x l).1 = false
  /\ Forall (fun z => before z (sift x l).1 = false) (sift x l).2.
Proof.
  revert x. induction l as [|y ys IH]; intros x; simpl.
  - split; [by left|]. split; [apply before_irrefl|constructor].
  - destruct (before y x) eqn:Hyx.
    + destruct (IH y) as (I0 & I1 & I2).
      destruct (sift y ys) as [m rest]. simpl in *.
      assert (Hmx : before m x = true).
      { destruct I0 as [->|I0]; [done|]. by eapply before_trans. }
      split; [by right|]. split; [by apply before_asym|].
      constructor; [by apply before_asym|done].
    + destruct (IH x) as (I0 & I1 & I2).
      destruct (sift x ys) as [m rest]. simpl in *.
      split; [done|]. split; [done|].
      constructor; [|done].
      destruct I0 as [->|I0]; [done|].
      apply not_true_is_false. intros Hym.
      pose proof (before_trans _ _ _ Hym I0). congruence.
Qed.

Lemma passes_perm n l : Permutation l (passes n l).
Proof.
  revert l. induction n as [|n IH]; intros l; simpl; [by destruct l|].
  destruct l as [|x suf]; [done|].
  pose proof (sift_perm x suf) as HP.
  destruct (sift x suf) as [m rest]. simpl in *.
  etrans; [exact HP|]. apply perm_skip, IH.
Qed.

(** No element of the re-sorted list is preceded by one of a smaller
    score. *)
Definition nonIncreasing : list SemanticSearchResultV2 -> Prop :=
  StronglySorted (fun a b => F32.gtb (Score b) (Score a) = false).

Lemma passes_sorted n l : length l = n -> nonIncreasing (passes n l).
Proof.
  revert l. induction n as [|n IH]; intros l Hn.
  - destruct l; [constructor|done].
  - destruct l as [|x suf]; [done|]. simpl in *.
    pose proof (sift_front x suf) as (_ & _ & HF).
    pose proof (sift_length x suf) as HL.
    destruct (sift x suf) as [m rest]. simpl in *.
    constructor; [apply IH; lia|].
    eapply Permutation_Forall; [apply (passes_perm n rest)|exact HF].
Qed.

Lemma resort_sorted l : nonIncreasing (resort l).
Proof. rewrite resort_passes. by apply passes_sorted. Qed.

Lemma resort_perm l : Permutation l (resort l).
Proof. rewrite resort_passes. apply passes_perm. Qed.

(** *** The boost *)

Lemma enhance_loop_map {A B} (f : A -> B) (l : list A) (acc : list B) :
  foldl (fun enhanced semResult => enhanced ++ [f semResult]) acc l
  = acc ++ map f l.
Proof.
  revert acc. induction l as [|a l IH]; intros acc; simpl.
  - by rewrite app_nil_r.
  - rewrite IH. by rewrite <- app_assoc.
Qed.

Lemma zoektFileMap_from (files : list zoekt.FileMatch)
    (m : gmap string zoekt.FileMatch) (name : string) :
  is_Some (foldl (fun m file => <[zoekt.FileName file := file]> m) m files
             !! name)
  <-> is_Some (m !! name) \/ name ∈ map zoekt.FileName files.
Proof.
  revert m. induction files as [|f files IH]; intros m; simpl.
  - split; [by left|]. intros [H|H]; [done|]. by apply elem_of_nil in H.
  - rewrite IH. rewrite lookup_insert_is_Some. rewrite elem_of_cons.
    destruct (decide (zoekt.FileName f = name)) as [E|E];
      intuition (subst; auto).
Qed.

Lemma zoektFileMap_lookup (files : list zoekt.FileMatch) (name : string) :
  is_Some (zoektFileMapOf files !! name)
  <-> name ∈ map zoekt.FileName files.
Proof.
  unfold zoektFileMapOf. rewrite zoektFileMap_from.
  rewrite lookup_empty. split; [|by right].
  intros [H|H]; [|done]. by destruct H.
Qed.

(** What the specification says of one semantic match: boosted and
    clamped when its file is among the keyword-matched files, unchanged
    otherwise. *)
Definition keywordMatched (files : list zoekt.FileMatch) r : Prop :=
  FileName (Chunk r) ∈ map zoekt.FileName files.

#[local] Instance keywordMatched_dec files r :
  Decision (keywordMatched files r).
Proof. unfold keywordMatched. apply _. Defined.

Definition boosted (files : list zoekt.FileMatch) r
  : SemanticSearchResultV2 :=
  if decide (keywordMatched files r) then
    {| Chunk := Chunk r;
       Similarity := F32.min F32.one (F32.mul (Similarity r) F32.c1_2);
       Score := F32.min F32.one (F32.mul (Score r) F32.c1_3) |}
  else r.

Lemma enhanceOne_boosted (files : list zoekt.FileMatch) r :
  enhanceOne (zoektFileMapOf files) r = boosted files r.
Proof.
  unfold enhanceOne, boosted.
  pose proof (zoektFileMap_lookup files (FileName (Chunk r))) as HL.
  destruct (zoektFileMapOf files !! FileName (Chunk r)) as [zf|] eqn:E.
  - rewrite decide_True by (apply HL; eauto).
    by rewrite !F32Facts.clamp_min.
  - rewrite decide_False; [done|].
    intros H. apply HL in H. by destruct H.
Qed.

Lemma boosted_Chunk files r : Chunk (boosted files r) = Chunk r.
Proof. unfold boosted. by destruct (decide _). Qed.

(** The fusion is the re-sort of the boosted list. *)
Lemma enhance_resort (s : @NLQueryServer Q) l zr (query : string) :
  is_Some (searcher s) ->
  enhanceSemanticWithZoekt s l (Some zr) query
  = resort (map (boosted (zoekt.Files zr)) l).
Proof.
  intros [sr Hs]. unfold enhanceSemanticWithZoekt. rewrite Hs.
  cbv zeta. rewrite enhance_loop_map. simpl. f_equal.
  apply map_ext. intros r. apply enhanceOne_boosted.
Qed.

(** C1. In a fusion run (a server with a searcher, a keyword result),
    the output is, up to the order the re-sort gives it, the list of the
    semantic matches where each match whose file name is among the
    keyword-matched files has score [min(1.0, 1.3 x score)] and
    similarity [min(1.0, 1.2 x similarity)] and every other match is
    unchanged; a match of score 0.9 on a keyword-matched file comes out
    with score exactly 1.0. *)
Theorem fusion_boosts_matched_files (s : @NLQueryServer Q) l zr
    (query : string) :
  is_Some (searcher s) ->
  let out := enhanceSemanticWithZoekt s l (Some zr) query in
  Permutation out (map (boosted (zoekt.Files zr)) l)
  /\ (forall r, r ∈ l -> keywordMatched (zoekt.Files zr) r ->
       Score r = F32.c0_9 ->
       exists r', r' ∈ out /\ Chunk r' = Chunk r /\ Score r' = F32.one).
Proof.
  intros Hs out.
  assert (HP : Permutation out (map (boosted (zoekt.Files zr)) l)).
  { subst out. rewrite enhance_resort by done. symmetry. apply resort_perm. }
  split; [exact HP|].
  intros r Hr Hm H09. exists (boosted (zoekt.Files zr) r).
  split; [|split].
  - rewrite HP. apply list_elem_of_fmap. eauto.
  - apply boosted_Chunk.
  - unfold boosted. rewrite decide_True by done. simpl. by rewrite H09.
Qed.

(** The scores of the unit interval. *)
Definition unitScores r : Prop :=
  F32.in_unit (Score r) /\ F32.in_unit (Similarity r).

Lemma boosted_unitScores files r : unitScores r -> unitScores (boosted files r).
Proof.
  intros [H1 H2]. unfold boosted. destruct (decide _); [|done].
  split; simpl; rewrite <- F32Facts.clamp_min;
    by apply F32Facts.clamp_mul_in_unit.
Qed.

(** C2, amended. When the pre-fusion score and similarity of every
    semantic match lie in [0, 1], so do the post-fusion score and
    similarity of every fused match. *)
Theorem fusion_score_bound_unit_inputs (s : @NLQueryServer Q) l
    (zoektResult : option zoekt.SearchResult) (query : string) :
  Forall unitScores l ->
  Forall unitScores (enhanceSemanticWithZoekt s l zoektResult query).
Proof.
  intros H.
  destruct (searcher s) as [sr|] eqn:Hs, zoektResult as [zr|];
    try (unfold enhanceSemanticWithZoekt; rewrite Hs; exact H).
  rewrite enhance_resort by eauto.
  eapply Permutation_Forall; [apply resort_perm|].
  apply Forall_fmap. eapply Forall_impl; [exact H|].
  intros r Hr. by apply boosted_unitScores.
Qed.

Lemma StronglySorted_weaken {A} (R R' : A -> A -> Prop) (P : A -> Prop)
    (l : list A) :
  (forall a b, P a -> P b -> R a b -> R' a b) ->
  Forall P l -> StronglySorted R l -> StronglySorted R' l.
Proof.
  intros HR HP HS. induction HS as [|a l HS IH HF]; [constructor|].
  apply Forall_cons in HP as [Pa Pl].
  constructor; [by apply IH|].
  rewrite Forall_forall in *. intros b Hb. apply HR; auto.
Qed.

(** C3, amended. In a fusion run the returned list is sorted by
    non-increasing post-fusion score: no match has a greater score than
    a match before it, and when no score is a NaN every match has a
    score less than or equal to the score of every match before it. *)
Theorem fusion_resort_non_increasing (s : @NLQueryServer Q) l zr
    (query : string) :
  is_Some (searcher s) ->
  let out := enhanceSemanticWithZoekt s l (Some zr) query in
  nonIncreasing out
  /\ (Forall (fun r => F32.is_nan (Score r) = false) out ->
      StronglySorted (fun a b => F32.leb (Score b) (Score a) = true) out).
Proof.
  intros Hs out. subst out. rewrite enhance_resort by done.
  split; [apply resort_sorted|].
  intros HN. eapply StronglySorted_weaken; [|exact HN|apply resort_sorted].
  intros a b Ha Hb. by apply F32Facts.not_gtb_leb.
Qed.

(** The relative order of ties, as the specification has it: two
    matches whose fused scores are equal come out in their input
    order. *)
Definition keepsTieOrder (files : list zoekt.FileMatch)
    (l out : list SemanticSearchResultV2) : Prop :=
  forall (i j : nat) x y,
    (i < j)%nat -> l !! i = Some x -> l !! j = Some y ->
    Score (boosted files x) = Score (boosted files y) ->
    exists i' j' : nat,
      (i' < j')%nat /\ out !! i' = Some (boosted files x)
      /\ out !! j' = Some (boosted files y).

(** C10. Fusion neither adds nor drops a result: the output has the
    length of the semantic input, and it lines up, element by element,
    with a rearrangement of the input whose chunks (ID, content, file
    name, start and end line, type, language) it carries unchanged. *)
Theorem fusion_keeps_length_and_chunks (s : @NLQueryServer Q) l
    (zoektResult : option zoekt.SearchResult) (query : string) :
  let out := enhanceSemanticWithZoekt s l zoektResult query in
  length out = length l
  /\ exists l', Permutation l l'
              /\ Forall2 (fun r r' => Chunk r' = Chunk r) l' out.
Proof.
  intros out.
  assert (H : exists l', Permutation l l'
              /\ Forall2 (fun r r' => Chunk r' = Chunk r) l' out).
  { subst out.
    destruct (searcher s) as [sr|] eqn:Hs, zoektResult as [zr|];
      try (unfold enhanceSemanticWithZoekt; rewrite Hs; exists l;
           split; [done|]; apply Forall2_same_length_lookup_2; [done|];
           intros i x y Hx Hy; congruence).
    rewrite enhance_resort by eauto.
    pose proof (resort_perm (map (boosted (zoekt.Files zr)) l)) as HP.
    symmetry in HP. apply Permutation_map_inv in HP as (l' & -> & HP).
    exists l'. split; [done|].
    apply Forall2_fmap_r, Forall_Forall2_diag, Forall_forall.
    intros r _. apply boosted_Chunk. }
  split; [|exact H].
  destruct H as (l' & HP & HF).
  rewrite (Permutation_length HP). symmetry. by eapply Forall2_length.
Qed.

End FusionFacts.

(** *** Concrete fusion runs *)

Module FusionRuns.

Definition chunkOf (id file : string) : SemanticCodeChunk :=
  {| ID := id; Content := ""; FileName := file; StartLine := 1;
     EndLine := 2; Type_ := "function"; Language := "python";
     Embedding := [] |}.

Definition matchOf (id file : string) (score : float32)
  : SemanticSearchResultV2 :=
  {| Chunk := chunkOf id file; Similarity := score; Score := score |}.

Definition fileOf (name : string) : zoekt.FileMatch :=
  {| zoekt.FileName := name; zoekt.Repository := "repo";
     zoekt.LineMatches := []; zoekt.Content := "" |}.

(** A server over a keyword engine without results, the completion
    service disabled. *)
Definition server : @NLQueryServer unit :=
  {| searcher := Some {| Search := fun _ _ => (None, None) |};
     openRouterTranslator :=
       {| enabled := false;
          TranslateWithOpenRouter := fun _ => TranslateError "disabled";
          AnswerFromSnippets := fun _ _ => "" |};
     semanticSearch := None |}.

Definition keywordHit : zoekt.SearchResult :=
  {| zoekt.Files := [fileOf "a.py"] |}.

Definition half : float32 := Eval vm_compute in F32.of_ratio 1 2.
Definition minusHalf : float32 := Eval vm_compute in SFopp half.

End FusionRuns.

Lemma fusion_boosts_matched_files_witness :
  is_Some (searcher FusionRuns.server)
  /\ let l := [FusionRuns.matchOf "c1" "a.py" F32.c0_9;
               FusionRuns.matchOf "c2" "b.py" F32.c0_9] in
     let out :=
       enhanceSemanticWithZoekt FusionRuns.server l
         (Some FusionRuns.keywordHit) "q" in
     Permutation out (map (boosted (zoekt.Files FusionRuns.keywordHit)) l)
     /\ (forall r, r ∈ l ->
          keywordMatched (zoekt.Files FusionRuns.keywordHit) r ->
          Score r = F32.c0_9 ->
          exists r', r' ∈ out /\ Chunk r' = Chunk r /\ Score r' = F32.one).
Proof.
  split; [eexists; reflexivity|].
  apply (fusion_boosts_matched_files FusionRuns.server).
  eexists; reflexivity.
Defined.

(** The run of the scenario: [a.py] is in both result sets with score
    0.9 and comes out first with score exactly 1.0. *)
Example fusion_scenario_a_py :
  map (fun r => (ID (Chunk r), Score r))
    (enhanceSemanticWithZoekt FusionRuns.server
       [FusionRuns.matchOf "c2" "b.py" F32.c0_9;
        FusionRuns.matchOf "c1" "a.py" F32.c0_9]
       (Some FusionRuns.keywordHit) "q")
  = [("c1", F32.one); ("c2", F32.c0_9)].
Proof. vm_compute. reflexivity. Qed.

(** C2, as stated, fails: a match of score and similarity -0.5 on a
    keyword-matched file comes out with a negative score. *)
Lemma fusion_score_bound_counterexample :
  ~ Forall unitScores
      (enhanceSemanticWithZoekt FusionRuns.server
         [FusionRuns.matchOf "c1" "a.py" FusionRuns.minusHalf]
         (Some FusionRuns.keywordHit) "q").
Proof.
  intros H. apply Forall_cons in H as [[[H0 _] _] _].
  vm_compute in H0. discriminate.
Qed.

Lemma fusion_score_bound_unit_inputs_witness :
  let l := [FusionRuns.matchOf "c1" "a.py" F32.c0_9] in
  Forall unitScores l
  /\ Forall unitScores
       (enhanceSemanticWithZoekt FusionRuns.server l
          (Some FusionRuns.keywordHit) "q").
Proof.
  assert (H : Forall unitScores [FusionRuns.matchOf "c1" "a.py" F32.c0_9]).
  { repeat constructor. }
  split; [exact H|].
  exact (fusion_score_bound_unit_inputs FusionRuns.server _
           (Some FusionRuns.keywordHit) "q" H).
Defined.

(** C3, as stated, fails: with no keyword match, the matches [c1] and [c2]
    of equal score 0.5 come out in the order [c2], [c1] behind [c3]. *)
Lemma fusion_resort_not_stable :
  let l := [FusionRuns.matchOf "c1" "x.py" FusionRuns.half;
            FusionRuns.matchOf "c2" "y.py" FusionRuns.half;
            FusionRuns.matchOf "c3" "z.py" F32.c0_9] in
  let out :=
    enhanceSemanticWithZoekt FusionRuns.server l
      (Some FusionRuns.keywordHit) "q" in
  ~ (nonIncreasing out
     /\ keepsTieOrder (zoekt.Files FusionRuns.keywordHit) l out).
Proof.
  intros l out [_ H].
  destruct (H 0%nat 1%nat _ _ ltac:(lia) eq_refl eq_refl eq_refl)
    as (i' & j' & Hlt & Hi & Hj).
  vm_compute in Hi, Hj.
  destruct i' as [|[|[|i']]]; try discriminate Hi;
    destruct j' as [|[|[|j']]]; try discriminate Hj; lia.
Qed.

Lemma fusion_resort_non_increasing_witness :
  is_Some (searcher FusionRuns.server)
  /\ let out :=
       enhanceSemanticWithZoekt FusionRuns.server
         [FusionRuns.matchOf "c1" "x.py" FusionRuns.half;
          FusionRuns.matchOf "c3" "a.py" F32.c0_9]
         (Some FusionRuns.keywordHit) "q" in
     nonIncreasing out
     /\ (Forall (fun r => F32.is_nan (Score r) = false) out ->
         StronglySorted (fun a b => F32.leb (Score b) (Score a) = true) out).
Proof.
  split; [eexists; reflexivity|].
  apply (fusion_resort_non_increasing FusionRuns.server).
  eexists; reflexivity.
Defined.

(** ** The Pattern Translator *)

Section TranslateFacts.

Context {U : Unicode}.

(** The lexical patterns, tested on the lowered trimmed text. *)
Definition patternMatches (lower : string) : bool :=
  (Contains lower "how many"
   && (Contains lower "article" || Contains lower "blog"))
  || (Contains lower "list"
      && (Contains lower "article" || Contains lower "blog"))
  || (Contains lower "find" && Contains lower "article")
  || ((Contains lower "have" || Contains lower "written about")
      && Contains lower "about").

Definition intentTypes : list string :=
  ["search"; "count"; "list"; "find"; "yesno"].

(** The text between the first [about] and the next one, or the end:
    [parts[1]] of the split, when there is one. *)
Definition afterAbout (lower : string) : option string :=
  match Split lower "about" with
  | _ :: part1 :: _ => Some part1
  | _ => None
  end.

(** The topic of a yes/no request. *)
Definition yesnoTopic (part1 : string) : string :=
  TrimSpace (TrimSuffix (TrimSuffix (TrimSpace part1) " in articles")
               " or not").

(** A text without the separator is the one piece of its split, and a
    text with the separator has two pieces or more. *)
Lemma SplitFrom_without (sep s : string) :
  Index s sep = None -> SplitFrom sep 0 s = [s].
Proof.
  induction s as [|c s IH]; [done|].
  change (Index (String c s) sep)
    with (if HasPrefix (String c s) sep then Some 0%nat
          else S <$> Index s sep).
  destruct (HasPrefix (String c s) sep) eqn:E; [done|].
  destruct (Index s sep) eqn:Ei; [done|]. intros _.
  cbn [SplitFrom]. by rewrite E, IH.
Qed.

Lemma SplitFrom_with (sep s : string) (k : nat) :
  exists p ps, SplitFrom sep k s = p :: ps.
Proof.
  revert k. induction s as [|c s IH]; intros k; [simpl; eauto|].
  destruct k as [|k]; [|apply IH]. cbn [SplitFrom].
  destruct (HasPrefix (String c s) sep); [eauto|].
  destruct (IH 0%nat) as (p & ps & ->). eauto.
Qed.

Lemma SplitFrom_instance (sep s : string) i :
  sep <> "" -> Index s sep = Some i ->
  exists p0 p1 ps, SplitFrom sep 0 s = p0 :: p1 :: ps.
Proof.
  intros Hsep. revert i. induction s as [|c s IH]; intros i.
  - destruct sep; [done|]. done.
  - change (Index (String c s) sep)
      with (if HasPrefix (String c s) sep then Some 0%nat
            else S <$> Index s sep).
    cbn [SplitFrom].
    destruct (HasPrefix (String c s) sep) eqn:E.
    + intros _. destruct (SplitFrom_with sep s (len sep - 1))
        as (p & ps & ->). eauto.
    + destruct (Index s sep) as [j|] eqn:Ei; [|done]. intros _.
      destruct (IH j eq_refl) as (p0 & p1 & ps & ->). eauto.
Qed.

Lemma afterAbout_Contains (lower : string) :
  Contains lower "about" = true <-> is_Some (afterAbout lower).
Proof.
  unfold Contains, afterAbout, Split. rewrite bool_decide_eq_true. split.
  - intros [i Hi].
    destruct (SplitFrom_instance "about" lower i) as (p0 & p1 & ps & ->);
      [done|done|eauto].
  - destruct (Index lower "about") eqn:E; [eauto|].
    rewrite SplitFrom_without by done. by intros [? ?].
Qed.

(** The branches of [Translate], with the topic as [afterAbout] has
    it. *)
Lemma Translate_cases (nlQuery : string) :
  let lower := ToLower (TrimSpace nlQuery) in
  Translate nlQuery
  = if Contains lower "how many"
       && (Contains lower "article" || Contains lower "blog")
    then ("title:", "count")
    else if Contains lower "list"
            && (Contains lower "article" || Contains lower "blog")
    then ("title:", "list")
    else if Contains lower "find" && Contains lower "article"
    then (from_option TrimSpace "title:" (afterAbout lower), "find")
    else if (Contains lower "have" || Contains lower "written about")
            && Contains lower "about"
    then (from_option yesnoTopic "title:" (afterAbout lower), "yesno")
    else (TrimSpace nlQuery, "search").
Proof.
  cbv zeta. unfold Translate.
  set (lower := ToLower (TrimSpace nlQuery)).
  pose proof (afterAbout_Contains lower) as Hab.
  destruct (_ && _); [done|]. destruct (_ && _); [done|].
  destruct (_ && _).
  - destruct (Contains lower "about").
    + destruct (proj1 Hab eq_refl) as [part1 E]. unfold afterAbout in *.
      by destruct (Split lower "about") as [|p0 [|p1 ps]].
    + destruct (afterAbout lower) as [part1|] eqn:E; [|done].
      assert (Hf : false = true) by (apply Hab; eauto). done.
  - destruct (_ && _); [|done]. unfold afterAbout, yesnoTopic.
    by destruct (Split lower "about") as [|p0 [|p1 ps]].
Qed.

(** C4, amended. [Translate] is a total function: for every input it
    returns a query and one of the intent types search, count, list,
    find, yesno. When no lexical pattern matches it returns the trimmed
    original text with intent search (and only then the intent is
    search); that query is non-empty when the input does not trim to
    empty, and an input that trims to empty gives the empty query with
    intent search. The query of a count or list intent is the fixed
    [title:]; the query of a find intent is the trimmed text after the
    first [about], and [title:] without [about]; the query of a yesno
    intent is the topic after the first [about]. So the query is not
    empty but for an input that trims to empty and for a find or yesno
    request whose topic after [about] is empty. *)
Theorem translate_total (nlQuery : string) :
  let query := (Translate nlQuery).1 in
  let queryType := (Translate nlQuery).2 in
  let lower := ToLower (TrimSpace nlQuery) in
  queryType ∈ intentTypes
  /\ (patternMatches lower = false ->
      Translate nlQuery = (TrimSpace nlQuery, "search"))
  /\ (queryType = "search" -> patternMatches lower = false)
  /\ (queryType = "search" -> TrimSpace nlQuery <> "" -> query <> "")
  /\ (queryType = "count" \/ queryType = "list" -> query = "title:")
  /\ (queryType = "find" ->
      query = from_option TrimSpace "title:" (afterAbout lower))
  /\ (queryType = "yesno" ->
      exists part1, afterAbout lower = Some part1
                    /\ query = yesnoTopic part1)
  /\ (query = "" ->
      (queryType = "search" /\ TrimSpace nlQuery = "")
      \/ exists part1,
           afterAbout lower = Some part1
           /\ ((queryType = "find" /\ TrimSpace part1 = "")
               \/ (queryType = "yesno" /\ yesnoTopic part1 = "")))
  /\ (ToLower "" = "" -> TrimSpace nlQuery = "" ->
      Translate nlQuery = ("", "search")).
Proof.
  cbv zeta.
  assert (Hlast : ToLower "" = "" -> TrimSpace nlQuery = "" ->
                  Translate nlQuery = ("", "search")).
  { intros Hl Ht. unfold Translate. by rewrite Ht, Hl. }
  rewrite Translate_cases in *. unfold patternMatches, intentTypes.
  set (lower := ToLower (TrimSpace nlQuery)) in *.
  destruct (Contains lower "how many"
            && (Contains lower "article" || Contains lower "blog")).
  { cbn [fst snd orb]. split; [set_solver|]. repeat split; done. }
  destruct (Contains lower "list"
            && (Contains lower "article" || Contains lower "blog")).
  { cbn [fst snd orb]. split; [set_solver|]. repeat split; done. }
  destruct (Contains lower "find" && Contains lower "article").
  { cbn [fst snd orb]. split; [set_solver|].
    repeat split; try done; try exact Hlast.
    - by intros [?|?].
    - intros E. right. destruct (afterAbout lower) as [part1|]; [|done].
      exists part1. split; [done|]. by left. }
  destruct ((Contains lower "have" || Contains lower "written about")
            && Contains lower "about") eqn:E4.
  { cbn [fst snd orb].
    assert (Hab : exists part1, afterAbout lower = Some part1).
    { apply afterAbout_Contains.
      by apply andb_true_iff in E4 as [_ ->]. }
    destruct Hab as [part1 Hp]. rewrite Hp in *. cbn [from_option] in *.
    split; [set_solver|].
    repeat split; try done; try exact Hlast.
    - by intros [?|?].
    - intros _. eauto.
    - intros E. right. exists part1. split; [done|]. by right. }
  cbn [fst snd orb]. split; [set_solver|].
  repeat split; try done; try exact Hlast.
  - by intros [?|?].
  - intros E. by left.
Qed.

End TranslateFacts.

(** C4, as stated, fails: for the empty string and for a blank string the
    query returned is empty, and so is the topic of a find or yes/no
    request that ends in "about". *)
Lemma translate_empty_query :
  ~ (forall nlQuery : string, (Translate (U := AsciiText) nlQuery).1 <> "")
  /\ Translate (U := AsciiText) "" = ("", "search")
  /\ Translate (U := AsciiText) "   " = ("", "search")
  /\ Translate (U := AsciiText) "find articles about" = ("", "find")
  /\ Translate (U := AsciiText) "have you written about" = ("", "yesno").
Proof.
  split; [|repeat split; vm_compute; reflexivity].
  intros H. apply (H ""). vm_compute. reflexivity.
Qed.

Lemma translate_total_witness :
  let nlQuery := "  where is the parser  " in
  let query := (Translate (U := AsciiText) nlQuery).1 in
  let queryType := (Translate (U := AsciiText) nlQuery).2 in
  query = "where is the parser" /\ queryType = "search"
  /\ queryType ∈ intentTypes
  /\ query <> ""
  /\ (Translate (U := AsciiText) "find articles about parsers").1
     = "parsers"
  /\ Translate (U := AsciiText) "  " = ("", "search").
Proof.
  intros nlQuery query queryType.
  destruct (translate_total (U := AsciiText) nlQuery)
    as (H1 & H2 & _ & H4 & _).
  destruct (translate_total (U := AsciiText) "find articles about parsers")
    as (_ & _ & _ & _ & _ & H6 & _).
  destruct (translate_total (U := AsciiText) "  ")
    as (_ & _ & _ & _ & _ & _ & _ & _ & H9).
  split; [vm_compute; reflexivity|].
  split; [vm_compute; reflexivity|].
  split; [exact H1|].
  split; [apply H4; [vm_compute; reflexivity|vm_compute; discriminate]|].
  split; [rewrite H6; vm_compute; reflexivity|].
  apply H9; reflexivity.
Defined.

(** The scenario of the count question. *)
Example translate_how_many_articles :
  Translate (U := AsciiText) "how many articles are there"
  = ("title:", "count").
Proof. vm_compute. reflexivity. Qed.

(** ** The search handler *)

Section HandlerFacts.

Context {U : Unicode} {Q : Type}.

Implicit Types (rt : @Runtime Q) (s : @NLQueryServer Q) (c : @Call Q).

Definition isTranslateCall c : bool :=
  match c with CallTranslateWithOpenRouter _ => true | _ => false end.
Definition isSearchCall c : bool :=
  match c with CallSearch _ _ => true | _ => false end.
Definition isAnswerCall c : bool :=
  match c with CallAnswerFromSnippets _ _ => true | _ => false end.

Lemma andThen_fst {A B} (m : @Logged Q A) (k : A -> @Logged Q B) :
  (andThen m k).1 = (k m.1).1.
Proof. unfold andThen. destruct m as [a l1]. simpl. by destruct (k a). Qed.

Lemma andThen_snd {A B} (m : @Logged Q A) (k : A -> @Logged Q B) :
  (andThen m k).2 = m.2 ++ (k m.1).2.
Proof. unfold andThen. destruct m as [a l1]. simpl. by destruct (k a). Qed.

(** The calls of each stage. *)
Lemma translate_calls rt s nlQuery directQuery :
  Forall (fun c => isTranslateCall c = true)
    (translate rt s nlQuery directQuery).2.
Proof.
  unfold translate.
  destruct directQuery; [constructor|].
  destruct (enabled _); simpl; [|constructor].
  destruct (TranslateWithOpenRouter _ _) as [e|zq i|msg]; simpl.
  - by repeat constructor.
  - destruct (String.eqb zq ""); [by repeat constructor|].
    destruct (HasPrefix zq _); by repeat constructor.
  - by repeat constructor.
Qed.



Lemma semanticRetrieve_calls s nlQuery searchMode :
  Forall (fun c => isSearchCall c || isAnswerCall c = false)
    (semanticRetrieve s nlQuery searchMode).2.
Proof.
  unfold semanticRetrieve. destruct (semanticSearch s) as [svc|]; [|constructor].
  destruct (_ || _); [|constructor].
  rewrite andThen_snd. simpl. constructor; [done|].
  destruct (IsIndexed svc) as [[] e]; simpl; [|constructor].
  destruct (SemanticSearch svc nlQuery 20) as [[l|e']|msg]; simpl;
    by repeat constructor.
Qed.

(** The fields of the responses. *)
Lemma semanticResponse_fields rt nlQuery sem (searchMode text : string) :
  let resp := semanticResponse rt nlQuery sem searchMode (Some text) in
  statusCode resp = StatusOK
  /\ body resp !! "success" = Some (JBool true)
  /\ body resp !! "semanticResults" = Some (JSemantic sem)
  /\ body resp !! "resultCount" = Some (JInt (Z.of_nat (length sem)))
  /\ body resp !! "note" = Some (JString text)
  /\ body resp !! "results" = None.
Proof. repeat split; vm_compute; reflexivity. Qed.


Lemma parseErrorResponse_fields (nlQuery zq err : string) :
  let resp := parseErrorResponse nlQuery zq err in
  statusCode resp = StatusBadRequest
  /\ body resp !! "success" = Some (JBool false)
  /\ body resp !! "error" = Some (JString ("Query parse error: " +:+ err))
  /\ body resp !! "translatedQuery" = Some (JString zq)
  /\ body resp !! "resultCount" = None
  /\ body resp !! "countAnswer" = None.
Proof. repeat split; vm_compute; reflexivity. Qed.


(** The default of the [mode] parameter. *)
Definition searchModeOf (r : Request) : string :=
  if String.eqb (mode r) "" then "hybrid" else mode r.

Definition directQueryOf (r : Request) : bool :=
  String.eqb (direct r) "true".

(** The handler after the test of [q]. *)
Lemma HandleSearch_unfold rt s (r : Request) :
  q r <> "" ->
  HandleSearch rt s r
  = andThen (translate rt s (q r) (directQueryOf r))
      (fun tr =>
         match tr with
         | Panic msg => pure (Panicked msg)
         | Ok (inl response) => pure (Responded response)
         | Ok (inr t) =>
             andThen (semanticRetrieve s (q r) (searchModeOf r))
               (fun retrieved =>
                  match retrieved with
                  | Panic msg => pure (Panicked msg)
                  | Ok sem => keywordPath rt s (q r) (searchModeOf r) t sem
                  end)
         end).
Proof.
  intros Hq. unfold HandleSearch.
  destruct (String.eqb_spec (q r) ""); [done|]. reflexivity.
Qed.

Lemma HandleSearch_translated rt s (r : Request) t sem :
  q r <> "" ->
  (translate rt s (q r) (directQueryOf r)).1 = Ok (inr t) ->
  (semanticRetrieve s (q r) (searchModeOf r)).1 = Ok sem ->
  let kw := keywordPath rt s (q r) (searchModeOf r) t sem in
  (HandleSearch rt s r).1 = kw.1
  /\ (HandleSearch rt s r).2
     = (translate rt s (q r) (directQueryOf r)).2
       ++ (semanticRetrieve s (q r) (searchModeOf r)).2 ++ kw.2.
Proof.
  intros Hq Ht Hsem kw. rewrite HandleSearch_unfold by done.
  rewrite andThen_fst, andThen_snd, Ht.
  by rewrite andThen_fst, andThen_snd, Hsem.
Qed.





(** C6. In hybrid mode, when the translated keyword query does not
    parse, the handler executes no keyword search and responds with an
    object: with success = true, the semantic results and the note when
    semantic search returned at least one result, and with the parse
    error and success = false (status 400) when it returned none. The
    semantic results are those that the retrieval returned. *)
Theorem hybrid_parse_failure rt s (r : Request) t (err : string) sem :
  q r <> "" ->
  mode r = "hybrid" \/ mode r = "" ->
  (translate rt s (q r) (directQueryOf r)).1 = Ok (inr t) ->
  Parse rt (zoektQuery t) = inr err ->
  (semanticRetrieve s (q r) "hybrid").1 = Ok sem ->
  let run := HandleSearch rt s r in
  Forall (fun c => isSearchCall c = false) run.2
  /\ (sem <> [] ->
      exists resp, run.1 = Responded resp
        /\ statusCode resp = StatusOK
        /\ body resp !! "success" = Some (JBool true)
        /\ body resp !! "semanticResults" = Some (JSemantic sem)
        /\ body resp !! "note"
           = Some (JString "Keyword query failed, using semantic results")
        /\ body resp !! "results" = None)
  /\ (sem = [] ->
      exists resp, run.1 = Responded resp
        /\ statusCode resp = StatusBadRequest
        /\ body resp !! "success" = Some (JBool false)
        /\ body resp !! "error"
           = Some (JString ("Query parse error: " +:+ err))).
Proof.
  intros Hq Hm Ht Hp Hsem run.
  assert (Hmode : searchModeOf r = "hybrid")
    by (unfold searchModeOf; destruct Hm as [-> | ->]; done).
  rewrite <- Hmode in Hsem.
  destruct (HandleSearch_translated rt s r t sem Hq Ht Hsem) as [H1 H2].
  cbv zeta in H1, H2. rewrite Hmode in H1, H2. subst run.
  assert (Hkw : keywordPath rt s (q r) "hybrid" t sem
                = (Responded
                     (if (0 <? length sem)%nat
                      then semanticResponse rt (q r) sem "hybrid"
                             (Some "Keyword query failed, using semantic results")
                      else parseErrorResponse (q r) (zoektQuery t) err), [])).
  { unfold keywordPath. simpl. rewrite Hp. by destruct (0 <? length sem)%nat. }
  rewrite Hkw in H1, H2. simpl in H1, H2. rewrite app_nil_r in H2.
  split; [|split].
  - rewrite H2. apply Forall_app. split.
    + eapply Forall_impl; [apply translate_calls|]. by intros [].
    + eapply Forall_impl; [apply semanticRetrieve_calls|].
      intros c Hc. by apply orb_false_iff in Hc as [-> _].
  - intros Hne. destruct sem as [|x sem']; [done|].
    eexists. split; [exact H1|].
    destruct (semanticResponse_fields rt (q r) (x :: sem') "hybrid"
                "Keyword query failed, using semantic results")
      as (F1 & F2 & F3 & _ & F5 & F6).
    by repeat split.
  - intros ->. eexists. split; [exact H1|].
    pose proof (parseErrorResponse_fields (q r) (zoektQuery t) err) as F.
    simpl in F. tauto.
Qed.











End HandlerFacts.

(** *** Concrete runs of the handler *)

Module HandlerRuns.

Definition intentOf (type query : string) : Intent.t :=
  {| Intent.Type_ := type; Intent.Entity := ""; Intent.Topic := "";
     Intent.Confidence := F64.one; Intent.Query := query;
     Intent.Variations := [] |}.

Definition lineOf (n : Z) : zoekt.LineMatch :=
  {| zoekt.Line := "title: x"; zoekt.LineNumber := n;
     zoekt.Before := ""; zoekt.After := "" |}.

Definition fileWith (name : string) (lines : list zoekt.LineMatch)
  : zoekt.FileMatch :=
  {| zoekt.FileName := name; zoekt.Repository := "repo";
     zoekt.LineMatches := lines; zoekt.Content := "" |}.

Definition oneFile : zoekt.SearchResult :=
  {| zoekt.Files := [fileWith "parser.go" []] |}.

Definition twoFiles : zoekt.SearchResult :=
  {| zoekt.Files := [fileWith "a.js" [lineOf 3; lineOf 9];
                     fileWith "b.js" [lineOf 1]] |}.

(** The parsed query is the query text; a query parses unless it is
    [(]. *)
Definition runtime : @Runtime string :=
  {| Parse := fun s => if String.eqb s "(" then inr "missing )" else inl s;
     sinceStartMs := 12 |}.

Definition translator (type query : string) : OpenRouterTranslator :=
  {| enabled := true;
     TranslateWithOpenRouter := fun _ => TranslateOk query (intentOf type query);
     AnswerFromSnippets := fun _ _ => "" |}.

(** The vector store with [n] indexed chunks, answering every query
    with [found]. *)
Definition store (n : Z) (found : list SemanticSearchResultV2)
  : SemanticSearchService :=
  {| countReply := CountBody (Some n);
     SemanticSearch := fun _ _ => Ok (inl found) |}.


(** A server whose completion service produces the query [(], which
    does not parse, over a vector store that finds [found]. *)
Definition badQueryServer (found : list SemanticSearchResultV2)
  : @NLQueryServer string :=
  {| searcher := Some {| Search := fun _ _ => (Some oneFile, None) |};
     openRouterTranslator := translator "search" "(";
     semanticSearch := Some (store 3 found) |}.

(** A server without completion service and without vector store,
    whose keyword engine finds three line matches in two files. *)
Definition countServer : @NLQueryServer string :=
  {| searcher := Some {| Search := fun _ _ => (Some twoFiles, None) |};
     openRouterTranslator :=
       {| enabled := false;
          TranslateWithOpenRouter := fun _ => TranslateError "disabled";
          AnswerFromSnippets := fun _ _ => "" |};
     semanticSearch := None |}.


Definition requestOf (text searchMode : string) : Request :=
  {| q := text; mode := searchMode; direct := "" |}.

End HandlerRuns.



Lemma hybrid_parse_failure_witness :
  let rt := HandlerRuns.runtime in
  let found := [FusionRuns.matchOf "c1" "a.py" F32.c0_9] in
  let r := HandlerRuns.requestOf "where is the parser" "hybrid" in
  (exists resp,
     (HandleSearch (U := AsciiText) rt (HandlerRuns.badQueryServer found) r).1
     = Responded resp
     /\ statusCode resp = StatusOK
     /\ body resp !! "success" = Some (JBool true)
     /\ body resp !! "semanticResults" = Some (JSemantic found)
     /\ body resp !! "note"
        = Some (JString "Keyword query failed, using semantic results")
     /\ body resp !! "results" = None)
  /\ (exists resp,
        (HandleSearch (U := AsciiText) rt (HandlerRuns.badQueryServer []) r).1
        = Responded resp
        /\ statusCode resp = StatusBadRequest
        /\ body resp !! "success" = Some (JBool false)
        /\ body resp !! "error"
           = Some (JString ("Query parse error: " +:+ "missing )"))).
Proof.
  intros rt found r. split.
  - destruct (hybrid_parse_failure (U := AsciiText) rt
                (HandlerRuns.badQueryServer found) r
                {| zoektQuery := "(";
                   intent := HandlerRuns.intentOf "search" "(";
                   queryType := "search";
                   translatorUsed := "openrouter";
                   isNL := true |}
                "missing )" found)
      as (_ & H & _).
    + vm_compute. discriminate.
    + left. reflexivity.
    + reflexivity.
    + reflexivity.
    + reflexivity.
    + apply H. vm_compute. discriminate.
  - destruct (hybrid_parse_failure (U := AsciiText) rt
                (HandlerRuns.badQueryServer []) r
                {| zoektQuery := "(";
                   intent := HandlerRuns.intentOf "search" "(";
                   queryType := "search";
                   translatorUsed := "openrouter";
                   isNL := true |}
                "missing )" [])
      as (_ & _ & H).
    + vm_compute. discriminate.
    + left. reflexivity.
    + reflexivity.
    + reflexivity.
    + reflexivity.
    + apply H. reflexivity.
Defined.



(** ** Byte strings *)

Module GoStringsFacts.

Local Open Scope nat_scope.

Implicit Types (s t u p sub sep : string) (c : Ascii.ascii).

Lemma app_nil_l s : "" +:+ s = s.
Proof. reflexivity. Qed.

Lemma app_cons c s t : String c s +:+ t = String c (s +:+ t).
Proof. reflexivity. Qed.

Lemma app_nil_r s : s +:+ "" = s.
Proof. induction s as [|c s IH]; [done|]. by rewrite app_cons, IH. Qed.

Lemma app_assoc s t u : (s +:+ t) +:+ u = s +:+ (t +:+ u).
Proof. induction s as [|c s IH]; [done|]. by rewrite !app_cons, IH. Qed.



(** *** Slices *)


Lemma sliceFrom_app s t : sliceFrom (len s) (s +:+ t) = t.
Proof. induction s as [|c s IH]; [by destruct t|]. by rewrite app_cons. Qed.

Lemma sliceTo_app s t : sliceTo (len s) (s +:+ t) = s.
Proof.
  induction s as [|c s IH]; [by destruct t|].
  rewrite app_cons. simpl. by rewrite IH.
Qed.




(** *** Prefixes *)

Lemma HasPrefix_spec s p : HasPrefix s p = true <-> exists u, s = p +:+ u.
Proof.
  revert s. induction p as [|a p IH]; intros s.
  - destruct s; simpl; (split; [eauto|done]).
  - destruct s as [|b s]; simpl.
    + split; [done|]. by intros [u Hu].
    + rewrite andb_true_iff, Ascii.eqb_eq, IH. split.
      * intros [-> [u ->]]. by exists u.
      * intros [u Hu]. rewrite app_cons in Hu. injection Hu as -> ->. eauto.
Qed.

Lemma HasPrefix_app s t p :
  HasPrefix s p = true -> HasPrefix (s +:+ t) p = true.
Proof.
  rewrite !HasPrefix_spec. intros [u ->]. exists (u +:+ t).
  apply app_assoc.
Qed.



(** *** Suffixes *)





(** *** Index and Contains *)

Lemma Index_cons c s sub :
  Index (String c s) sub
  = if HasPrefix (String c s) sub then Some 0 else S <$> Index s sub.
Proof. reflexivity. Qed.

Lemma Index_None_cons c s sub :
  Index (String c s) sub = None
  <-> HasPrefix (String c s) sub = false /\ Index s sub = None.
Proof.
  rewrite Index_cons.
  destruct (HasPrefix (String c s) sub); [split; [done|by intros [? _]]|].
  destruct (Index s sub); simpl; split; try done; by intros [_ ?].
Qed.

Lemma Index_nil sub : Index "" sub = None <-> sub <> "".
Proof. destruct sub; simpl; split; done. Qed.






End GoStringsFacts.

(** ** The closing-quote fix of [validateAndFixQuery] *)

Section CloseQuotesFacts.

Context {U : Unicode}.

Import GoStringsFacts.

Local Open Scope nat_scope.

Implicit Types (s q x : string).

















(** Without an opening [contentq] or [fileq] there is nothing to
    close. *)
Lemma closeQuotes_no_opener q :
  Contains q contentq = false -> Contains q fileq = false ->
  closeQuotes q = q.
Proof.
  intros H1 H2. unfold closeQuotes, closeContentQuote. rewrite H1.
  unfold closeFileQuote. by rewrite H2.
Qed.

End CloseQuotesFacts.




(** ** The repair of the [file:] segments *)

Section RepairFacts.

Import GoStringsFacts.

Local Open Scope nat_scope.

Implicit Types (s t u p seg rest sep : string) (c a : Ascii.ascii).
Implicit Types (parts ps : list string).


(** *** Split and Join *)

Lemma SplitFrom_cons_0 sep c s :
  SplitFrom sep 0 (String c s)
  = if HasPrefix (String c s) sep
    then "" :: SplitFrom sep (len sep - 1) s
    else match SplitFrom sep 0 s with
         | p :: ps => String c p :: ps
         | [] => [String c ""]
         end.
Proof. reflexivity. Qed.

(** The first piece is a prefix of the string. *)
Lemma SplitFrom_head sep s :
  exists h ps u, SplitFrom sep 0 s = h :: ps /\ s = h +:+ u.
Proof.
  induction s as [|c s (h & ps & u & E & Hs)].
  - by exists "", [], "".
  - rewrite SplitFrom_cons_0.
    destruct (HasPrefix (String c s) sep).
    + by exists "", (SplitFrom sep (len sep - 1) s), (String c s).
    + rewrite E. exists (String c h), ps, u. by rewrite Hs at 1.
Qed.

(** No piece holds an instance of the separator. *)
Lemma SplitFrom_pieces sep k s :
  sep <> "" -> Forall (fun p => Index p sep = None) (SplitFrom sep k s).
Proof.
  intros Hsep. revert k. induction s as [|c s IH]; intros k.
  - constructor; [by apply Index_nil|constructor].
  - destruct k as [|k]; [|apply IH].
    rewrite SplitFrom_cons_0.
    destruct (HasPrefix (String c s) sep) eqn:HP.
    + constructor; [by apply Index_nil|apply IH].
    + destruct (SplitFrom_head sep s) as (h & ps & u & E & Hs).
      specialize (IH 0). rewrite E in *.
      apply Forall_cons in IH as [Hh Hps].
      constructor; [|done].
      apply Index_None_cons. split; [|done].
      apply not_true_is_false. intros H.
      apply (HasPrefix_app _ u) in H. rewrite app_cons, <- Hs in H.
      congruence.
Qed.






(** *** One segment *)




Definition endIdxStep (part : string) (endIdx : nat) (sep : string) : nat :=
  match Index part sep with
  | Some idx => if idx <? endIdx then idx else endIdx
  | None => endIdx
  end.


Lemma endIdxStep_le part e sep : endIdxStep part e sep <= e.
Proof.
  unfold endIdxStep. destruct (Index part sep) as [idx|]; [|lia].
  destruct (Nat.ltb_spec idx e); lia.
Qed.









(** *** The loop over the pieces *)



(** *** The repair *)



Lemma repairFileQuotes_no_opener z :
  Contains z fileq = false -> repairFileQuotes z = z.
Proof. intros H. unfold repairFileQuotes. by rewrite H. Qed.

End RepairFacts.

(** ** Queries that need no closing quote *)

Section NoOpFacts.

Context {U : Unicode}.

Import GoStringsFacts.

Local Open Scope nat_scope.

Implicit Types (s q x p sep : string).



Lemma SplitFrom_not_nil sep k s : SplitFrom sep k s <> [].
Proof.
  revert k. induction s as [|c s IH]; intros k; [done|].
  destruct k as [|k]; [|apply IH].
  rewrite SplitFrom_cons_0. destruct (HasPrefix _ sep); [done|].
  by destruct (SplitFrom sep 0 s).
Qed.







End NoOpFacts.




(** The scenario of the fenced answer: the closing quote is appended
    after [blogs.js], here with the pattern [.*blogs.js] that the segment
    repair looks for. *)
Example repair_blogs_js :
  repairFileQuotes ("file:" +:+ dq +:+ ".*blogs.js")
  = "file:" +:+ dq +:+ ".*blogs.js" +:+ dq
  /\ closeQuotes (U := AsciiText) ("file:" +:+ dq +:+ "blogs.js")
     = "file:" +:+ dq +:+ "blogs.js" +:+ dq.
Proof. split; vm_compute; reflexivity. Qed.

(** ** Loops *)

Section LoopFacts.

Context {A S : Type}.

(** A range loop with a break keeps an invariant that its body keeps,
    and does not panic when its body does not. *)
Lemma forEach_invariant (I : S -> Prop) (l : list A) (brk : S -> bool)
    (body : A -> S -> Result S) (st : S) :
  (forall x st, x ∈ l -> I st -> brk st = false ->
                exists st', body x st = Ok st' /\ I st') ->
  I st ->
  exists st', forEach l brk body st = Ok st' /\ I st'.
Proof.
  revert st. induction l as [|x l IH]; intros st Hbody Hst; simpl.
  - eauto.
  - destruct (brk st) eqn:Hb; [eauto|].
    destruct (Hbody x st) as (st1 & -> & H1); [by left|done|done|].
    simpl. apply IH; [|done].
    intros y st2 Hy. apply Hbody. by right.
Qed.

(** A counting loop keeps an invariant indexed by its counter. *)
Lemma forUpTo_invariant (I : Z -> S -> Prop) (n : nat) (i : Z)
    (cond : S -> bool) (body : Z -> S -> Result S) (st : S) :
  (forall j st, i <= j < i + Z.of_nat n -> I j st -> cond st = true ->
                exists st', body j st = Ok st' /\ I (j + 1) st') ->
  I i st ->
  exists st' k, forUpTo n i cond body st = Ok st'
                /\ i <= k <= i + Z.of_nat n /\ I k st'.
Proof.
  revert i st. induction n as [|n IH]; intros i st Hbody Hst; simpl.
  - exists st, i. split; [done|]. split; [lia|done].
  - destruct (cond st) eqn:Hc.
    + destruct (Hbody i st) as (st1 & -> & H1); [lia|done|done|].
      simpl. destruct (IH (i + 1) st1) as (st' & k & E & Hk & HI); [|done|].
      * intros j st2 Hj. apply Hbody. lia.
      * exists st', k. split; [done|]. split; [lia|done].
    + exists st, i. split; [done|]. split; [lia|done].
Qed.

Lemma forRange_invariant (I : Z -> S -> Prop) (lo hi : Z)
    (cond : S -> bool) (body : Z -> S -> Result S) (st : S) :
  (forall j st, lo <= j < hi -> I j st -> cond st = true ->
                exists st', body j st = Ok st' /\ I (j + 1) st') ->
  I lo st ->
  exists st' k, forRange lo hi cond body st = Ok st'
                /\ lo <= k <= Z.max lo hi /\ I k st'.
Proof.
  intros Hbody Hst. unfold forRange.
  destruct (forUpTo_invariant I (Z.to_nat (hi - lo)) lo cond body st)
    as (st' & k & E & Hk & HI); [|done|].
  - intros j st1 Hj. apply Hbody. lia.
  - exists st', k. split; [done|]. split; [lia|done].
Qed.

Lemma index_in_range {B} (l : list B) (i : Z) :
  0 <= i < Z.of_nat (length l) -> exists b, index l i = Ok b.
Proof.
  intros Hi. unfold index.
  destruct (Z.ltb_spec i 0); [lia|].
  destruct (lookup_lt_is_Some_2 l (Z.to_nat i)) as [b ->]; [lia|eauto].
Qed.

End LoopFacts.

(** ** Snippet extraction with a line budget *)

Section ExtractFacts.

Context {U : Unicode}.

Import KeywordServer.

(** What the builder of a file holds: the two header writes, then a
    line and a line feed for every line added. *)
Definition header (file : zoekt.FileMatch) : list string :=
  ["File: " +:+ zoekt.FileName file +:+ nl;
   "Repository: " +:+ zoekt.Repository file +:+ nl +:+ nl].

Definition written (lines : list string) : list string :=
  flat_map (fun line => [line; nl]) lines.

(** The counters count the lines added, from the total [T0] the file
    started with. *)
Definition counted (T0 : Z) (file : zoekt.FileMatch) (fs : FileState)
  : Prop :=
  exists lines,
    snippet fs = header file ++ written lines
    /\ fileLines fs = Z.of_nat (length lines)
    /\ totalLines fs = T0 + fileLines fs.

Definition inBudget (L T0 : Z) (file : zoekt.FileMatch) (fs : FileState)
  : Prop :=
  counted T0 file fs
  /\ fileLines fs <= L /\ totalLines fs <= targetLinesTotal.

Lemma writeLine_counted T0 file fs line :
  counted T0 file fs -> counted T0 file (writeLine line fs).
Proof.
  intros (lines & H1 & H2 & H3). exists (lines ++ [line]).
  unfold writeLine, written in *. simpl.
  rewrite flat_map_app, H1, H2, H3, length_app, <- app_assoc. simpl.
  split; [done|]. lia.
Qed.

Lemma writeLine_inBudget L T0 file fs line :
  inBudget L T0 file fs -> withinBudget L fs = true ->
  inBudget L T0 file (writeLine line fs).
Proof.
  intros (H1 & H2 & H3) Hw. unfold withinBudget in Hw.
  apply andb_true_iff in Hw as [Hf Ht].
  apply Z.ltb_lt in Hf, Ht.
  split; [by apply writeLine_counted|]. simpl. lia.
Qed.

Lemma aroundMatch_inBudget L T0 file allLines match_ fs :
  inBudget L T0 file fs ->
  exists fs', aroundMatch L allLines match_ fs = Ok fs'
              /\ inBudget L T0 file fs'.
Proof.
  intros Hfs. unfold aroundMatch.
  set (n := Z.of_nat (length allLines)).
  set (lineNum := zoekt.LineNumber match_).
  set (startLine := if wrap64 (lineNum - 10) <? 0 then 0
                    else wrap64 (lineNum - 10)).
  set (endLine := if n <? wrap64 (lineNum + 10) then n
                  else wrap64 (lineNum + 10)).
  assert (Hs : 0 <= startLine)
    by (subst startLine; destruct (Z.ltb_spec (wrap64 (lineNum - 10)) 0); lia).
  assert (He : endLine <= n)
    by (subst endLine; destruct (Z.ltb_spec n (wrap64 (lineNum + 10))); lia).
  destruct (forRange_invariant (fun _ fs => inBudget L T0 file fs)
              startLine endLine (withinBudget L)
              (fun i st =>
                 l ← index allLines i;
                 let line := TrimRight l crlf in
                 Ok (if negb (String.eqb line "")
                        || (i =? wrap64 (lineNum - 1))
                     then writeLine line st else st)) fs)
    as (fs' & k & E & _ & HI); [|done|eauto].
  intros j st Hj Hst Hc.
  destruct (index_in_range allLines j) as [l ->]; [lia|]. simpl.
  eexists. split; [reflexivity|].
  destruct (_ || _); [by apply writeLine_inBudget|done].
Qed.

Lemma leadingLines_inBudget L T0 file allLines fs :
  0 <= L ->
  counted T0 file fs -> fileLines fs = 0 ->
  totalLines fs <= targetLinesTotal ->
  exists fs', leadingLines L allLines fs = Ok fs'
              /\ inBudget L T0 file fs'.
Proof.
  intros HL Hc H0 Ht. unfold leadingLines.
  set (n := Z.of_nat (length allLines)).
  set (extractCount := if n <? L then n else L).
  assert (He : extractCount <= n /\ extractCount <= L /\ 0 <= extractCount)
    by (subst extractCount; destruct (Z.ltb_spec n L); lia).
  destruct (forRange_invariant
              (fun j fs => counted T0 file fs /\ fileLines fs = j
                           /\ totalLines fs <= targetLinesTotal)
              0 extractCount (fun st => totalLines st <? targetLinesTotal)
              (fun i st =>
                 l ← index allLines i;
                 let line := TrimRight l crlf in
                 Ok (writeLine line st)) fs)
    as (fs' & k & E & Hk & H1 & H2 & H3); [|done|].
  - intros j st Hj (Hst & Hf & Htot) Hcond.
    apply Z.ltb_lt in Hcond.
    destruct (index_in_range allLines j) as [l ->]; [lia|]. simpl.
    eexists. split; [reflexivity|].
    split; [by apply writeLine_counted|]. simpl. lia.
  - exists fs'. split; [done|]. split; [done|]. lia.
Qed.

Lemma contextLines_inBudget L T0 file blob fs :
  inBudget L T0 file fs ->
  exists fs', contextLines L blob fs = Ok fs' /\ inBudget L T0 file fs'.
Proof.
  intros Hfs. unfold contextLines.
  destruct (forRange_invariant (fun _ fs => inBudget L T0 file fs)
              0 (Z.of_nat (length (Split blob nl))) (withinBudget L)
              (fun j st =>
                 l ← index (Split blob nl) j;
                 let line := TrimSpace l in
                 Ok (if negb (String.eqb line "")
                     then writeLine line st else st)) fs)
    as (fs' & k & E & _ & HI); [|done|eauto].
  intros j st Hj Hst Hc.
  destruct (index_in_range (Split blob nl) j) as [l ->]; [lia|]. simpl.
  eexists. split; [reflexivity|].
  destruct (negb _); [by apply writeLine_inBudget|done].
Qed.

Lemma fromMatch_inBudget L T0 file match_ fs :
  inBudget L T0 file fs ->
  exists fs', fromMatch L match_ fs = Ok fs' /\ inBudget L T0 file fs'.
Proof.
  intros Hfs. unfold fromMatch.
  assert (H1 : exists fs1,
             (if (0 <? len (zoekt.Before match_))%nat
              then contextLines L (zoekt.Before match_) fs else Ok fs)
             = Ok fs1 /\ inBudget L T0 file fs1).
  { destruct (0 <? _)%nat; [by apply contextLines_inBudget|eauto]. }
  destruct H1 as (fs1 & -> & Hfs1). simpl.
  set (fs2 := if withinBudget L fs1 then _ else fs1).
  assert (Hfs2 : inBudget L T0 file fs2).
  { subst fs2. destruct (withinBudget L fs1) eqn:Hw; [|done].
    destruct (negb _); [by apply writeLine_inBudget|done]. }
  destruct (_ && _); [by apply contextLines_inBudget|eauto].
Qed.

Lemma extractFile_inBudget L T0 file :
  0 <= L -> T0 <= targetLinesTotal ->
  exists fs, extractFile L file T0 = Ok fs /\ inBudget L T0 file fs.
Proof.
  intros HL HT. unfold extractFile.
  set (fs0 := {| snippet := _; fileLines := 0; totalLines := T0 |}).
  assert (Hc : counted T0 file fs0).
  { exists []. subst fs0. simpl. split; [done|]. split; [done|lia]. }
  assert (Hb : inBudget L T0 file fs0) by (split; [done|simpl; lia]).
  destruct (0 <? len (zoekt.Content file))%nat.
  - destruct (0 <? length (zoekt.LineMatches file))%nat.
    + apply (forEach_invariant (inBudget L T0 file)); [|done].
      intros m st _ Hst _. by apply aroundMatch_inBudget.
    + by apply leadingLines_inBudget.
  - destruct (0 <? length (zoekt.LineMatches file))%nat; [|eauto].
    apply (forEach_invariant (inBudget L T0 file)); [|done].
    intros m st _ Hst _. by apply fromMatch_inBudget.
Qed.

Lemma linesPerFileOf_value (maxFiles : Z) :
  maxFiles <> 0 ->
  linesPerFileOf maxFiles = Ok (Z.max 15 (Z.quot targetLinesTotal maxFiles)).
Proof.
  intros H. unfold linesPerFileOf.
  destruct (Z.eqb_spec maxFiles 0); [done|].
  f_equal. destruct (Z.ltb_spec (targetLinesTotal ÷ maxFiles) 15); lia.
Qed.

(** The lines added over all the snippets. *)
Definition linesAdded (fss : list FileState) : Z :=
  foldr Z.add 0 (map fileLines fss).

Lemma linesAdded_app fss fs :
  linesAdded (fss ++ [fs]) = linesAdded fss + fileLines fs.
Proof.
  unfold linesAdded. induction fss as [|x fss IH]; simpl; lia.
Qed.

Lemma header_not_empty file lines :
  (0 <? len (String_ (header file ++ written lines)))%nat = true.
Proof. reflexivity. Qed.

(** The extraction with the line budget keeps its budgets and does not
    panic, for a file count other than zero. *)
Lemma extraction_within_budget (result : zoekt.SearchResult)
    (maxFiles : Z) :
  maxFiles <> 0 ->
  let linesPerFile := Z.max 15 (Z.quot 100 maxFiles) in
  exists st,
    extractLoop result maxFiles = Ok st
    /\ extractAnswerSnippets result maxFiles
       = Ok (map (fun fs => String_ (snippet fs)) (files st))
    /\ Forall (fun fs =>
                 exists file lines,
                   file ∈ zoekt.Files result
                   /\ snippet fs = header file ++ written lines
                   /\ fileLines fs = Z.of_nat (length lines)
                   /\ fileLines fs <= linesPerFile)
              (files st)
    /\ total st = linesAdded (files st)
    /\ total st <= 100
    /\ Z.of_nat (length (files st)) <= Z.max 0 maxFiles.
Proof.
  intros Hm L.
  set (I := fun st : State =>
    Forall (fun fs =>
              exists file lines,
                file ∈ zoekt.Files result
                /\ snippet fs = header file ++ written lines
                /\ fileLines fs = Z.of_nat (length lines)
                /\ fileLines fs <= L) (files st)
    /\ total st = linesAdded (files st)
    /\ total st <= 100
    /\ count st = Z.of_nat (length (files st))
    /\ count st <= Z.max 0 maxFiles).
  assert (H : exists st, extractLoop result maxFiles = Ok st /\ I st).
  { unfold extractLoop.
    replace (linesPerFileOf maxFiles) with (Ok (A := Z) L)
      by (symmetry; by apply linesPerFileOf_value).
    change (exists st,
              forEach (zoekt.Files result)
                (fun st => (maxFiles <=? count st)
                           || (targetLinesTotal <=? total st))
                (fun file st =>
                   fs ← extractFile L file (total st);
                   Ok (if (0 <? len (String_ (snippet fs)))%nat
                       then {| files := files st ++ [fs];
                               count := count st + 1;
                               total := totalLines fs |}
                       else {| files := files st;
                               count := count st;
                               total := totalLines fs |}))
                {| files := []; count := 0; total := 0 |} = Ok st /\ I st).
    apply (forEach_invariant I).
    - intros file st Hfile (H1 & H2 & H3 & H4 & H5) Hb.
      apply orb_false_iff in Hb as [Hb1 Hb2].
      apply Z.leb_gt in Hb1, Hb2.
      destruct (extractFile_inBudget L (total st) file)
        as (fs & -> & (lines & E1 & E2 & E3) & E4 & E5);
        [subst L; lia|unfold targetLinesTotal in *; lia|].
      assert (Hne : (0 <? len (String_ (snippet fs)))%nat = true)
        by (rewrite E1; apply header_not_empty).
      exists {| files := files st ++ [fs];
                count := count st + 1;
                total := totalLines fs |}.
      split; [unfold mbind, Result_bind; by rewrite Hne|].
      split; [|split; [|split; [|split]]]; simpl.
      + apply Forall_app. split; [done|].
        constructor; [|constructor]. by exists file, lines.
      + rewrite linesAdded_app. lia.
      + unfold targetLinesTotal in *. lia.
      + rewrite length_app. simpl. lia.
      + lia.
    - split; [constructor|]. simpl. unfold linesAdded. simpl. lia. }
  destruct H as (st & E & H1 & H2 & H3 & H4 & H5).
  exists st. split; [done|].
  split; [unfold extractAnswerSnippets; by rewrite E|].
  split; [done|]. split; [done|]. split; [done|]. lia.
Qed.

End ExtractFacts.

(** *** Concrete extractions *)

Module ExtractRuns.

Definition lineAt (n : Z) : zoekt.LineMatch :=
  {| zoekt.Line := "func main() {"; zoekt.LineNumber := n;
     zoekt.Before := ""; zoekt.After := "" |}.

(** A file of four lines with a match on line 2 and a match reported
    on line 1000, beyond its end. *)
Definition smallFile : zoekt.FileMatch :=
  {| zoekt.FileName := "main.go"; zoekt.Repository := "repo";
     zoekt.LineMatches := [lineAt 2; lineAt 1000];
     zoekt.Content := "package main" +:+ nl +:+ "func main() {" +:+ nl
                      +:+ nl +:+ "}" |}.

Definition result : zoekt.SearchResult :=
  {| zoekt.Files := [smallFile; smallFile] |}.

(** A match with a context blob of 120 lines. *)
Definition longBlob : string :=
  foldr (fun line blob => line +:+ nl +:+ blob) "end" (replicate 119 "x").

Definition blobFile : zoekt.FileMatch :=
  {| zoekt.FileName := "big.go"; zoekt.Repository := "repo";
     zoekt.LineMatches :=
       [{| zoekt.Line := "y"; zoekt.LineNumber := 1;
           zoekt.Before := longBlob; zoekt.After := "" |}];
     zoekt.Content := "" |}.

End ExtractRuns.

Lemma extraction_within_budget_run :
  (3 : Z) <> 0
  /\ exists st,
       KeywordServer.extractLoop (U := AsciiText) ExtractRuns.result 3 = Ok st
       /\ Forall (fun fs => KeywordServer.fileLines fs <= 33)
                 (KeywordServer.files st)
       /\ KeywordServer.total st <= 100.
Proof.
  split; [discriminate|].
  destruct (extraction_within_budget (U := AsciiText) ExtractRuns.result 3)
    as (st & E & _ & HF & _ & Ht & _); [discriminate|].
  exists st. split; [exact E|]. split; [|exact Ht].
  eapply Forall_impl; [exact HF|].
  intros fs (file & lines & _ & _ & _ & Hle). exact Hle.
Defined.

(** The run on the two small files: three lines of each (the empty line
    is left out), no line of the match beyond the end. *)
Example extraction_small_files :
  KeywordServer.extractLoop (U := AsciiText) ExtractRuns.result 3
  = Ok {| KeywordServer.files :=
            [{| KeywordServer.snippet :=
                  header ExtractRuns.smallFile
                  ++ written ["package main"; "func main() {"; "}"];
                KeywordServer.fileLines := 3;
                KeywordServer.totalLines := 3 |};
             {| KeywordServer.snippet :=
                  header ExtractRuns.smallFile
                  ++ written ["package main"; "func main() {"; "}"];
                KeywordServer.fileLines := 3;
                KeywordServer.totalLines := 6 |}];
          KeywordServer.count := 2;
          KeywordServer.total := 6 |}.
Proof. vm_compute. reflexivity. Qed.

(** A file count of zero stops the extraction with the division panic. *)
Example extraction_zero_files :
  KeywordServer.extractAnswerSnippets (U := AsciiText) ExtractRuns.result 0
  = Panic "integer divide by zero".
Proof. reflexivity. Qed.

(** The budgeted extraction takes 33 of the 120 context lines. *)
Example extraction_long_blob :
  (fun r => match r with
            | Ok st => map KeywordServer.fileLines (KeywordServer.files st)
            | Panic _ => []
            end)
    (KeywordServer.extractLoop (U := AsciiText)
       {| zoekt.Files := [ExtractRuns.blobFile] |} 3)
  = [33].
Proof. vm_compute. reflexivity. Qed.

(** *** The extraction of the hybrid server *)

(** A range loop that counts its rounds and breaks at [n] runs on the
    first [n] elements. *)
Lemma forEach_counted {A B} (f : B -> A -> B) (l : list A) (n i : Z) (acc : B) :
  exists k,
    forEach l (fun st : Z * B => n <=? st.1)
      (fun x st => Ok (st.1 + 1, f st.2 x)) (i, acc)
    = Ok (k, foldl f acc (take (Z.to_nat (n - i)) l)).
Proof.
  revert i acc. induction l as [|x l IH]; intros i acc; simpl.
  - exists i. by rewrite take_nil.
  - destruct (Z.leb_spec n i) as [Hle|Hlt]; simpl.
    + exists i. by replace (Z.to_nat (n - i)) with 0%nat by lia.
    + destruct (IH (i + 1) (f acc x)) as [k ->]. exists k.
      replace (Z.to_nat (n - i)) with (S (Z.to_nat (n - (i + 1)))) by lia.
      reflexivity.
Qed.

Lemma snippetOf_first_five (file : zoekt.FileMatch) :
  snippetOf file
  = foldl writeMatch ("File: " +:+ zoekt.FileName file +:+ nl)
      (take 5 (zoekt.LineMatches file)).
Proof.
  unfold snippetOf.
  destruct (forEach_counted writeMatch (zoekt.LineMatches file) 5 0
              ("File: " +:+ zoekt.FileName file +:+ nl)) as [k ->].
  reflexivity.
Qed.

Lemma hybrid_extraction_first_files (result : zoekt.SearchResult)
    (maxFiles : Z) :
  extractAnswerSnippets result maxFiles
  = map snippetOf (take (Z.to_nat maxFiles) (zoekt.Files result)).
Proof.
  unfold extractAnswerSnippets.
  destruct (forEach_counted (fun acc file => acc ++ [snippetOf file])
              (zoekt.Files result) maxFiles 0 []) as [k ->].
  simpl. rewrite Z.sub_0_r. apply (enhance_loop_map snippetOf _ []).
Qed.

(** A keyword result without context blobs: what the keyword engine
    returns for a search that asks for no context lines. The one search
    of [HandleSearch] of the hybrid server, whose result the extraction
    is called on, sets [MaxDocDisplayCount] only. *)
Definition contextFree (result : zoekt.SearchResult) : Prop :=
  Forall (fun file =>
            Forall (fun match_ =>
                      zoekt.Before match_ = "" /\ zoekt.After match_ = "")
              (zoekt.LineMatches file))
    (zoekt.Files result).

(** The lines that the extraction of the hybrid server takes from a
    file: those of its first five line matches. *)
Definition firstLines (file : zoekt.FileMatch) : list string :=
  map zoekt.Line (take 5 (zoekt.LineMatches file)).

Lemma writeMatches_lines (matches : list zoekt.LineMatch) (start : string) :
  Forall (fun match_ => zoekt.Before match_ = "" /\ zoekt.After match_ = "")
    matches ->
  foldl writeMatch start matches
  = start +:+ KeywordServer.String_ (written (map zoekt.Line matches)).
Proof.
  revert start. induction matches as [|m ms IH]; intros start H.
  - simpl. by rewrite GoStringsFacts.app_nil_r.
  - apply Forall_cons in H as [[Hb Ha] Hms]. cbn [foldl].
    rewrite IH by done. unfold writeMatch. rewrite Hb, Ha.
    cbn [len String.length Nat.ltb Nat.leb map written flat_map
         KeywordServer.String_ foldr app].
    by rewrite !GoStringsFacts.app_assoc.
Qed.

Lemma sum_firstLines (files : list zoekt.FileMatch) :
  (sum_list (map (fun file => length (firstLines file)) files)
   <= 5 * length files)%nat.
Proof.
  induction files as [|file files IH]; simpl; [lia|].
  unfold firstLines at 1. rewrite length_map, length_take. lia.
Qed.

(** The extraction of the hybrid server on a result without context
    blobs: a snippet for each of the first [maxFiles] files, the name of
    the file followed by the lines of its first five line matches. *)
Lemma hybrid_extraction_lines (result : zoekt.SearchResult) (maxFiles : Z) :
  contextFree result ->
  extractAnswerSnippets result maxFiles
  = map (fun file =>
           KeywordServer.String_
             (("File: " +:+ zoekt.FileName file +:+ nl)
              :: written (firstLines file)))
      (take (Z.to_nat maxFiles) (zoekt.Files result)).
Proof.
  intros H. rewrite hybrid_extraction_first_files.
  apply Forall_fmap_ext_1.
  eapply Forall_impl; [apply (Forall_take _ _ _ H)|].
  intros file Hfile. rewrite snippetOf_first_five.
  apply writeMatches_lines. by apply Forall_take.
Qed.

(** The bound rests on the search of the caller: on a result with
    context blobs, which a search with context lines returns, the
    extraction of the hybrid server writes the blobs whole. *)
Example hybrid_extraction_context_blob :
  exists snippet,
    extractAnswerSnippets {| zoekt.Files := [ExtractRuns.blobFile] |} 3
    = [snippet]
    /\ (100 < Count snippet nl)%nat.
Proof. eexists. split; [reflexivity|]. vm_compute. lia. Qed.

(** C9. Given a file count other than zero (the call sites pass 3 and
    10), the extraction with the line budget (the keyword server) ends
    without a run-time panic: no index expression leaves its slice, on
    the lines of the file content or of the context blobs. With the
    per-file budget max(15, 100 / maxFiles), every snippet is the header
    of one of the files followed by the lines added, at most the per-file
    budget of them; the lines added over all the snippets are at most
    100; the number of snippets is at most the file count. The
    extraction of the hybrid server has no index expression; on the
    result of the search of its caller, which asks for no context lines,
    every snippet is the name of one of the first [maxFiles] files
    followed by the lines of its first five line matches: at most five
    lines, which is within the per-file budget, and within the 100 lines
    over all the snippets for a file count up to 20. *)
Theorem snippet_extraction_bounds {U : Unicode} (result : zoekt.SearchResult)
    (maxFiles : Z) :
  maxFiles <> 0 ->
  let linesPerFile := Z.max 15 (Z.quot 100 maxFiles) in
  (exists st,
     KeywordServer.extractLoop result maxFiles = Ok st
     /\ KeywordServer.extractAnswerSnippets result maxFiles
        = Ok (map (fun fs => KeywordServer.String_ (KeywordServer.snippet fs))
                (KeywordServer.files st))
     /\ Forall (fun fs =>
                  exists file lines,
                    file ∈ zoekt.Files result
                    /\ KeywordServer.snippet fs = header file ++ written lines
                    /\ KeywordServer.fileLines fs = Z.of_nat (length lines)
                    /\ KeywordServer.fileLines fs <= linesPerFile)
               (KeywordServer.files st)
     /\ KeywordServer.total st = linesAdded (KeywordServer.files st)
     /\ KeywordServer.total st <= 100
     /\ Z.of_nat (length (KeywordServer.files st)) <= Z.max 0 maxFiles)
  /\ (contextFree result ->
      let served := take (Z.to_nat maxFiles) (zoekt.Files result) in
      let added :=
        Z.of_nat (sum_list (map (fun file => length (firstLines file))
                              served)) in
      extractAnswerSnippets result maxFiles
      = map (fun file =>
               KeywordServer.String_
                 (("File: " +:+ zoekt.FileName file +:+ nl)
                  :: written (firstLines file)))
          served
      /\ Forall (fun file =>
                   Z.of_nat (length (firstLines file)) <= 5
                   /\ 5 <= linesPerFile)
           served
      /\ Z.of_nat (length served) <= Z.max 0 maxFiles
      /\ added <= 5 * Z.max 0 maxFiles
      /\ (maxFiles <= 20 -> added <= 100)).
Proof.
  intros Hm L. split; [by apply extraction_within_budget|].
  intros Hfree served added.
  assert (Hserved : Z.of_nat (length served) <= Z.max 0 maxFiles)
    by (subst served; rewrite length_take; lia).
  assert (Hadded : added <= 5 * Z.max 0 maxFiles).
  { subst added. pose proof (sum_firstLines served). lia. }
  split; [by apply hybrid_extraction_lines|].
  split; [|split; [done|split; [done|lia]]].
  apply Forall_forall. intros file _. unfold firstLines.
  rewrite length_map, length_take. subst L. lia.
Qed.

Lemma snippet_extraction_bounds_witness :
  (3 : Z) <> 0
  /\ (exists st,
        KeywordServer.extractLoop (U := AsciiText) ExtractRuns.result 3 = Ok st
        /\ Forall (fun fs => KeywordServer.fileLines fs <= 33)
                  (KeywordServer.files st)
        /\ KeywordServer.total st <= 100)
  /\ contextFree ExtractRuns.result
  /\ extractAnswerSnippets ExtractRuns.result 3
     = ["File: main.go" +:+ nl +:+ "func main() {" +:+ nl
        +:+ "func main() {" +:+ nl;
        "File: main.go" +:+ nl +:+ "func main() {" +:+ nl
        +:+ "func main() {" +:+ nl].
Proof.
  split; [discriminate|].
  assert (Hfree : contextFree ExtractRuns.result) by (repeat constructor).
  destruct (snippet_extraction_bounds (U := AsciiText) ExtractRuns.result 3)
    as ((st & E & _ & HF & _ & Ht & _) & H2); [discriminate|].
  split; [|split; [exact Hfree|]].
  - exists st. split; [exact E|]. split; [|exact Ht].
    eapply Forall_impl; [exact HF|].
    intros fs (file & lines & _ & _ & _ & Hle). exact Hle.
  - destruct (H2 Hfree) as (-> & _). reflexivity.
Defined.

(** ** Cutsets *)

Module TrimFacts.

Import GoStringsFacts.

Local Open Scope nat_scope.

Implicit Types (s t cs : string) (c : Ascii.ascii).

Lemma TrimLeft_first s cs c t :
  TrimLeft s cs = String c t -> inCutset c cs = false.
Proof.
  induction s as [|a s IH]; simpl; [done|].
  destruct (inCutset a cs) eqn:E; [done|]. by intros [= -> _].
Qed.

(** What [TrimLeft] returns is the end of its argument. *)
Lemma TrimLeft_suffix s cs : exists u, s = u +:+ TrimLeft s cs.
Proof.
  induction s as [|a s [u IH]]; simpl; [by exists ""|].
  destruct (inCutset a cs).
  - exists (String a u). by rewrite app_cons, <- IH.
  - by exists "".
Qed.

Lemma TrimRight_cons a s cs :
  TrimRight (String a s) cs
  = match TrimRight s cs with
    | "" => if inCutset a cs then "" else String a ""
    | t => String a t
    end.
Proof. reflexivity. Qed.

Lemma TrimRight_last s cs t c :
  TrimRight s cs = t +:+ String c "" -> inCutset c cs = false.
Proof.
  revert t. induction s as [|a s IH]; intros t.
  - by destruct t.
  - rewrite TrimRight_cons. destruct (TrimRight s cs) as [|b r] eqn:E.
    + destruct (inCutset a cs) eqn:Ea; [by destruct t|].
      destruct t as [|? [|]]; try done. by intros [= <-].
    + destruct t as [|a' t]; [by intros [= _ ?]|].
      rewrite app_cons. intros [= _ H]. by apply (IH t).
Qed.

Lemma Trim_first s cs c t :
  Trim s cs = String c t -> inCutset c cs = false.
Proof. apply TrimLeft_first. Qed.

Lemma Trim_last s cs t c :
  Trim s cs = t +:+ String c "" -> inCutset c cs = false.
Proof.
  unfold Trim. intros H.
  destruct (TrimLeft_suffix (TrimRight s cs) cs) as [u Hu].
  rewrite H, <- app_assoc in Hu. by apply TrimRight_last in Hu.
Qed.

End TrimFacts.

(** ** Key terms *)

Section KeyTermsFacts.

Context {U : Unicode}.

Local Open Scope nat_scope.

(** A word that [extractKeyTerms] keeps: no stop word, three bytes or
    more. *)
Definition keyTerm (t : string) : Prop :=
  lookupBool stopWords t = false /\ 3 <= len t.

Definition keyTermsStep (st : KeyTerms) (word : string) : KeyTerms :=
  let word := Trim word punctuation in
  if lookupBool stopWords word || (len word <? 3)%nat then st
  else if lookupBool (seen st) word then st
  else {| keyTerms := keyTerms st ++ [word];
          seen := <[word := true]> (seen st) |}.

(** The invariant of the loop, [done] being the words passed. *)
Definition keyTermsInv (done : list string) (st : KeyTerms) : Prop :=
  NoDup (keyTerms st)
  /\ (forall t, lookupBool (seen st) t = true <-> t ∈ keyTerms st)
  /\ (forall t, t ∈ keyTerms st
                <-> keyTerm t /\ exists w, w ∈ done /\ t = Trim w punctuation).

Lemma keyTermsStep_inv done st word :
  keyTermsInv done st -> keyTermsInv (done ++ [word]) (keyTermsStep st word).
Proof.
  intros (Hnd & Hseen & Hin). unfold keyTermsStep.
  set (t := Trim word punctuation).
  assert (Hold : forall x,
             (exists w, w ∈ done ++ [word] /\ x = Trim w punctuation)
             <-> (exists w, w ∈ done /\ x = Trim w punctuation) \/ x = t).
  { intros x. split.
    - intros (w & Hw & ->). apply elem_of_app in Hw as [Hw|Hw]; [eauto|].
      apply list_elem_of_singleton in Hw as ->. by right.
    - intros [(w & Hw & ->)| ->].
      + exists w. split; [apply elem_of_app; eauto|done].
      + exists word. split; [|done]. apply elem_of_app. right.
        by apply list_elem_of_singleton. }
  destruct (lookupBool stopWords t || (len t <? 3)) eqn:Hskip.
  - (* a stop word or a short word *)
    split; [done|]. split; [done|]. intros x. rewrite Hin, Hold.
    split; [intros [? ?]; eauto|]. intros [Hk [H| ->]]; [done|].
    destruct Hk as [Hs Hl]. apply orb_true_iff in Hskip as [Hskip|Hskip].
    + congruence.
    + apply Nat.ltb_lt in Hskip. lia.
  - apply orb_false_iff in Hskip as [Hs Hl]. apply Nat.ltb_ge in Hl.
    destruct (lookupBool (seen st) t) eqn:Hseent.
    + (* seen before *)
      split; [done|]. split; [done|]. intros x. rewrite Hin, Hold.
      split; [intros [? ?]; eauto|]. intros [Hk [H| ->]]; [done|].
      apply Hin, Hseen, Hseent.
    + (* a new term *)
      assert (Hnew : t ∉ keyTerms st).
      { intros H. apply Hseen in H. congruence. }
      unfold keyTermsInv; simpl. split; [|split].
      * apply NoDup_app. split; [done|]. split; [|apply NoDup_singleton].
        intros x Hx Hx'. apply list_elem_of_singleton in Hx' as ->. done.
      * intros x. rewrite elem_of_app, list_elem_of_singleton, <- Hseen.
        unfold lookupBool. destruct (decide (x = t)) as [->|Hne].
        -- rewrite lookup_insert_eq. simpl. split; eauto.
        -- rewrite lookup_insert_ne by done. split; [eauto|].
           by intros [?|?].
      * intros x. rewrite elem_of_app, list_elem_of_singleton, Hin, Hold.
        split.
        -- intros [[? ?]| ->]; [eauto|]. split; [done|]. by right.
        -- intros [Hk [H| ->]]; eauto.
Qed.

Lemma keyTerms_loop words done st :
  keyTermsInv done st ->
  keyTermsInv (done ++ words) (foldl keyTermsStep st words).
Proof.
  revert done st. induction words as [|w words IH]; intros done st H; simpl.
  - by rewrite app_nil_r.
  - replace (done ++ w :: words) with ((done ++ [w]) ++ words)
      by (by rewrite <- app_assoc).
    apply IH, keyTermsStep_inv, H.
Qed.

Lemma extractKeyTerms_inv query :
  keyTermsInv (Fields (ToLower query))
    {| keyTerms := extractKeyTerms query;
       seen := seen (foldl keyTermsStep {| keyTerms := []; seen := ∅ |}
                       (Fields (ToLower query))) |}.
Proof.
  pose proof (keyTerms_loop (Fields (ToLower query)) []
                {| keyTerms := []; seen := ∅ |}) as H.
  simpl in H.
  unfold extractKeyTerms.
  change (fun st word => _) with keyTermsStep.
  destruct (foldl keyTermsStep _ _) as [kt sn] eqn:E. simpl.
  apply H. unfold keyTermsInv; simpl. split; [apply NoDup_nil_2|]. split.
  - intros t. unfold lookupBool. rewrite lookup_empty. simpl.
    split; [done|]. by intros ?%elem_of_nil.
  - intros t. split; [by intros ?%elem_of_nil|].
    intros [_ (w & ?%elem_of_nil & _)]. done.
Qed.

(** X1. The key terms of a query are pairwise distinct, and they are
    exactly the words of the lower-cased query, trimmed of the punctuation
    around them, that are no stop words and have three bytes or more. *)
Theorem key_terms_distinct_filtered (query : string) :
  NoDup (extractKeyTerms query)
  /\ forall t,
       t ∈ extractKeyTerms query
       <-> (lookupBool stopWords t = false /\ 3 <= len t)
           /\ exists w, w ∈ Fields (ToLower query)
                        /\ t = Trim w punctuation.
Proof.
  destruct (extractKeyTerms_inv query) as (Hnd & _ & Hin). split; [done|].
  exact Hin.
Qed.

(** X2. No key term begins or ends with one of the punctuation marks
    that [extractKeyTerms] trims. *)
Theorem key_terms_no_outer_punctuation (query t : string) :
  t ∈ extractKeyTerms query ->
  (forall c u, t = String c u -> inCutset c punctuation = false)
  /\ (forall u c, t = u +:+ String c "" -> inCutset c punctuation = false).
Proof.
  intros Ht. destruct (extractKeyTerms_inv query) as (_ & _ & Hin).
  apply Hin in Ht as [_ (w & _ & ->)]. split.
  - intros c u H. by apply TrimFacts.Trim_first in H.
  - intros u c H. by apply TrimFacts.Trim_last in H.
Qed.

End KeyTermsFacts.

Lemma key_terms_no_outer_punctuation_witness :
  let query := "Does the (RupeeFlo) API have rate-limits?" in
  "rupeeflo" ∈ extractKeyTerms (U := AsciiText) query
  /\ (forall c u, "rupeeflo" = String c u -> inCutset c punctuation = false)
  /\ (forall u c, "rupeeflo" = u +:+ String c ""
                  -> inCutset c punctuation = false).
Proof.
  assert (H : "rupeeflo" ∈ extractKeyTerms (U := AsciiText)
                "Does the (RupeeFlo) API have rate-limits?").
  { vm_compute. repeat constructor. }
  split; [exact H|].
  exact (key_terms_no_outer_punctuation (U := AsciiText) _ _ H).
Defined.

Example key_terms_run :
  extractKeyTerms (U := AsciiText)
    "Does the (RupeeFlo) API have rate-limits? Does rupeeflo, or not?"
  = ["rupeeflo"; "api"; "rate-limits"; "not"].
Proof. vm_compute. reflexivity. Qed.

(** ** Lines: [Split] and [Join] at a one-byte separator *)

Module LineFacts.

Import GoStringsFacts.

Local Open Scope nat_scope.

Implicit Types (s t p : string) (a c : Ascii.ascii) (ps : list string).

(** [p] holds no byte [a]. *)
Definition free a p : Prop := Index p (String a "") = None.

Lemma HasPrefix_byte a c s :
  HasPrefix (String c s) (String a "") = Ascii.eqb a c.
Proof. simpl. destruct s; by rewrite andb_true_r. Qed.

Lemma free_cons a c p : free a (String c p) <-> a <> c /\ free a p.
Proof.
  unfold free. rewrite Index_None_cons, HasPrefix_byte.
  by rewrite <- not_true_iff_false, Ascii.eqb_eq.
Qed.

Lemma free_nil a : free a "".
Proof. done. Qed.

Lemma free_app a p t : free a p -> free a t -> free a (p +:+ t).
Proof.
  induction p as [|c p IH]; [done|]. rewrite app_cons, !free_cons.
  intros [? ?] ?. eauto.
Qed.

Lemma Split_free a p : free a p -> Split p (String a "") = [p].
Proof.
  unfold Split. induction p as [|c p IH]; [done|].
  rewrite free_cons. intros [Hne Hp].
  rewrite SplitFrom_cons_0, HasPrefix_byte.
  apply Ascii.eqb_neq in Hne as ->. by rewrite IH.
Qed.

Lemma Split_app_sep a p t :
  free a p ->
  Split (p +:+ String a t) (String a "")
  = p :: Split t (String a "").
Proof.
  unfold Split. induction p as [|c p IH].
  - intros _. rewrite app_nil_l, SplitFrom_cons_0, HasPrefix_byte.
    by rewrite Ascii.eqb_refl.
  - rewrite free_cons. intros [Hne Hp].
    rewrite app_cons, SplitFrom_cons_0, HasPrefix_byte.
    apply Ascii.eqb_neq in Hne as ->. by rewrite IH.
Qed.

Lemma Join_cons2 p q ps sep :
  Join (p :: q :: ps) sep = p +:+ sep +:+ Join (q :: ps) sep.
Proof. reflexivity. Qed.

Lemma Split_Join_byte a ps :
  ps <> [] -> Forall (free a) ps ->
  Split (Join ps (String a "")) (String a "") = ps.
Proof.
  induction ps as [|p ps IH]; [done|]. intros _ H.
  apply Forall_cons in H as [Hp Hps]. destruct ps as [|q ps].
  - by apply Split_free.
  - rewrite Join_cons2. rewrite (app_cons a ""), app_nil_l.
    rewrite Split_app_sep by done. by rewrite IH.
Qed.

Lemma Split_pieces_free a s : Forall (free a) (Split s (String a "")).
Proof. by apply SplitFrom_pieces. Qed.

Lemma Split_not_nil s sep : Split s sep <> [].
Proof. apply SplitFrom_not_nil. Qed.

Lemma Join_snoc ps p sep :
  ps <> [] -> Join (ps ++ [p]) sep = Join ps sep +:+ sep +:+ p.
Proof.
  induction ps as [|q ps IH]; [done|]. intros _. destruct ps as [|r ps].
  - reflexivity.
  - change ((q :: r :: ps) ++ [p]) with (q :: (r :: ps) ++ [p]).
    change ((r :: ps) ++ [p]) with (r :: (ps ++ [p])) at 1.
    rewrite Join_cons2.
    change (r :: (ps ++ [p])) with ((r :: ps) ++ [p]).
    rewrite IH by done. rewrite Join_cons2. by rewrite !app_assoc.
Qed.

End LineFacts.

(** ** Snippets of the translator *)

Section SnippetFacts.

Context {U : Unicode}.

Import LineFacts.

Local Open Scope nat_scope.

Definition nlByte : Ascii.ascii := ascii_of_nat 10.

Definition blank (line : string) : Prop := TrimSpace line = "".

Definition blankStep (maxBlank : Z) (st : list string * Z) (line : string)
  : list string * Z :=
  let '(cleanedLines, blankCount) := st in
  if String.eqb (TrimSpace line) "" then
    let blankCount := (blankCount + 1)%Z in
    if (blankCount <=? maxBlank)%Z
    then (cleanedLines ++ [line], blankCount)
    else (cleanedLines, blankCount)
  else (cleanedLines ++ [line], 0%Z).

Lemma dropBlankRuns_fold maxBlank lines :
  dropBlankRuns maxBlank lines = fst (foldl (blankStep maxBlank) ([], 0%Z) lines).
Proof. reflexivity. Qed.

Lemma blankStep_cases maxBlank cleaned bc line :
  (blank line /\ (bc + 1 <= maxBlank)%Z
   /\ blankStep maxBlank (cleaned, bc) line = (cleaned ++ [line], (bc + 1)%Z))
  \/ (blank line /\ (maxBlank < bc + 1)%Z
      /\ blankStep maxBlank (cleaned, bc) line = (cleaned, (bc + 1)%Z))
  \/ (~ blank line
      /\ blankStep maxBlank (cleaned, bc) line = (cleaned ++ [line], 0%Z)).
Proof.
  unfold blankStep, blank. destruct (String.eqb_spec (TrimSpace line) "").
  - destruct (Z.leb_spec (bc + 1) maxBlank); [left|right; left]; done.
  - right; right. done.
Qed.

(** The loop keeps what it has, and adds lines of its input in their
    order. *)
Lemma blankLoop_sublist maxBlank lines cleaned bc :
  exists kept,
    fst (foldl (blankStep maxBlank) (cleaned, bc) lines) = cleaned ++ kept
    /\ sublist kept lines.
Proof.
  revert cleaned bc. induction lines as [|x lines IH]; intros cleaned bc.
  - exists []. by rewrite app_nil_r.
  - cbn [foldl].
    destruct (blankStep_cases maxBlank cleaned bc x)
      as [(_ & _ & ->)|[(_ & _ & ->)|(_ & ->)]].
    + destruct (IH (cleaned ++ [x]) (bc + 1)%Z) as (kept & -> & Hs).
      exists (x :: kept). rewrite <- app_assoc. split; [done|].
      by apply sublist_skip.
    + destruct (IH cleaned (bc + 1)%Z) as (kept & -> & Hs).
      exists kept. split; [done|]. by apply sublist_cons.
    + destruct (IH (cleaned ++ [x]) 0%Z) as (kept & -> & Hs).
      exists (x :: kept). rewrite <- app_assoc. split; [done|].
      by apply sublist_skip.
Qed.

Lemma dropBlankRuns_sublist maxBlank lines :
  sublist (dropBlankRuns maxBlank lines) lines.
Proof.
  rewrite dropBlankRuns_fold.
  destruct (blankLoop_sublist maxBlank lines [] 0%Z) as (kept & -> & Hs).
  done.
Qed.

(** The first line is kept. *)
Lemma dropBlankRuns_first maxBlank x lines :
  (1 <= maxBlank)%Z ->
  exists kept, dropBlankRuns maxBlank (x :: lines) = x :: kept.
Proof.
  intros Hk. rewrite dropBlankRuns_fold. cbn [foldl].
  destruct (blankStep_cases maxBlank [] 0%Z x)
    as [(_ & _ & ->)|[(_ & ? & _)|(_ & ->)]]; [|lia|].
  - destruct (blankLoop_sublist maxBlank lines ([] ++ [x]) (0 + 1)%Z)
      as (kept & -> & _). by exists kept.
  - destruct (blankLoop_sublist maxBlank lines ([] ++ [x]) 0%Z)
      as (kept & -> & _). by exists kept.
Qed.

(** The invariant of the clean-up loop: no run of blank lines is longer
    than [maxBlank], and the run that ends the cleaned lines is no longer
    than [blankCount]. *)
Definition runsAtMost (n : Z) (ls : list string) : Prop :=
  forall pre run post,
    ls = pre ++ run ++ post -> Forall blank run -> (Z.of_nat (length run) <= n)%Z.

Definition lastRunAtMost (n : Z) (ls : list string) : Prop :=
  forall pre run,
    ls = pre ++ run -> Forall blank run -> (Z.of_nat (length run) <= n)%Z.

Lemma snoc_eq_app {A} (l : list A) x pre suf :
  l ++ [x] = pre ++ suf ->
  (suf = [] /\ pre = l ++ [x])
  \/ exists suf', suf = suf' ++ [x] /\ l = pre ++ suf'.
Proof.
  intros H. destruct (decide (suf = [])) as [->|Hne].
  - left. by rewrite app_nil_r in H.
  - right. destruct (exists_last Hne) as (suf' & y & ->).
    rewrite app_assoc in H. apply app_inj_tail in H as [-> ->]. eauto.
Qed.

Lemma lastRun_snoc_blank n ls x :
  lastRunAtMost n ls -> (0 <= n)%Z -> lastRunAtMost (n + 1) (ls ++ [x]).
Proof.
  intros H Hn pre run E Hb. apply snoc_eq_app in E as [[-> _]|(run' & -> & ->)].
  - simpl. lia.
  - apply Forall_app in Hb as [Hb _]. rewrite length_app. simpl.
    specialize (H pre run' eq_refl Hb). lia.
Qed.

Lemma lastRun_snoc_text ls x :
  ~ blank x -> lastRunAtMost 0 (ls ++ [x]).
Proof.
  intros Hx pre run E Hb. apply snoc_eq_app in E as [[-> _]|(run' & -> & ->)].
  - done.
  - apply Forall_app in Hb as [_ Hb]. rewrite Forall_singleton in Hb. by destruct Hx.
Qed.

Lemma runs_snoc n m ls x :
  runsAtMost n ls -> lastRunAtMost m (ls ++ [x]) -> (m <= n)%Z ->
  runsAtMost n (ls ++ [x]).
Proof.
  intros H Hlast Hm pre run post E Hb. rewrite app_assoc in E.
  apply snoc_eq_app in E as [[-> E]|(post' & -> & ->)].
  - symmetry in E. specialize (Hlast pre run E Hb). lia.
  - rewrite <- app_assoc in H. by apply (H pre run post').
Qed.

Lemma lastRun_mono n m ls : lastRunAtMost n ls -> (n <= m)%Z -> lastRunAtMost m ls.
Proof. intros H Hnm pre run E Hb. specialize (H pre run E Hb). lia. Qed.

Lemma blankLoop_runs maxBlank lines cleaned bc :
  (0 <= bc)%Z ->
  runsAtMost maxBlank cleaned -> lastRunAtMost bc cleaned ->
  runsAtMost maxBlank (fst (foldl (blankStep maxBlank) (cleaned, bc) lines)).
Proof.
  revert cleaned bc. induction lines as [|x lines IH]; intros cleaned bc Hbc Hr Hl.
  - done.
  - cbn [foldl].
    destruct (blankStep_cases maxBlank cleaned bc x)
      as [(_ & Hle & ->)|[(_ & _ & ->)|(Hx & ->)]].
    + pose proof (lastRun_snoc_blank bc cleaned x Hl Hbc) as Hl'.
      apply IH; [lia| |done]. by apply (runs_snoc _ (bc + 1)%Z).
    + apply IH; [lia|done|]. apply (lastRun_mono bc); [done|lia].
    + pose proof (lastRun_snoc_text cleaned x Hx) as Hl'.
      apply IH; [lia| |done]. apply (runs_snoc _ 0%Z); [done|done|].
      destruct (Z.le_gt_cases 0 maxBlank) as [?|Hneg]; [done|].
      (* a negative limit: nothing blank was kept *)
      specialize (Hr cleaned [] [] (eq_sym (app_nil_r _)) (Forall_nil_2 _)).
      simpl in Hr. lia.
Qed.

Lemma dropBlankRuns_runs maxBlank lines :
  (0 <= maxBlank)%Z -> runsAtMost maxBlank (dropBlankRuns maxBlank lines).
Proof.
  intros Hk. rewrite dropBlankRuns_fold. apply blankLoop_runs; [done| |].
  - intros pre run post E _. symmetry in E.
    apply app_eq_nil in E as [_ E]. apply app_eq_nil in E as [-> _].
    simpl. lia.
  - intros pre run E _. symmetry in E. apply app_eq_nil in E as [_ ->].
    simpl. lia.
Qed.

(** The lines that are not blank are all kept, in their order. *)
Lemma blankLoop_text maxBlank (dec : forall l, Decision (blank l)) lines cleaned bc :
  filter (fun l => ~ blank l)
    (fst (foldl (blankStep maxBlank) (cleaned, bc) lines))
  = filter (fun l => ~ blank l) cleaned ++ filter (fun l => ~ blank l) lines.
Proof.
  revert cleaned bc. induction lines as [|x lines IH]; intros cleaned bc.
  - simpl. by rewrite app_nil_r.
  - cbn [foldl].
    destruct (blankStep_cases maxBlank cleaned bc x)
      as [(Hx & _ & ->)|[(Hx & _ & ->)|(Hx & ->)]]; rewrite IH.
    + rewrite filter_app, filter_cons_False, filter_cons_False by eauto.
      by rewrite filter_nil, app_nil_r.
    + by rewrite filter_cons_False by eauto.
    + rewrite filter_app, !filter_cons_True by done.
      by rewrite filter_nil, <- app_assoc.
Qed.

(** *** The capped lines *)

Lemma capLines_length n ls : length (capLines n ls) <= S n.
Proof.
  unfold capLines. destruct (Nat.ltb_spec n (length ls)).
  - rewrite length_app, length_take. simpl. lia.
  - lia.
Qed.

Lemma truncated_free : free nlByte truncated.
Proof. reflexivity. Qed.

Lemma capLines_free n ls :
  Forall (free nlByte) ls -> Forall (free nlByte) (capLines n ls).
Proof.
  intros H. unfold capLines. destruct (n <? length ls); [|done].
  apply Forall_app. split; [by apply Forall_take|].
  apply Forall_singleton, truncated_free.
Qed.

Lemma capLines_not_nil n ls : ls <> [] -> capLines n ls <> [].
Proof.
  intros H. unfold capLines. destruct (n <? length ls); [|done].
  intros E. apply app_eq_nil in E as [_ E]. done.
Qed.

Lemma Forall_sublist {A} (P : A -> Prop) (k l : list A) :
  sublist k l -> Forall P l -> Forall P k.
Proof.
  induction 1 as [|x k l _ IH|x k l _ IH]; intros H; [done| |].
  - apply Forall_cons in H as [? ?]. apply Forall_cons. eauto.
  - apply Forall_cons in H as [? ?]. eauto.
Qed.

Lemma cleaned_not_nil maxBlank snippet :
  (1 <= maxBlank)%Z -> dropBlankRuns maxBlank (Split snippet nl) <> [].
Proof.
  intros Hk. pose proof (Split_not_nil snippet nl) as Hne.
  destruct (Split snippet nl) as [|x lines]; [done|].
  by destruct (dropBlankRuns_first maxBlank x lines Hk) as [kept ->].
Qed.

Lemma cleaned_free maxBlank snippet :
  Forall (free nlByte) (dropBlankRuns maxBlank (Split snippet nl)).
Proof.
  eapply Forall_sublist; [apply dropBlankRuns_sublist|].
  apply (Split_pieces_free nlByte).
Qed.

Lemma cleanedSnippet_lines maxBlank n snippet :
  (1 <= maxBlank)%Z ->
  Split (cleanedSnippet maxBlank n snippet) nl
  = capLines n (dropBlankRuns maxBlank (Split snippet nl)).
Proof.
  intros Hk. unfold cleanedSnippet. apply (Split_Join_byte nlByte).
  - by apply capLines_not_nil, cleaned_not_nil.
  - apply capLines_free, cleaned_free.
Qed.

(** The cleaned snippet has [n + 1] lines at most. *)
Lemma cleanedSnippet_length maxBlank n snippet :
  (1 <= maxBlank)%Z ->
  length (Split (cleanedSnippet maxBlank n snippet) nl) <= S n.
Proof. intros Hk. rewrite cleanedSnippet_lines by done. apply capLines_length. Qed.

(** A run of blank lines of the cleaned snippet has [maxBlank] lines at
    most, when the mark of the cut is not blank. *)
Lemma cleanedSnippet_runs maxBlank n snippet :
  (1 <= maxBlank)%Z -> ~ blank truncated ->
  runsAtMost maxBlank (Split (cleanedSnippet maxBlank n snippet) nl).
Proof.
  intros Hk Ht. rewrite cleanedSnippet_lines by done.
  pose proof (dropBlankRuns_runs maxBlank (Split snippet nl)) as Hr.
  unfold capLines. destruct (n <? length _); [|apply Hr; lia].
  set (ls := dropBlankRuns maxBlank (Split snippet nl)) in *.
  intros pre run post E Hb. rewrite app_assoc in E.
  apply snoc_eq_app in E as [[-> E]|(post' & -> & E)].
  - (* the run ends the lines: it is empty, the mark is not blank *)
    symmetry in E. apply snoc_eq_app in E as [[-> _]|(run' & -> & _)].
    + simpl. lia.
    + apply Forall_app in Hb as [_ Hb]. rewrite Forall_singleton in Hb.
      by destruct Ht.
  - apply (Hr ltac:(lia) pre run (post' ++ drop n ls)); [|done].
    rewrite <- (take_drop n ls) at 1. rewrite E. by rewrite <- !app_assoc.
Qed.

(** The cut to [n] lines of a snippet that is cleaned and capped at [n]
    lines changes nothing. *)
Lemma cleanedSnippet_cut maxBlank n snippet :
  (1 <= maxBlank)%Z -> 0 < n ->
  let s := cleanedSnippet maxBlank n snippet in
  (if n <? length (Split s nl)
   then Join (take n (Split s nl)) nl +:+ nl +:+ truncated
   else s) = s.
Proof.
  intros Hk Hn s. unfold s at 1 2. rewrite cleanedSnippet_lines by done.
  destruct (n <? length (capLines _ _)) eqn:Hlen; [|done].
  unfold s, cleanedSnippet.
  set (ls := dropBlankRuns maxBlank (Split snippet nl)) in *.
  unfold capLines in *. destruct (Nat.ltb_spec n (length ls)) as [Hlt|Hge].
  - rewrite take_app_le by (rewrite length_take; lia).
    rewrite take_take, Nat.min_id.
    rewrite Join_snoc; [done|].
    intros E. apply (f_equal length) in E. rewrite length_take in E.
    simpl in E. lia.
  - apply Nat.ltb_lt in Hlen. lia.
Qed.

(** *** [extractSnippetFromFile] *)

Lemma extractSnippetFromFile_cleaned file searchTerm :
  exists snippet,
    extractSnippetFromFile file searchTerm = cleanedSnippet 1 15 snippet.
Proof. unfold extractSnippetFromFile. eauto. Qed.

(** X3. A snippet of [extractSnippetFromFile] has 16 lines at most,
    whatever the file match holds. *)
Theorem snippet_from_file_line_bound (file : zoekt.FileMatch)
    (searchTerm : string) :
  length (Split (extractSnippetFromFile file searchTerm) nl) <= 16.
Proof.
  destruct (extractSnippetFromFile_cleaned file searchTerm) as [snippet ->].
  apply cleanedSnippet_length; lia.
Qed.

Lemma cutSnippet_extracted (file : zoekt.FileMatch) (searchTerm : string) :
  cutSnippet (extractSnippetFromFile file searchTerm)
  = extractSnippetFromFile file searchTerm.
Proof.
  destruct (extractSnippetFromFile_cleaned file searchTerm) as [snippet ->].
  unfold cutSnippet. apply (cleanedSnippet_cut 1 15 snippet); lia.
Qed.

(** X4. The cut to 15 lines that [findRelevantCodeSnippets] applies to a
    snippet of [extractSnippetFromFile] never changes the snippet. *)
Theorem snippet_cut_changes_nothing (file : zoekt.FileMatch)
    (searchTerm : string) :
  cutSnippet (extractSnippetFromFile file searchTerm)
  = extractSnippetFromFile file searchTerm.
Proof. apply cutSnippet_extracted. Qed.

(** X5. No two lines in a row of a snippet of [extractSnippetFromFile]
    are blank: a run of blank lines has one line at most. *)
Theorem snippet_from_file_blank_runs (file : zoekt.FileMatch)
    (searchTerm : string) (pre run post : list string) :
  TrimSpace truncated <> "" ->
  Split (extractSnippetFromFile file searchTerm) nl = pre ++ run ++ post ->
  Forall (fun line => TrimSpace line = "") run ->
  length run <= 1.
Proof.
  intros Ht E Hb.
  destruct (extractSnippetFromFile_cleaned file searchTerm) as [snippet Hs].
  rewrite Hs in E.
  pose proof (cleanedSnippet_runs 1 15 snippet ltac:(lia) Ht pre run post E Hb).
  lia.
Qed.

End SnippetFacts.

(** ** The searches of the translator *)

Section TranslatorSearchFacts.

Context {U : Unicode} {Q : Type}.

Variable Parse : string -> Q + string.

Local Open Scope nat_scope.

(** The options of the search for a key term. *)
Definition termOpts : SearchOptions :=
  {| MaxDocDisplayCount := 3; NumContextLines := 3; Whole := false |}.

(** The search that [findRelevantCodeSnippets] runs for a key term: none
    for a term that does not parse. *)
Definition termCall (term : string) : option (@Call Q) :=
  match Parse term with
  | inl searchQuery => Some (CallSearch searchQuery termOpts)
  | inr _ => None
  end.

(** A snippet of the list: the text that [extractSnippetFromFile] gives
    for a file that the search for a key term found, under its heading. *)
Definition foundIn (sr : @Searcher Q) (keyTerms : list string)
    (entry : string) : Prop :=
  exists term searchQuery res file,
    term ∈ keyTerms
    /\ Parse term = inl searchQuery
    /\ Search sr searchQuery termOpts = (Some res, None)
    /\ file ∈ zoekt.Files res
    /\ 20 < len (extractSnippetFromFile file term)
    /\ entry = "Found '" +:+ term +:+ "' in " +:+ zoekt.FileName file
               +:+ ":" +:+ nl +:+ "```" +:+ nl
               +:+ extractSnippetFromFile file term +:+ nl +:+ "```".

Lemma addSnippet_loop sr keyTerms term searchQuery res files st :
  term ∈ keyTerms ->
  Parse term = inl searchQuery ->
  Search sr searchQuery termOpts = (Some res, None) ->
  (forall file, file ∈ files -> file ∈ zoekt.Files res) ->
  Forall (foundIn sr keyTerms) (allSnippets st) ->
  Forall (foundIn sr keyTerms) (allSnippets (foldl (addSnippet term) st files)).
Proof.
  intros Ht Hp Hs. revert st.
  induction files as [|file files IH]; intros st Hfiles Hst; [done|].
  cbn [foldl]. apply IH.
  - intros f Hf. apply Hfiles. by apply list_elem_of_further.
  - unfold addSnippet.
    destruct (lookupBool (snippetMap st) _); [done|].
    destruct (negb _ && _) eqn:Hlen; [|done]. simpl.
    apply andb_true_iff in Hlen as [_ Hlen]. apply Nat.ltb_lt in Hlen.
    apply Forall_app. split; [done|]. apply Forall_singleton.
    exists term, searchQuery, res, file.
    rewrite cutSnippet_extracted.
    repeat split; try done. apply Hfiles. apply list_elem_of_here.
Qed.

Lemma searchForTerm_spec sr keyTerms term st :
  term ∈ keyTerms ->
  Forall (foundIn sr keyTerms) (allSnippets st) ->
  Forall (foundIn sr keyTerms) (allSnippets (fst (searchForTerm Parse sr st term)))
  /\ snd (searchForTerm Parse sr st term) = option_list (termCall term).
Proof.
  intros Ht Hst. unfold searchForTerm, termCall.
  destruct (Parse term) as [searchQuery|err] eqn:Hp; [|done].
  fold termOpts.
  destruct (Search sr searchQuery termOpts) as [result err] eqn:Hs.
  unfold andThen, call, pure.
  destruct err as [e|]; [done|]. destruct result as [res|]; [|done].
  destruct (length (zoekt.Files res) =? 0); [done|]. simpl. split; [|done].
  by apply (addSnippet_loop sr keyTerms term searchQuery res).
Qed.

Lemma relevant_loop sr keyTerms terms (acc : Logged (Q := Q) Found) :
  (forall term, term ∈ terms -> term ∈ keyTerms) ->
  Forall (foundIn sr keyTerms) (allSnippets (fst acc)) ->
  let out :=
    foldl (fun acc term => andThen acc (fun st => searchForTerm Parse sr st term))
      acc terms in
  Forall (foundIn sr keyTerms) (allSnippets (fst out))
  /\ snd out = snd acc ++ omap termCall terms.
Proof.
  revert acc. induction terms as [|term terms IH]; intros acc Hterms Hacc.
  - simpl. by rewrite app_nil_r.
  - cbn [foldl]. cbv zeta.
    destruct acc as [st log]. simpl in Hacc.
    destruct (searchForTerm_spec sr keyTerms term st) as [Hf Hl];
      [apply Hterms, list_elem_of_here|done|].
    destruct (searchForTerm Parse sr st term) as [st' log'] eqn:E.
    simpl in Hf, Hl.
    assert (Hstep : andThen (st, log)
                      (fun st => searchForTerm Parse sr st term)
                    = (st', log ++ log')).
    { unfold andThen. by rewrite E. }
    rewrite Hstep.
    destruct (IH (st', log ++ log')) as [IH1 IH2].
    + intros t H. apply Hterms. by apply list_elem_of_further.
    + done.
    + split; [exact IH1|]. rewrite IH2. simpl. rewrite Hl.
      rewrite <- app_assoc. f_equal. by destruct (termCall term).
Qed.

Lemma relevantSnippets_spec sr keyTerms :
  Forall (foundIn sr keyTerms) (fst (relevantSnippets Parse sr keyTerms))
  /\ snd (relevantSnippets Parse sr keyTerms) = omap termCall keyTerms.
Proof.
  unfold relevantSnippets.
  pose proof (relevant_loop sr keyTerms keyTerms
                (pure {| allSnippets := []; snippetMap := ∅ |})
                (fun _ H => H) (Forall_nil_2 _)) as [H1 H2].
  destruct (foldl _ _ _) as [st log]. simpl in *.
  rewrite app_nil_r. done.
Qed.

Definition relevantHeader : string :=
  "RELEVANT CODE SNIPPETS (found in codebase for your query):" +:+ nl.

(** X6. [findRelevantCodeSnippets] searches once for every key term
    that parses, in the order of the key terms and with three files and
    three context lines asked for; without a searcher it does not search
    and returns the empty string. *)
Theorem relevant_snippets_searches (nlQuery : string) :
  findRelevantCodeSnippets Parse None nlQuery = ("", [])
  /\ forall sr : @Searcher Q,
       snd (findRelevantCodeSnippets Parse (Some sr) nlQuery)
       = omap termCall (extractKeyTerms nlQuery).
Proof.
  split; [done|]. intros sr. unfold findRelevantCodeSnippets.
  destruct (extractKeyTerms nlQuery) as [|t ts] eqn:E; [done|].
  cbn [length Nat.eqb].
  destruct (relevantSnippets_spec sr (t :: ts)) as [_ Hl].
  destruct (relevantSnippets Parse sr (t :: ts)) as [snips log].
  simpl in Hl. unfold andThen.
  destruct (length snips =? 0); simpl; by rewrite app_nil_r.
Qed.

(** X7. What [findRelevantCodeSnippets] returns is empty, or the heading
    followed by one to five entries; every entry is the snippet that
    [extractSnippetFromFile] gives, of more than 20 bytes and uncut, for
    a file that the search for one of the key terms found. *)
Theorem relevant_snippets_shape (sr : @Searcher Q) (nlQuery : string) :
  let out := fst (findRelevantCodeSnippets Parse (Some sr) nlQuery) in
  out = ""
  \/ exists entries,
       out = relevantHeader +:+ Join entries (nl +:+ nl) +:+ nl
       /\ 1 <= length entries <= 5
       /\ Forall (foundIn sr (extractKeyTerms nlQuery)) entries.
Proof.
  unfold findRelevantCodeSnippets.
  destruct (length (extractKeyTerms nlQuery) =? 0); [by left|].
  destruct (relevantSnippets_spec sr (extractKeyTerms nlQuery)) as [Hf _].
  destruct (relevantSnippets Parse sr _) as [snips log].
  simpl in Hf. unfold andThen.
  destruct (Nat.eqb_spec (length snips) 0) as [|Hne]; [by left|].
  right. destruct (Nat.ltb_spec 5 (length snips)) as [Hlt|Hge].
  - exists (take 5 snips). simpl. split; [|split].
    + unfold relevantHeader. by rewrite !GoStringsFacts.app_assoc.
    + rewrite length_take. lia.
    + by apply Forall_take.
  - exists snips. simpl. split; [|split].
    + unfold relevantHeader. by rewrite !GoStringsFacts.app_assoc.
    + lia.
    + done.
Qed.

(** X21. A snippet of [extractCodeSnippet] has 51 lines at most. For a
    file with line matches nothing is searched; else the one search asks
    for the whole content of one file. *)
Theorem code_snippet_line_bound (searcher : option (@Searcher Q))
    (file : zoekt.FileMatch) :
  let out := extractCodeSnippet Parse searcher file in
  match fst out with
  | Ok snippet => length (Split snippet nl) <= 51
  | Panic _ => searcher = None /\ zoekt.LineMatches file = []
  end
  /\ (zoekt.LineMatches file <> [] -> snd out = [])
  /\ Forall (fun c =>
               exists fileQuery,
                 c = CallSearch fileQuery
                       {| MaxDocDisplayCount := 1; NumContextLines := 0;
                          Whole := true |})
       (snd out).
Proof.
  cbv zeta. unfold extractCodeSnippet.
  destruct (zoekt.LineMatches file) as [|m ms] eqn:Hm; cbn [length Nat.ltb Nat.leb].
  2:{ cbn [pure fst snd]. split; [apply cleanedSnippet_length; lia|].
      split; [done|constructor]. }
  destruct (Parse _) as [fileQuery|err].
  2:{ cbn [pure fst snd]. split; [apply cleanedSnippet_length; lia|].
      split; [done|constructor]. }
  destruct searcher as [sr|].
  2:{ cbn [pure fst snd]. split; [done|]. split; [done|constructor]. }
  unfold andThen, call, pure.
  destruct (Search sr fileQuery _) as [result err]. cbn [fst snd].
  split; [apply cleanedSnippet_length; lia|]. split; [done|].
  rewrite app_nil_r. apply Forall_singleton. eauto.
Qed.

End TranslatorSearchFacts.

(** ** The indexer *)

Section IndexerFacts.

Context {U : Unicode}.

Lemma codeExts_langMap (ext : string) :
  existsb (fun codeExt => String.eqb ext codeExt) codeExts = true
  <-> exists lang, langMap !! ext = Some lang /\ lang <> "unknown".
Proof.
  split.
  - intros H. apply existsb_exists in H as (codeExt & Hin & Heq).
    apply String.eqb_eq in Heq as <-.
    unfold codeExts in Hin.
    repeat (apply in_inv in Hin as [<-|Hin];
            [eexists; split; [vm_compute; reflexivity|discriminate]|]).
    destruct Hin.
  - intros (lang & Hl & _). apply elem_of_list_to_map_2 in Hl.
    apply existsb_exists. exists ext. split; [|apply String.eqb_refl].
    repeat (apply elem_of_cons in Hl as [[= -> _]|Hl];
            [unfold codeExts; simpl; tauto|]).
    by apply elem_of_nil in Hl.
Qed.

(** X8. The two tables of the indexer agree: [isCodeFile] accepts a path
    exactly when [detectLanguage] knows its language. *)
Theorem code_files_have_a_language (path : string) :
  isCodeFile path = true <-> detectLanguage path <> "unknown".
Proof.
  unfold isCodeFile, detectLanguage. rewrite codeExts_langMap.
  destruct (langMap !! ToLower (filepath.Ext path)) as [lang|].
  - split; [by intros (? & [= <-] & ?)|eauto].
  - split; [by intros (? & ? & _)|done].
Qed.

(** *** Lines of a chunk *)

(** The text of a sequence of lines: each line with its line feed. *)
Definition textOf (ls : list string) : string :=
  foldr (fun l acc => l +:+ nl +:+ acc) "" ls.

(** The lines [first] to [last] of a file, counted from 0. *)
Definition window (lines : list string) (first last : Z) : list string :=
  take (Z.to_nat (last + 1 - first)) (drop (Z.to_nat first) lines).

Lemma textOf_app ls ls' : textOf (ls ++ ls') = textOf ls +:+ textOf ls'.
Proof.
  induction ls as [|l ls IH]; [done|]. simpl. rewrite IH.
  by rewrite !GoStringsFacts.app_assoc.
Qed.

Lemma textOf_snoc ls l : textOf (ls ++ [l]) = textOf ls +:+ l +:+ nl.
Proof.
  rewrite textOf_app. simpl. by rewrite GoStringsFacts.app_nil_r.
Qed.

Lemma textOf_empty ls : textOf ls = "" -> ls = [].
Proof. destruct ls as [|l ls]; [done|]. simpl. by destruct l. Qed.

(** A window that ends with the prefix [done] of the file. *)
Lemma window_prefix done rest (s : nat) :
  (s <= length done)%nat ->
  window (done ++ rest) (Z.of_nat s) (Z.of_nat (length done) - 1)
  = drop s done.
Proof.
  intros Hs. unfold window. rewrite Nat2Z.id.
  replace (Z.to_nat (Z.of_nat (length done) - 1 + 1 - Z.of_nat s))
    with (length done - s)%nat by lia.
  rewrite drop_app_le by done. rewrite take_app_le by (rewrite length_drop; lia).
  apply take_ge. rewrite length_drop. lia.
Qed.

(** The loop over the lines, by the lines passed. *)
Lemma rangeFrom_invariant {A S} (I : list A -> S -> Prop) (l : list A)
    (body : Z -> A -> S -> S) (st : S) :
  (forall done x rest st,
      l = done ++ x :: rest -> I done st ->
      I (done ++ [x]) (body (Z.of_nat (length done)) x st)) ->
  I [] st -> I l (rangeFrom 0 l body st).
Proof.
  intros Hstep H0.
  assert (G : forall rest done st,
             l = done ++ rest -> I done st ->
             I l (rangeFrom (Z.of_nat (length done)) rest body st)).
  { induction rest as [|x rest IH]; intros done st' E H.
    - rewrite app_nil_r in E. by subst.
    - cbn [rangeFrom].
      replace (Z.of_nat (length done) + 1)
        with (Z.of_nat (length (done ++ [x])))
        by (rewrite length_app; simpl; lia).
      apply IH; [by rewrite <- app_assoc|]. by apply (Hstep done x rest). }
  by apply (G l [] st).
Qed.

(** *** [chunkGenericCode] *)

Section Generic.

Variables (filePath language : string).

(** A block of the lines [s] to [e] of the file. *)
Definition blockOf (lines : list string) (s e : nat) (c : SemanticCodeChunk)
  : Prop :=
  (s <= e < length lines)%nat
  /\ (e - s <= 100)%nat
  /\ (50 < len (textOf (drop s (take (S e) lines))))%nat
  /\ c = newChunk filePath (Z.of_nat s + 1) (Z.of_nat e + 1)
           (textOf (drop s (take (S e) lines))) (Z.of_nat s) (Z.of_nat e)
           "block" language.

Definition isBlock (lines : list string) (c : SemanticCodeChunk) : Prop :=
  exists s e, blockOf lines s e c.

Definition precedes (c1 c2 : SemanticCodeChunk) : Prop :=
  EndLine c1 < StartLine c2.

Lemma blockOf_more lines x s e c :
  blockOf lines s e c -> blockOf (lines ++ [x]) s e c.
Proof.
  intros (Hse & Hlen & Hbytes & ->). unfold blockOf.
  rewrite take_app_le by lia. rewrite length_app. simpl.
  repeat split; try done; lia.
Qed.

Definition genericStep (i : Z) (line : string) (st : Blocks) : Blocks :=
  let currentChunk := currentBlock st +:+ line +:+ nl in
  if (100 <=? i - blockStart st)
     || (String.eqb (TrimSpace line) "" && (200 <? len currentChunk)%nat)
  then
    {| blocks :=
         if (50 <? len currentChunk)%nat
         then blocks st
              ++ [newChunk filePath (blockStart st + 1) (i + 1)
                    currentChunk (blockStart st) i "block" language]
         else blocks st;
       currentBlock := "";
       blockStart := i + 1 |}
  else
    {| blocks := blocks st;
       currentBlock := currentChunk;
       blockStart := blockStart st |}.

Definition genericInv (done : list string) (st : Blocks) : Prop :=
  exists s : nat,
    blockStart st = Z.of_nat s
    /\ (s <= length done)%nat
    /\ (length done - s <= 100)%nat
    /\ currentBlock st = textOf (drop s done)
    /\ Forall (isBlock done) (blocks st)
    /\ Forall (fun c => EndLine c < Z.of_nat s) (blocks st)
    /\ StronglySorted precedes (blocks st).

Lemma StronglySorted_snoc {A} (R : A -> A -> Prop) l x :
  StronglySorted R l -> Forall (fun y => R y x) l ->
  StronglySorted R (l ++ [x]).
Proof.
  induction 1 as [|y l Hl IH Hy]; intros Hx; simpl.
  - repeat constructor.
  - apply Forall_cons in Hx as [Hyx Hx]. constructor; [eauto|].
    apply Forall_app. split; [done|]. by apply Forall_singleton.
Qed.

Lemma genericStep_inv done x st :
  genericInv done st ->
  genericInv (done ++ [x]) (genericStep (Z.of_nat (length done)) x st).
Proof.
  intros (s & Hs & Hle & Hwin & Hcur & Hblocks & Hend & Hsorted).
  assert (Hmore : Forall (isBlock (done ++ [x])) (blocks st)).
  { eapply Forall_impl; [exact Hblocks|].
    intros c (s' & e' & H). exists s', e'. by apply blockOf_more. }
  assert (Htext : currentBlock st +:+ x +:+ nl
                  = textOf (drop s (take (S (length done)) (done ++ [x])))).
  { rewrite take_ge by (rewrite length_app; simpl; lia).
    rewrite drop_app_le by done. by rewrite textOf_snoc, Hcur. }
  unfold genericStep. rewrite Hs.
  destruct (_ || _) eqn:Hclose.
  - (* the block ends with this line *)
    exists (S (length done)). simpl. rewrite length_app. simpl.
    split; [lia|]. split; [lia|]. split; [lia|]. split.
    { rewrite drop_ge by (rewrite length_app; simpl; lia). done. }
    destruct (50 <? len _)%nat eqn:Hbytes.
    + apply Nat.ltb_lt in Hbytes. rewrite Htext in Hbytes |- *.
      split; [|split].
      * apply Forall_app. split; [done|]. apply Forall_singleton.
        exists s, (length done). unfold blockOf. rewrite length_app. simpl.
        repeat split; try done; lia.
      * apply Forall_app. split.
        -- eapply Forall_impl; [exact Hend|]. simpl. intros; lia.
        -- apply Forall_singleton. simpl. lia.
      * apply StronglySorted_snoc; [done|].
        eapply Forall_impl; [exact Hend|]. unfold precedes. simpl. intros; lia.
    + split; [done|]. split; [|done].
      eapply Forall_impl; [exact Hend|]. simpl. intros; lia.
  - (* the block goes on *)
    apply orb_false_iff in Hclose as [Hsize _]. apply Z.leb_gt in Hsize.
    exists s. simpl. rewrite length_app. simpl.
    split; [done|]. split; [lia|]. split; [lia|]. split; [|done].
    rewrite drop_app_le by done. by rewrite textOf_snoc, Hcur.
Qed.

Lemma chunkGenericCode_blocks lines :
  Forall (isBlock lines) (chunkGenericCode lines filePath language)
  /\ StronglySorted precedes (chunkGenericCode lines filePath language).
Proof.
  unfold chunkGenericCode. cbv zeta.
  change (fun i line st => _) with genericStep.
  pose proof (rangeFrom_invariant genericInv lines genericStep
                {| blocks := []; currentBlock := ""; blockStart := 0 |}) as H.
  destruct H as (s & Hs & Hle & Hwin & Hcur & Hblocks & Hend & Hsorted).
  { intros done x rest st _. apply genericStep_inv. }
  { exists 0%nat. simpl. split; [done|]. split; [lia|]. split; [lia|].
    split; [done|]. repeat split; constructor. }
  destruct (50 <? len _)%nat eqn:Hbytes; [|done].
  apply Nat.ltb_lt in Hbytes.
  assert (Hlt : (s < length lines)%nat).
  { destruct (decide (s < length lines)%nat) as [|Hge]; [done|].
    rewrite Hcur, drop_ge in Hbytes by lia. simpl in Hbytes. lia. }
  rewrite Hs, Hcur in *. split.
  - apply Forall_app. split; [done|]. apply Forall_singleton.
    exists s, (length lines - 1)%nat. unfold blockOf.
    replace (S (length lines - 1)) with (length lines) by lia.
    rewrite firstn_all.
    replace (Z.of_nat (length lines - 1) + 1) with (Z.of_nat (length lines))
      by lia.
    replace (Z.of_nat (length lines - 1)) with (Z.of_nat (length lines) - 1)
      by lia.
    repeat split; try done; lia.
  - apply StronglySorted_snoc; [done|].
    eapply Forall_impl; [exact Hend|]. unfold precedes. simpl. intros; lia.
Qed.

End Generic.

(** *** The chunkers that cut at declarations *)

Section Declarations.

Variables (filePath language : string).

(** The lines that a chunker writes to its buffer, the declarations it
    looks for, and the body of its loop. *)
Variable kept : string -> bool.
Variable classify : string -> option string.
Variable step : Z -> string -> Chunker -> Chunker.

(** What a line that is no declaration does: nothing without an open
    chunk; with one, it is added to the chunk, or added and the chunk
    appended, or not added and the chunk appended or dropped. *)
Definition continues (i : Z) (line : string) (st st' : Chunker) : Prop :=
  (currentChunk st = "" /\ st' = st)
  \/ (currentChunk st <> ""
      /\ startLine st' = startLine st
      /\ chunkType st' = chunkType st
      /\ ((chunks st' = chunks st
           /\ currentChunk st' = currentChunk st +:+ line +:+ nl)
          \/ (chunks st'
              = chunks st
                ++ [newChunk filePath (startLine st + 1) (i + 1)
                      (currentChunk st +:+ line +:+ nl)
                      (startLine st) i (chunkType st) language]
              /\ currentChunk st' = "")
          \/ (chunks st'
              = chunks st
                ++ [newChunk filePath (startLine st + 1) i
                      (currentChunk st)
                      (startLine st) (i - 1) (chunkType st) language]
              /\ currentChunk st' = "")
          \/ (chunks st' = chunks st /\ currentChunk st' = ""))).

Hypothesis step_skip : forall i line st,
  kept line = false -> step i line st = st.
Hypothesis step_declaration : forall i line st type,
  kept line = true -> classify (TrimSpace line) = Some type ->
  exists lvl, step i line st = declaration filePath language i line type lvl st.
Hypothesis step_continues : forall i line st,
  kept line = true -> classify (TrimSpace line) = None ->
  continues i line st (step i line st).

(** A chunk of the lines [s] to [e] of the file, [s] being a
    declaration. *)
Definition chunkAt (lines : list string) (s e : nat) (type : string)
    (c : SemanticCodeChunk) : Prop :=
  (s <= e < length lines)%nat
  /\ (exists line, lines !! s = Some line /\ kept line = true
                   /\ classify (TrimSpace line) = Some type)
  /\ c = newChunk filePath (Z.of_nat s + 1) (Z.of_nat e + 1)
           (textOf (filter kept (drop s (take (S e) lines))))
           (Z.of_nat s) (Z.of_nat e) type language.

Definition isChunk (lines : list string) (c : SemanticCodeChunk) : Prop :=
  exists s e type, chunkAt lines s e type c.

Lemma chunkAt_more lines x s e type c :
  chunkAt lines s e type c -> chunkAt (lines ++ [x]) s e type c.
Proof.
  intros (Hse & (line & Hl & Hk & Hc) & ->). unfold chunkAt.
  rewrite take_app_le by lia. rewrite length_app. simpl.
  split; [lia|]. split; [|done]. exists line.
  rewrite lookup_app_l by lia. done.
Qed.

(** The chunk that is open after the lines [done]. *)
Definition openAt (done : list string) (st : Chunker) (s : nat) : Prop :=
  startLine st = Z.of_nat s
  /\ (s < length done)%nat
  /\ currentChunk st = textOf (filter kept (drop s done))
  /\ (exists line, done !! s = Some line /\ kept line = true
                   /\ classify (TrimSpace line) = Some (chunkType st)).

Definition declInv (done : list string) (st : Chunker) : Prop :=
  Forall (isChunk done) (chunks st)
  /\ StronglySorted precedes (chunks st)
  /\ ((currentChunk st = ""
       /\ Forall (fun c => EndLine c < Z.of_nat (length done)) (chunks st))
      \/ (exists s, openAt done st s
                    /\ Forall (fun c => EndLine c < Z.of_nat s) (chunks st))).

Lemma len_pos s : (0 <? len s)%nat = negb (String.eqb s "").
Proof. by destruct s. Qed.

Lemma open_not_empty done st s : openAt done st s -> currentChunk st <> "".
Proof.
  intros (_ & Hs & -> & (line & Hl & Hk & _)) E. apply textOf_empty in E.
  rewrite (drop_S _ _ _ Hl), filter_cons_True in E by (by apply Is_true_true_2).
  done.
Qed.

(** The chunk that closes with the lines [done], from the open one. *)
Lemma open_closes done st s :
  openAt done st s ->
  chunkAt done s (length done - 1) (chunkType st)
    (newChunk filePath (startLine st + 1) (Z.of_nat (length done))
       (currentChunk st) (startLine st) (Z.of_nat (length done) - 1)
       (chunkType st) language).
Proof.
  intros (Hs & Hlt & Hcur & Hline). unfold chunkAt.
  split; [lia|]. split; [done|]. rewrite Hs, Hcur.
  replace (S (length done - 1)) with (length done) by lia.
  rewrite firstn_all. f_equal; lia.
Qed.

Lemma Forall_below (cs : list SemanticCodeChunk) (a b : Z) :
  a <= b -> Forall (fun c => EndLine c < a) cs ->
  Forall (fun c => EndLine c < b) cs.
Proof.
  intros Hab H. eapply Forall_impl; [exact H|]. simpl. intros c ?. lia.
Qed.

Lemma declStep_inv done x st :
  declInv done st ->
  declInv (done ++ [x]) (step (Z.of_nat (length done)) x st).
Proof.
  intros (Hchunks & Hsorted & Hopen).
  assert (Hmore : Forall (isChunk (done ++ [x])) (chunks st)).
  { eapply Forall_impl; [exact Hchunks|].
    intros c (s & e & type & H). exists s, e, type. by apply chunkAt_more. }
  assert (Hlen : length (done ++ [x]) = S (length done))
    by (rewrite length_app; simpl; lia).
  destruct (kept x) eqn:Hk.
  2:{ (* a line that is not written *)
    rewrite step_skip by done. split; [done|]. split; [done|].
    destruct Hopen as [[He Hend]|(s & (Hs & Hlt & Hcur & line & Hl & Hkl & Hc) & Hend)].
    - left. split; [done|]. eapply Forall_below; [|exact Hend]. lia.
    - right. exists s. split; [|done]. split; [done|]. split; [lia|].
      split.
      + rewrite drop_app_le by lia.
        rewrite filter_app, filter_cons_False by (by apply Is_true_false_2).
        by rewrite filter_nil, app_nil_r.
      + exists line. by rewrite lookup_app_l by lia. }
  assert (Hnew : forall s,
             openAt done st s ->
             currentChunk st +:+ x +:+ nl
             = textOf (filter kept (drop s (done ++ [x])))).
  { intros s (_ & Hlt & Hcur & _). rewrite drop_app_le by lia.
    rewrite filter_app, filter_cons_True, filter_nil by (by apply Is_true_true_2).
    by rewrite textOf_snoc, Hcur. }
  destruct (classify (TrimSpace x)) as [type|] eqn:Hcl.
  - (* a declaration *)
    destruct (step_declaration (Z.of_nat (length done)) x st type Hk Hcl)
      as [lvl ->].
    unfold declaration, declInv. cbn [chunks currentChunk startLine chunkType].
    assert (Hopen' : openAt (done ++ [x])
                       {| chunks := []; currentChunk := x +:+ nl;
                          startLine := Z.of_nat (length done);
                          chunkType := type; level := lvl |} (length done)).
    { split; [done|]. split; [lia|]. split.
      - rewrite drop_app_length. rewrite filter_cons_True by (by apply Is_true_true_2).
        simpl. by rewrite GoStringsFacts.app_nil_r.
      - exists x. by rewrite list_lookup_middle. }
    rewrite len_pos.
    destruct Hopen as [[He Hend]|(s & Hop & Hend)].
    + rewrite He. simpl. split; [done|]. split; [done|]. right.
      exists (length done). split; [|done].
      destruct Hopen' as (? & ? & ? & ?). done.
    + pose proof (open_not_empty done st s Hop) as Hne.
      apply String.eqb_neq in Hne. rewrite Hne. simpl.
      pose proof (open_closes done st s Hop) as Hc.
      assert (Hs : startLine st = Z.of_nat s) by apply Hop.
      assert (Hlt : (s < length done)%nat) by apply Hop.
      split; [|split].
      * apply Forall_app. split; [done|]. apply Forall_singleton.
        exists s, (length done - 1)%nat, (chunkType st).
        by apply chunkAt_more.
      * apply StronglySorted_snoc; [done|].
        eapply Forall_impl; [exact Hend|]. unfold precedes. simpl. intros; lia.
      * right. exists (length done). split.
        { destruct Hopen' as (? & ? & ? & ?). done. }
        apply Forall_app. split.
        -- eapply Forall_below; [|exact Hend]. lia.
        -- apply Forall_singleton. simpl. lia.
  - (* no declaration *)
    pose proof (step_continues (Z.of_nat (length done)) x st Hk Hcl) as Hcont.
    destruct Hcont as [[He ->]|(Hne & Hstart & Htype & Hcases)].
    + split; [done|]. split; [done|].
      destruct Hopen as [[_ Hend]|(s & Hop & _)].
      * left. split; [done|]. eapply Forall_below; [|exact Hend]. lia.
      * by destruct (open_not_empty done st s Hop).
    + destruct Hopen as [[He _]|(s & Hop & Hend)]; [done|].
      assert (Hs : startLine st = Z.of_nat s) by apply Hop.
      assert (Hlt : (s < length done)%nat) by apply Hop.
      destruct Hop as (_ & _ & Hcur & line & Hl & Hkl & Hc).
      assert (Hop : openAt done st s).
      { split; [done|]. split; [done|]. split; [done|]. by exists line. }
      destruct Hcases as [[Hch Hcu]|[[Hch Hcu]|[[Hch Hcu]|[Hch Hcu]]]].
      * (* the line is added *)
        unfold declInv. rewrite Hch. split; [done|]. split; [done|].
        right. exists s. split; [|done]. split; [congruence|].
        split; [lia|]. split.
        -- rewrite Hcu. by apply Hnew.
        -- exists line. rewrite lookup_app_l by lia. by rewrite Htype.
      * (* the line is added and the chunk appended *)
        unfold declInv. rewrite Hch, Hcu. split; [|split].
        -- apply Forall_app. split; [done|]. apply Forall_singleton.
           exists s, (length done), (chunkType st). unfold chunkAt.
           rewrite Hlen. split; [lia|]. split.
           ++ exists line. by rewrite lookup_app_l by lia.
           ++ rewrite take_ge by lia. rewrite (Hnew s Hop), Hs. done.
        -- apply StronglySorted_snoc; [done|].
           eapply Forall_impl; [exact Hend|]. unfold precedes. simpl.
           intros; lia.
        -- left. split; [done|]. apply Forall_app. split.
           ++ eapply Forall_below; [|exact Hend]. lia.
           ++ apply Forall_singleton. simpl. lia.
      * (* the chunk is appended without the line *)
        pose proof (open_closes done st s Hop) as Hclose.
        unfold declInv. rewrite Hch, Hcu. split; [|split].
        -- apply Forall_app. split; [done|]. apply Forall_singleton.
           exists s, (length done - 1)%nat, (chunkType st).
           by apply chunkAt_more.
        -- apply StronglySorted_snoc; [done|].
           eapply Forall_impl; [exact Hend|]. unfold precedes. simpl.
           intros; lia.
        -- left. split; [done|]. apply Forall_app. split.
           ++ eapply Forall_below; [|exact Hend]. lia.
           ++ apply Forall_singleton. simpl. lia.
      * (* the chunk is dropped *)
        unfold declInv. rewrite Hch, Hcu. split; [done|]. split; [done|].
        left. split; [done|]. eapply Forall_below; [|exact Hend]. lia.
Qed.

Lemma declarations_chunks lines :
  let out := remaining filePath language lines
               (rangeFrom 0 lines step noChunks) in
  Forall (isChunk lines) out /\ StronglySorted precedes out.
Proof.
  pose proof (rangeFrom_invariant declInv lines step noChunks) as H.
  destruct H as (Hchunks & Hsorted & Hopen).
  { intros done x rest st _. apply declStep_inv. }
  { split; [constructor|]. split; [constructor|]. left. split; [done|].
    constructor. }
  cbv zeta. unfold remaining. rewrite len_pos.
  destruct Hopen as [[-> _]|(s & Hop & Hend)]; [done|].
  pose proof (open_not_empty lines _ s Hop) as Hne.
  apply String.eqb_neq in Hne. rewrite Hne. simpl.
  pose proof (open_closes lines _ s Hop) as Hc.
  assert (Hs : startLine (rangeFrom 0 lines step noChunks) = Z.of_nat s)
    by apply Hop.
  split.
  - apply Forall_app. split; [done|]. apply Forall_singleton.
    by exists s, (length lines - 1)%nat, (chunkType (rangeFrom 0 lines step noChunks)).
  - apply StronglySorted_snoc; [done|].
    eapply Forall_impl; [exact Hend|]. unfold precedes. simpl. intros; lia.
Qed.

End Declarations.

Lemma rangeFrom_ext {A S} (f g : Z -> A -> S -> S) (l : list A) i st :
  (forall i x st, f i x st = g i x st) ->
  rangeFrom i l f st = rangeFrom i l g st.
Proof.
  intros H. revert i st. induction l as [|x l IH]; intros i st; [done|].
  cbn [rangeFrom]. by rewrite H, IH.
Qed.

Lemma braces_continues filePath language i line st :
  continues filePath language i line st (braces filePath language i line st).
Proof.
  unfold braces, continues. rewrite len_pos.
  destruct (String.eqb_spec (currentChunk st) "") as [He|Hne]; [by left|].
  right. split; [done|]. simpl.
  destruct (_ && _); simpl; split; try done; split; try done; tauto.
Qed.

Lemma indented_continues filePath i line trimmed currentIndent st :
  continues filePath "python" i line st
    (indented filePath i line trimmed currentIndent st).
Proof.
  unfold indented, continues. rewrite len_pos.
  destruct (String.eqb_spec (currentChunk st) "") as [He|Hne]; [by left|].
  right. split; [done|]. simpl.
  destruct (level st <? currentIndent); [simpl; tauto|].
  destruct (_ && _); [simpl; tauto|].
  destruct (50 <? len _)%nat; simpl; tauto.
Qed.

(** The declarations of the three chunkers, by the patterns that the
    chunker tries in turn. *)
Definition goDeclaration (trimmed : string) : option string :=
  if regexp.MatchString goFuncPattern trimmed then Some "function"
  else if regexp.MatchString goStructPattern trimmed then Some "struct"
  else if regexp.MatchString goInterfacePattern trimmed
  then Some "interface"
  else None.

Definition jsDeclaration (trimmed : string) : option string :=
  if regexp.MatchString jsFuncPattern trimmed
     || regexp.MatchString jsConstPattern trimmed
  then Some "function"
  else if regexp.MatchString jsClassPattern trimmed then Some "class"
  else None.

Definition pyDeclaration (trimmed : string) : option string :=
  if regexp.MatchString pyFuncPattern trimmed then Some "function"
  else if regexp.MatchString pyClassPattern trimmed then Some "class"
  else None.

Definition notBlank (line : string) : bool :=
  negb (String.eqb (TrimSpace line) "").

Lemma chunkGoCode_chunks lines filePath :
  Forall (isChunk filePath "go" (fun _ => true) goDeclaration lines)
    (chunkGoCode lines filePath)
  /\ StronglySorted precedes (chunkGoCode lines filePath).
Proof.
  unfold chunkGoCode. cbv zeta.
  apply (declarations_chunks filePath "go" (fun _ => true) goDeclaration).
  - done.
  - intros i line st type _. unfold goDeclaration. exists 0.
    repeat (destruct (regexp.MatchString _ _); [by injection H as <-|]).
    done.
  - intros i line st _. unfold goDeclaration.
    repeat (destruct (regexp.MatchString _ _); [done|]).
    intros _. apply braces_continues.
Qed.

Lemma chunkJavaScriptCode_chunks lines filePath :
  Forall (isChunk filePath "javascript" (fun _ => true) jsDeclaration lines)
    (chunkJavaScriptCode lines filePath)
  /\ StronglySorted precedes (chunkJavaScriptCode lines filePath).
Proof.
  unfold chunkJavaScriptCode. cbv zeta.
  apply (declarations_chunks filePath "javascript" (fun _ => true)
           jsDeclaration).
  - done.
  - intros i line st type _. unfold jsDeclaration. exists 0.
    destruct (_ || _); [by injection H as <-|].
    destruct (regexp.MatchString _ _); [by injection H as <-|]. done.
  - intros i line st _. unfold jsDeclaration.
    destruct (_ || _); [done|].
    destruct (regexp.MatchString _ _); [done|].
    intros _. apply braces_continues.
Qed.

Lemma chunkPythonCode_chunks lines filePath :
  Forall (isChunk filePath "python" notBlank pyDeclaration lines)
    (chunkPythonCode lines filePath)
  /\ StronglySorted precedes (chunkPythonCode lines filePath).
Proof.
  unfold chunkPythonCode. cbv zeta.
  apply (declarations_chunks filePath "python" notBlank pyDeclaration).
  - intros i line st Hk. unfold notBlank in Hk.
    apply negb_false_iff in Hk. by rewrite Hk.
  - intros i line st type Hk. unfold notBlank in Hk.
    apply negb_true_iff in Hk. rewrite Hk. unfold pyDeclaration.
    eexists.
    repeat (destruct (regexp.MatchString _ _); [by injection H as <-|]).
    done.
  - intros i line st Hk. unfold notBlank in Hk.
    apply negb_true_iff in Hk. rewrite Hk. unfold pyDeclaration.
    repeat (destruct (regexp.MatchString _ _); [done|]).
    intros _. apply indented_continues.
Qed.

(** What a chunk of a chunker that cuts at declarations is, in the
    words of the file: [writes] tells the lines that go to the
    buffer. *)
Definition declaredChunk (lines : list string) (filePath language : string)
    (writes : string -> bool) (declares : string -> option string)
    (c : SemanticCodeChunk) : Prop :=
  0 <= StartLine c <= EndLine c
  /\ EndLine c < Z.of_nat (length lines)
  /\ (exists line, lines !! Z.to_nat (StartLine c) = Some line
                   /\ declares (TrimSpace line) = Some (Type_ c))
  /\ Content c
     = textOf (filter writes (window lines (StartLine c) (EndLine c)))
  /\ ID c = filePath +:+ ":" +:+ Itoa (StartLine c + 1)
            +:+ "-" +:+ Itoa (EndLine c + 1)
  /\ FileName c = filePath
  /\ Language c = language.

Lemma isChunk_declared lines filePath language writes declares c :
  isChunk filePath language writes declares lines c ->
  declaredChunk lines filePath language writes declares c.
Proof.
  intros (s & e & type & Hse & (line & Hl & Hk & Hc) & ->).
  unfold declaredChunk. simpl. rewrite Nat2Z.id.
  assert (Hw : window lines (Z.of_nat s) (Z.of_nat e)
               = drop s (take (S e) lines)).
  { unfold window. rewrite Nat2Z.id.
    replace (Z.to_nat (Z.of_nat e + 1 - Z.of_nat s)) with (S e - s)%nat by lia.
    rewrite take_drop_commute. f_equal. f_equal. lia. }
  rewrite Hw. split; [lia|]. split; [lia|]. split; [by exists line|]. done.
Qed.

Lemma filter_all {A} (l : list A) : filter (fun _ => true) l = l.
Proof.
  induction l as [|x l IH]; [done|]. rewrite filter_cons_True by done.
  by rewrite IH.
Qed.

(** X11. Every chunk of [chunkGoCode] begins at a declaration: the line
    [StartLine] matches the pattern of a function, a struct or an
    interface, tried in this order, and the type of the chunk says
    which. The content of the chunk is the text of the lines [StartLine]
    to [EndLine]; what comes before the first declaration is in no
    chunk. *)
Theorem go_chunks_start_at_declarations (lines : list string)
    (filePath : string) :
  Forall (fun c =>
            0 <= StartLine c <= EndLine c
            /\ EndLine c < Z.of_nat (length lines)
            /\ (exists line,
                   lines !! Z.to_nat (StartLine c) = Some line
                   /\ goDeclaration (TrimSpace line) = Some (Type_ c))
            /\ Content c = textOf (window lines (StartLine c) (EndLine c))
            /\ ID c = filePath +:+ ":" +:+ Itoa (StartLine c + 1)
                      +:+ "-" +:+ Itoa (EndLine c + 1)
            /\ FileName c = filePath
            /\ Language c = "go")
    (chunkGoCode lines filePath).
Proof.
  destruct (chunkGoCode_chunks lines filePath) as [H _].
  eapply Forall_impl; [exact H|]. intros c Hc.
  apply isChunk_declared in Hc. unfold declaredChunk in Hc.
  by rewrite filter_all in Hc.
Qed.

(** X12. Every chunk of [chunkJavaScriptCode] begins at a declaration
    (a function, an arrow function bound by [const], or a class) and
    holds the text of its lines [StartLine] to [EndLine]. *)
Theorem javascript_chunks_start_at_declarations (lines : list string)
    (filePath : string) :
  Forall (fun c =>
            0 <= StartLine c <= EndLine c
            /\ EndLine c < Z.of_nat (length lines)
            /\ (exists line,
                   lines !! Z.to_nat (StartLine c) = Some line
                   /\ jsDeclaration (TrimSpace line) = Some (Type_ c))
            /\ Content c = textOf (window lines (StartLine c) (EndLine c))
            /\ ID c = filePath +:+ ":" +:+ Itoa (StartLine c + 1)
                      +:+ "-" +:+ Itoa (EndLine c + 1)
            /\ FileName c = filePath
            /\ Language c = "javascript")
    (chunkJavaScriptCode lines filePath).
Proof.
  destruct (chunkJavaScriptCode_chunks lines filePath) as [H _].
  eapply Forall_impl; [exact H|]. intros c Hc.
  apply isChunk_declared in Hc. unfold declaredChunk in Hc.
  by rewrite filter_all in Hc.
Qed.

(** X13. Every chunk of [chunkPythonCode] begins at a [def] or a
    [class] line, and its content is the text of the lines [StartLine]
    to [EndLine] that are not blank: the blank lines of a chunk are
    counted in its span and left out of its content. *)
Theorem python_chunks_leave_out_blank_lines (lines : list string)
    (filePath : string) :
  Forall (fun c =>
            0 <= StartLine c <= EndLine c
            /\ EndLine c < Z.of_nat (length lines)
            /\ (exists line,
                   lines !! Z.to_nat (StartLine c) = Some line
                   /\ pyDeclaration (TrimSpace line) = Some (Type_ c))
            /\ Content c
               = textOf (filter (fun line => TrimSpace line <> "")
                           (window lines (StartLine c) (EndLine c)))
            /\ ID c = filePath +:+ ":" +:+ Itoa (StartLine c + 1)
                      +:+ "-" +:+ Itoa (EndLine c + 1)
            /\ FileName c = filePath
            /\ Language c = "python")
    (chunkPythonCode lines filePath).
Proof.
  destruct (chunkPythonCode_chunks lines filePath) as [H _].
  eapply Forall_impl; [exact H|]. intros c Hc.
  apply isChunk_declared in Hc. unfold declaredChunk in Hc.
  destruct Hc as (H1 & H2 & H3 & H4 & H5).
  split; [done|]. split; [done|]. split; [done|]. split; [|done].
  rewrite H4. f_equal. apply list_filter_iff. intros line.
  unfold notBlank. rewrite negb_True.
  by rewrite Is_true_true, String.eqb_eq.
Qed.

(** X14. The chunks of the chunkers that cut at declarations come in
    the order of the file and do not overlap. *)
Theorem declaration_chunks_in_file_order (lines : list string)
    (filePath : string) :
  StronglySorted (fun c1 c2 => EndLine c1 < StartLine c2)
    (chunkGoCode lines filePath)
  /\ StronglySorted (fun c1 c2 => EndLine c1 < StartLine c2)
       (chunkJavaScriptCode lines filePath)
  /\ StronglySorted (fun c1 c2 => EndLine c1 < StartLine c2)
       (chunkPythonCode lines filePath).
Proof.
  split; [apply chunkGoCode_chunks|].
  split; [apply chunkJavaScriptCode_chunks|apply chunkPythonCode_chunks].
Qed.

(** X15. [chunkCode] labels the chunks of a TypeScript file as
    JavaScript; the chunks of every other language carry the language
    that was passed. *)
Theorem typescript_chunks_labelled_javascript
    (content filePath language : string) :
  Forall (fun c =>
            Language c
            = if String.eqb language "typescript" then "javascript"
              else language)
    (chunkCode content filePath language).
Proof.
  assert (Hd : forall lines lang writes declares cs,
             Forall (isChunk filePath lang writes declares lines) cs ->
             Forall (fun c => Language c = lang) cs).
  { intros lines lang writes declares cs H.
    eapply Forall_impl; [exact H|]. intros c Hc.
    apply isChunk_declared in Hc. apply Hc. }
  unfold chunkCode. cbv zeta.
  destruct (String.eqb_spec language "go") as [->|_].
  { eapply Hd, chunkGoCode_chunks. }
  destruct (String.eqb_spec language "javascript") as [->|_].
  { eapply Hd, chunkJavaScriptCode_chunks. }
  destruct (String.eqb_spec language "typescript") as [->|_].
  { eapply Hd, chunkJavaScriptCode_chunks. }
  simpl. destruct (String.eqb_spec language "python") as [->|_].
  { eapply Hd, chunkPythonCode_chunks. }
  destruct (chunkGenericCode_blocks filePath language (Split content nl))
    as [H _].
  eapply Forall_impl; [exact H|].
  by intros c (s & e & _ & _ & _ & ->).
Qed.

(** X9. Every chunk of [chunkGenericCode] is a window of the file: its
    content is the text of the lines [StartLine] to [EndLine] (counted
    from 0), which are at most 101 lines and more than 50 bytes; its ID
    names the same lines counted from 1. *)
Theorem generic_chunks_are_line_windows (lines : list string)
    (filePath language : string) :
  Forall (fun c =>
            0 <= StartLine c <= EndLine c
            /\ EndLine c < Z.of_nat (length lines)
            /\ EndLine c - StartLine c <= 100
            /\ Content c = textOf (window lines (StartLine c) (EndLine c))
            /\ (50 < len (Content c))%nat
            /\ ID c = filePath +:+ ":" +:+ Itoa (StartLine c + 1)
                      +:+ "-" +:+ Itoa (EndLine c + 1)
            /\ FileName c = filePath
            /\ Type_ c = "block"
            /\ Language c = language)
    (chunkGenericCode lines filePath language).
Proof.
  destruct (chunkGenericCode_blocks filePath language lines) as [H _].
  eapply Forall_impl; [exact H|].
  intros c (s & e & Hse & Hlen & Hbytes & ->). simpl.
  assert (Hw : window lines (Z.of_nat s) (Z.of_nat e)
               = drop s (take (S e) lines)).
  { unfold window. rewrite Nat2Z.id.
    replace (Z.to_nat (Z.of_nat e + 1 - Z.of_nat s)) with (S e - s)%nat by lia.
    rewrite take_drop_commute. f_equal. f_equal. lia. }
  rewrite Hw. repeat split; try done; lia.
Qed.

(** X10. The chunks of [chunkGenericCode] come in the order of the file
    and do not overlap. *)
Theorem generic_chunks_in_file_order (lines : list string)
    (filePath language : string) :
  StronglySorted (fun c1 c2 => EndLine c1 < StartLine c2)
    (chunkGenericCode lines filePath language).
Proof. apply (chunkGenericCode_blocks filePath language lines). Qed.

End IndexerFacts.

(** *** The batches of [IndexCodebase] *)

#[local] Opaque Nat.mul.

Lemma batchesFrom_spec (n k : nat) (chunks : list SemanticCodeChunk) :
  (length chunks <= 50 * (k + n))%nat ->
  let bs := batchesFrom n 50 (Z.of_nat (50 * k)) chunks in
  concat bs = drop (50 * k) chunks
  /\ Forall (fun b => (1 <= length b <= 50)%nat) bs
  /\ forall j b, bs !! j = Some b ->
                 b = take 50 (drop (50 * (k + j)) chunks).
Proof.
  revert k. induction n as [|n IH]; intros k Hn; cbv zeta.
  - simpl. split; [|by split]. rewrite drop_ge; [done|lia].
  - cbn [batchesFrom].
    destruct (Z.ltb_spec (Z.of_nat (50 * k)) (Z.of_nat (length chunks)))
      as [Hlt|Hge].
    2:{ split; [|by split]. rewrite drop_ge; [done|lia]. }
    replace (Z.of_nat (50 * k) + 50) with (Z.of_nat (50 * S k)) by lia.
    destruct (IH (S k)) as (Hc & Hl & Hj); [lia|].
    set (rest := batchesFrom n 50 (Z.of_nat (50 * S k)) chunks) in *.
    rewrite Nat2Z.id.
    assert (Hb : take
                   (Z.to_nat
                      ((if Z.of_nat (length chunks) <? Z.of_nat (50 * S k)
                        then Z.of_nat (length chunks)
                        else Z.of_nat (50 * S k)) - Z.of_nat (50 * k)))
                   (drop (50 * k) chunks)
                 = take 50 (drop (50 * k) chunks)).
    { destruct (Z.ltb_spec (Z.of_nat (length chunks)) (Z.of_nat (50 * S k))).
      - rewrite !take_ge; [done| |]; rewrite length_drop; lia.
      - f_equal. lia. }
    rewrite Hb. split; [|split].
    + simpl. rewrite Hc.
      replace (50 * S k)%nat with (50 * k + 50)%nat by lia.
      rewrite <- drop_drop. apply take_drop.
    + constructor; [|done]. rewrite length_take, length_drop. lia.
    + intros [|j] b; simpl.
      * intros [= <-]. by rewrite Nat.add_0_r.
      * intros H. apply Hj in H.
        by replace (k + S j)%nat with (S k + j)%nat by lia.
Qed.

#[local] Transparent Nat.mul.

(** X16. [IndexCodebase] indexes the chunks in batches of 50: the
    batches, one after the other, are the chunks; no batch is empty, and
    the batch [j] is the chunks [50 j] to [50 j + 49], as far as they
    exist. *)
Theorem index_batches_partition (chunks : list SemanticCodeChunk) :
  concat (batches chunks) = chunks
  /\ Forall (fun b => (1 <= length b <= 50)%nat) (batches chunks)
  /\ forall j b, batches chunks !! j = Some b ->
                 b = take 50 (drop (50 * j) chunks).
Proof.
  pose proof (batchesFrom_spec (length chunks) 0 chunks ltac:(lia)) as H.
  cbv zeta in H. exact H.
Qed.

(** ** The keyword server *)

Section KeywordHandlerFacts.

Context {U : Unicode} {Q : Type}.

Implicit Types (rt : @Runtime Q) (s : @NLQueryServer Q).

(** The request does not reach the vector store: there is none, or the
    mode asks for the keyword search only. *)
Definition keywordOnly s (r : Request) : Prop :=
  semanticSearch s = None
  \/ (mode r <> "" /\ mode r <> "semantic" /\ mode r <> "hybrid").

Lemma semanticRetrieve_keywordOnly s (r : Request) nlQuery :
  keywordOnly s r ->
  semanticRetrieve s nlQuery (if String.eqb (mode r) "" then "hybrid" else mode r)
  = pure (Ok []).
Proof.
  unfold semanticRetrieve. intros [->|(H1 & H2 & H3)]; [done|].
  destruct (semanticSearch s); [|done].
  apply String.eqb_neq in H1, H2, H3. by rewrite H1, H2, H3.
Qed.

Lemma countResults_not_yesno s nlQuery queryType result :
  queryType <> "yesno" ->
  KeywordHandlers.countResults s nlQuery queryType result
  = andThen (countResults s nlQuery queryType result) (fun c => pure (Ok c)).
Proof.
  intros Hne. apply String.eqb_neq in Hne.
  unfold KeywordHandlers.countResults, countResults.
  destruct result as [res|]; [|done]. by rewrite Hne.
Qed.

Lemma searchResponse_mode rt s nlQuery searchMode t result err c :
  let rh := keywordResponse rt s nlQuery searchMode t [] result err c in
  let rk := KeywordHandlers.searchResponse rt nlQuery t result err c in
  statusCode rh = statusCode rk /\ delete "mode" (body rh) = body rk.
Proof.
  cbv zeta. split; [done|].
  unfold keywordResponse, KeywordHandlers.searchResponse. cbn [body].
  rewrite andb_false_r. cbn [length Nat.ltb Nat.leb andb].
  unfold object. cbn [list_to_map foldr fst snd].
  destruct err as [e|].
  - rewrite delete_insert_ne by done.
    rewrite !(delete_insert_ne _ "mode") by done.
    rewrite delete_insert_eq.
    rewrite !(delete_insert_ne _ "mode") by done.
    by rewrite delete_empty.
  - rewrite !(delete_insert_ne _ "mode") by done.
    rewrite delete_insert_eq.
    rewrite !(delete_insert_ne _ "mode") by done.
    by rewrite delete_empty.
Qed.

Lemma translate_answer rt s nlQuery directQuery response :
  (translate rt s nlQuery directQuery).1 = Ok (inl response) ->
  exists directAnswer intent,
    response = directAnswerResponse rt nlQuery directAnswer intent.
Proof.
  unfold translate. destruct directQuery; [done|].
  destruct (enabled _); cbn [negb]; [|done].
  rewrite andThen_fst. cbn [call fst].
  destruct (TranslateWithOpenRouter _ _) as [e|zq i|msg]; [done| |done].
  destruct (String.eqb zq ""); [done|].
  destruct (HasPrefix zq _); [|done]. simpl. intros [= <-]. eauto.
Qed.

Lemma keywordPath_keyword rt s nlQuery searchMode t :
  queryType t <> "yesno" ->
  let hybrid := keywordPath rt s nlQuery searchMode t [] in
  let keyword :=
    match Parse rt (zoektQuery t) with
    | inr err =>
        pure (Responded (parseErrorResponse nlQuery (zoektQuery t) err))
    | inl parsedQuery =>
        match searcher s with
        | None => pure (Panicked "nil pointer dereference")
        | Some sr =>
            andThen (call (CallSearch parsedQuery searchOpts)
                       (Search sr parsedQuery searchOpts))
              (fun r =>
                 let '(result, err) := r in
                 andThen
                   (KeywordHandlers.countResults s nlQuery (queryType t) result)
                   (fun c =>
                      match c with
                      | Panic msg => pure (Panicked msg)
                      | Ok c =>
                          pure (Responded
                                  (KeywordHandlers.searchResponse rt nlQuery t
                                     result err c))
                      end))
        end
    end in
  hybrid.2 = keyword.2
  /\ match hybrid.1, keyword.1 with
     | Responded rh, Responded rk =>
         statusCode rh = statusCode rk
         /\ delete "mode" (body rh) = body rk
     | Panicked mh, Panicked mk => mh = mk
     | _, _ => False
     end.
Proof.
  intros Hne. cbv zeta. unfold keywordPath. rewrite andb_false_r.
  destruct (Parse rt (zoektQuery t)) as [parsedQuery|err].
  - destruct (searcher s) as [sr|]; [|done].
    rewrite !andThen_fst, !andThen_snd. cbn [call fst snd].
    destruct (Search sr parsedQuery searchOpts) as [result err].
    rewrite countResults_not_yesno by done.
    repeat first [rewrite andThen_fst | rewrite andThen_snd
                 | progress cbn [pure call fst snd]].
    rewrite !app_nil_r. split; [done|]. apply searchResponse_mode.
  - cbn [length Nat.ltb Nat.leb pure fst snd]. split; [done|].
    split; [done|]. unfold parseErrorResponse, object.
    cbn [body list_to_map foldr fst snd].
    rewrite !(delete_insert_ne _ "mode") by done. by rewrite delete_empty.
Qed.

(** X17. A request that does not reach the vector store gets from the
    hybrid server what the keyword server answers, with the field [mode]
    added: the same calls, the same status and, but for [mode], the same
    body. The question must not be translated to a yes/no query, for
    which the two servers extract different snippets. *)
Theorem hybrid_keyword_only_is_keyword_server rt s (r : Request) :
  keywordOnly s r ->
  (forall t,
      (translate rt s (q r) (String.eqb (direct r) "true")).1 = Ok (inr t) ->
      queryType t <> "yesno") ->
  let hybrid := HandleSearch rt s r in
  let keyword := KeywordHandlers.HandleSearch rt s r in
  hybrid.2 = keyword.2
  /\ match hybrid.1, keyword.1 with
     | Responded rh, Responded rk =>
         statusCode rh = statusCode rk
         /\ delete "mode" (body rh) = body rk
     | Panicked mh, Panicked mk => mh = mk
     | _, _ => False
     end.
Proof.
  intros Hk Hyn. cbv zeta. unfold HandleSearch, KeywordHandlers.HandleSearch.
  destruct (String.eqb (q r) "").
  { cbn [pure fst snd]. split; [done|]. split; [done|].
    unfold object. cbn [body list_to_map foldr fst snd].
    rewrite !(delete_insert_ne _ "mode") by done. by rewrite delete_empty. }
  rewrite !andThen_fst, !andThen_snd.
  destruct (translate rt s (q r) (String.eqb (direct r) "true"))
    as [[[response|t]|msg] log] eqn:E; cbn [fst snd]; [| |done].
  - split; [done|]. split; [done|].
    destruct (translate_answer rt s (q r) (String.eqb (direct r) "true")
                response) as (a & i & ->); [by rewrite E|].
    unfold directAnswerResponse, object.
    cbn [body list_to_map foldr fst snd].
    rewrite !(delete_insert_ne _ "mode") by done. by rewrite delete_empty.
  - rewrite semanticRetrieve_keywordOnly by done.
    rewrite andThen_fst, andThen_snd. cbn [pure fst snd app].
    assert (Hne : queryType t <> "yesno") by (by apply Hyn).
    destruct (keywordPath_keyword rt s (q r)
                (if String.eqb (mode r) "" then "hybrid" else mode r) t Hne)
      as [Hlog Hout].
    split; [by rewrite Hlog|]. exact Hout.
Qed.

(** *** [HandleAsk] *)

Lemma extraction_ok (res : zoekt.SearchResult) (maxFiles : Z) :
  0 < maxFiles ->
  exists snippets,
    KeywordServer.extractAnswerSnippets res maxFiles = Ok snippets
    /\ Z.of_nat (length snippets) <= maxFiles.
Proof.
  intros Hm.
  destruct (extraction_within_budget res maxFiles) as (st & _ & E & _ & _ & _ & Hl);
    [lia|].
  eexists. split; [exact E|]. rewrite length_map. lia.
Qed.

(** What [findCode] returns: nothing without the translator, after an
    error of the translation, for a direct answer or for a query that
    does not parse; else the result of the one search. *)
Inductive CodeFound rt s (question : string)
  : string * option zoekt.SearchResult * option string
    -> list (@Call Q) -> Prop :=
  | NotEnabled :
      enabled (openRouterTranslator s) = false ->
      CodeFound rt s question ("", None, None) []
  | NoQuery zoektQuery searchErr :
      enabled (openRouterTranslator s) = true ->
      (zoektQuery = ""
       \/ exists intent,
            TranslateWithOpenRouter (openRouterTranslator s) question
            = TranslateOk zoektQuery intent) ->
      CodeFound rt s question (zoektQuery, None, searchErr)
        [CallTranslateWithOpenRouter question]
  | Searched zoektQuery intent parsedQuery sr searchResult searchErr :
      enabled (openRouterTranslator s) = true ->
      TranslateWithOpenRouter (openRouterTranslator s) question
      = TranslateOk zoektQuery intent ->
      HasPrefix zoektQuery "DIRECT_ANSWER:" = false ->
      Parse rt zoektQuery = inl parsedQuery ->
      searcher s = Some sr ->
      Search sr parsedQuery KeywordHandlers.askOpts
      = (searchResult, searchErr) ->
      CodeFound rt s question (zoektQuery, searchResult, searchErr)
        [CallTranslateWithOpenRouter question;
         CallSearch parsedQuery KeywordHandlers.askOpts].

Lemma findCode_found rt s question found log :
  KeywordHandlers.findCode rt s question = (Ok found, log) ->
  CodeFound rt s question found log.
Proof.
  unfold KeywordHandlers.findCode.
  destruct (enabled (openRouterTranslator s)) eqn:Hen.
  2:{ intros [= <- <-]. by constructor. }
  unfold andThen, call.
  destruct (TranslateWithOpenRouter _ question) as [e|zq i|msg] eqn:Ht;
    [| |done].
  { intros [= <- <-]. constructor; [done|]. by left. }
  destruct (String.eqb_spec zq "") as [->|Hne]; cbn [negb].
  { intros [= <- <-]. constructor; [done|]. by left. }
  destruct (HasPrefix zq "DIRECT_ANSWER:") eqn:Hd; cbn [negb].
  { intros [= <- <-]. constructor; [done|]. by left. }
  destruct (Parse rt zq) as [pq|e] eqn:Hp.
  2:{ intros [= <- <-]. constructor; [done|]. right. eauto. }
  destruct (searcher s) as [sr|] eqn:Hs; [|done].
  destruct (Search sr pq KeywordHandlers.askOpts) as [res err] eqn:Hsr.
  unfold pure.
  destruct err as [e|]; [|destruct res as [res|]; [|done]];
    intros [= <- <-]; by econstructor.
Qed.

Lemma answerFrom_no_result rt s question zoektQuery :
  enabled (openRouterTranslator s) = true ->
  KeywordHandlers.answerFrom rt s question zoektQuery None
  = pure (Responded
            (KeywordHandlers.askError KeywordHandlers.StatusInternalServerError
               ("Failed to generate answer: "
                +:+ "no code snippets available for answering") question)).
Proof. intros Hen. unfold KeywordHandlers.answerFrom. by rewrite Hen. Qed.

(** The answer and the calls of [answerFrom] over a result. *)
Lemma answerFrom_result rt s question zoektQuery res :
  enabled (openRouterTranslator s) = true ->
  let out := KeywordHandlers.answerFrom rt s question zoektQuery (Some res) in
  (exists message,
      out = pure (Responded
                    (KeywordHandlers.askError
                       KeywordHandlers.StatusInternalServerError
                       message question)))
  \/ (exists message snippets,
        out = (Responded
                 (KeywordHandlers.askError
                    KeywordHandlers.StatusInternalServerError
                    message question),
               [CallAnswerFromSnippets question snippets]))
  \/ (exists snippets,
        KeywordServer.extractAnswerSnippets res 10 = Ok snippets
        /\ (1 <= length snippets <= 10)%nat
        /\ AnswerFromSnippets (openRouterTranslator s) question snippets <> ""
        /\ out
           = (Responded
                {| statusCode := StatusOK;
                   body := object
                     [("question", JString question);
                      ("answer",
                       JString (AnswerFromSnippets (openRouterTranslator s)
                                  question snippets));
                      ("success", JBool true);
                      ("responseTime", JInt (sinceStartMs rt));
                      ("type", JString "text_answer");
                      ("queryUsed", JString zoektQuery);
                      ("filesFound",
                       JInt (Z.of_nat (length (zoekt.Files res))))] |},
              [CallAnswerFromSnippets question snippets])).
Proof.
  intros Hen. cbv zeta. unfold KeywordHandlers.answerFrom. rewrite Hen.
  destruct (0 <? length (zoekt.Files res))%nat; [|left; eauto].
  destruct (extraction_ok res 10) as (snippets & -> & Hlen); [lia|].
  destruct (Nat.ltb_spec 0 (length snippets)) as [Hpos|Hz]; [|left; eauto].
  unfold andThen, call, pure.
  destruct (String.eqb_spec (AnswerFromSnippets (openRouterTranslator s)
                               question snippets) "") as [He|Hne].
  - right; left. eauto.
  - right; right. exists snippets. split; [done|]. split; [lia|]. done.
Qed.

(** X18. [HandleAsk] answers with status 200 only an answer of the
    completion service: the translator gave a query that parsed, the
    search for it gave a result (an error of the search is not looked
    at), the extraction gave one to ten snippets, and the answer to the
    question from these snippets is not empty. The calls are these
    three, in this order. *)
Theorem ask_answers_from_snippets rt s (question : string)
    (response : Response) (log : list (@Call Q)) :
  KeywordHandlers.HandleAsk rt s question = (Responded response, log) ->
  statusCode response = StatusOK ->
  exists zoektQuery intent parsedQuery sr res searchErr snippets,
    TranslateWithOpenRouter (openRouterTranslator s) question
    = TranslateOk zoektQuery intent
    /\ Parse rt zoektQuery = inl parsedQuery
    /\ searcher s = Some sr
    /\ Search sr parsedQuery KeywordHandlers.askOpts = (Some res, searchErr)
    /\ KeywordServer.extractAnswerSnippets res 10 = Ok snippets
    /\ (1 <= length snippets <= 10)%nat
    /\ AnswerFromSnippets (openRouterTranslator s) question snippets <> ""
    /\ log = [CallTranslateWithOpenRouter question;
              CallSearch parsedQuery KeywordHandlers.askOpts;
              CallAnswerFromSnippets question snippets]
    /\ body response
       = object
           [("question", JString question);
            ("answer",
             JString (AnswerFromSnippets (openRouterTranslator s)
                        question snippets));
            ("success", JBool true);
            ("responseTime", JInt (sinceStartMs rt));
            ("type", JString "text_answer");
            ("queryUsed", JString zoektQuery);
            ("filesFound", JInt (Z.of_nat (length (zoekt.Files res))))].
Proof.
  unfold KeywordHandlers.HandleAsk.
  destruct (String.eqb question ""); [by intros [= <- <-]|].
  destruct (KeywordHandlers.findCode rt s question) as [[found|msg] l] eqn:E;
    [|by unfold andThen].
  apply findCode_found in E. unfold andThen.
  destruct E as [Hen|zq err Hen _|zq i pq sr res err Hen Ht Hd Hp Hs Hsr].
  - unfold KeywordHandlers.answerFrom. rewrite Hen. by intros [= <- <-].
  - rewrite answerFrom_no_result by done. by intros [= <- <-].
  - destruct res as [res|].
    2:{ rewrite answerFrom_no_result by done. by intros [= <- <-]. }
    destruct (answerFrom_result rt s question zq res Hen)
      as [[m ->]|[(m & sn & ->)|(sn & He & Hl & Ha & ->)]];
      try by intros [= <- <-].
    intros [= <- <-] _. exists zq, i, pq, sr, res, err, sn. done.
Qed.

(** X19. [HandleAsk] never passes on a direct answer of the translator:
    the text after [DIRECT_ANSWER:] is dropped, nothing is searched for,
    and the request fails with status 500. *)
Theorem ask_drops_direct_answer rt s (question zoektQuery : string)
    (intent : Intent.t) :
  question <> "" ->
  enabled (openRouterTranslator s) = true ->
  TranslateWithOpenRouter (openRouterTranslator s) question
  = TranslateOk zoektQuery intent ->
  HasPrefix zoektQuery "DIRECT_ANSWER:" = true ->
  KeywordHandlers.HandleAsk rt s question
  = (Responded
       {| statusCode := 500;
          body := object
            [("error",
              JString ("Failed to generate answer: "
                       +:+ "no code snippets available for answering"));
             ("success", JBool false);
             ("question", JString question)] |},
     [CallTranslateWithOpenRouter question]).
Proof.
  intros Hq Hen Ht Hd. unfold KeywordHandlers.HandleAsk.
  apply String.eqb_neq in Hq. rewrite Hq.
  unfold KeywordHandlers.findCode. rewrite Hen.
  unfold andThen at 2. unfold call. rewrite Ht, Hd.
  assert (Hne : String.eqb zoektQuery "" = false).
  { destruct zoektQuery; [done|done]. }
  rewrite Hne. cbn [negb pure]. unfold andThen.
  rewrite answerFrom_no_result by done. done.
Qed.

(** X20. The handlers of the keyword server ask for the snippets of 3
    and of 10 files, so the extraction never stops them: a handler
    panics only without a searcher, with the panic of the translator,
    which it does not recover from, or, in [HandleAsk], when the search
    returns neither a result nor an error. And a panic of the
    translator, where it is consulted, is the outcome of the handler. *)
Theorem keyword_handlers_panic_causes rt s :
  (forall (r : Request) msg log,
      KeywordHandlers.HandleSearch rt s r = (Panicked msg, log) ->
      searcher s = None
      \/ TranslateWithOpenRouter (openRouterTranslator s) (q r)
         = TranslatePanic msg)
  /\ (forall (question : string) msg log,
         KeywordHandlers.HandleAsk rt s question = (Panicked msg, log) ->
         searcher s = None
         \/ TranslateWithOpenRouter (openRouterTranslator s) question
            = TranslatePanic msg
         \/ exists sr parsedQuery,
              searcher s = Some sr
              /\ Search sr parsedQuery KeywordHandlers.askOpts = (None, None))
  /\ (forall (r : Request) msg,
         q r <> "" -> String.eqb (direct r) "true" = false ->
         enabled (openRouterTranslator s) = true ->
         TranslateWithOpenRouter (openRouterTranslator s) (q r)
         = TranslatePanic msg ->
         KeywordHandlers.HandleSearch rt s r
         = (Panicked msg, [CallTranslateWithOpenRouter (q r)])
         /\ HandleSearch rt s r
            = (Panicked msg, [CallTranslateWithOpenRouter (q r)]))
  /\ (forall (question : string) msg,
         question <> "" ->
         enabled (openRouterTranslator s) = true ->
         TranslateWithOpenRouter (openRouterTranslator s) question
         = TranslatePanic msg ->
         KeywordHandlers.HandleAsk rt s question
         = (Panicked msg, [CallTranslateWithOpenRouter question])).
Proof.
  split; [|split; [|split]].
  - intros r msg log. unfold KeywordHandlers.HandleSearch.
    destruct (String.eqb (q r) ""); [done|].
    unfold andThen at 1.
    destruct (translate rt s (q r) _) as [[[response|t]|msg'] l] eqn:E;
      [done| |].
    2:{ intros [= <- <-]. right. revert E. unfold translate.
        destruct (String.eqb (direct r) "true"); [done|].
        destruct (enabled _); cbn [negb]; [|done].
        unfold andThen, call.
        destruct (TranslateWithOpenRouter _ _) as [e|zq i|m]; [done| |].
        - destruct (String.eqb zq ""); [done|].
          by destruct (HasPrefix zq _).
        - by intros [= <- _]. }
    destruct (Parse rt (zoektQuery t)) as [pq|e]; [|done].
    destruct (searcher s) as [sr|]; [|by left].
    unfold andThen at 1. unfold call.
    destruct (Search sr pq searchOpts) as [result err].
    unfold KeywordHandlers.countResults.
    destruct result as [res|]; [|done].
    destruct (_ && _); [|done].
    destruct (extraction_ok res 3) as (snippets & -> & _); [lia|].
    destruct (0 <? length snippets)%nat; [|done].
    unfold andThen, call, pure. done.
  - intros question msg log. unfold KeywordHandlers.HandleAsk.
    destruct (String.eqb question ""); [done|].
    destruct (KeywordHandlers.findCode rt s question)
      as [[found|msg'] l] eqn:E.
    + apply findCode_found in E. unfold andThen.
      destruct E as [Hen|zq err Hen _|zq i pq sr res err Hen Ht Hd Hp Hs Hsr].
      * unfold KeywordHandlers.answerFrom. by rewrite Hen.
      * by rewrite answerFrom_no_result by done.
      * destruct res as [res|];
          [|by rewrite answerFrom_no_result by done].
        destruct (answerFrom_result rt s question zq res Hen)
          as [[m ->]|[(m & sn & ->)|(sn & _ & _ & _ & ->)]]; done.
    + unfold andThen, pure. intros [= <- _]. revert E.
      unfold KeywordHandlers.findCode.
      destruct (enabled _); [|done]. unfold andThen, call.
      destruct (TranslateWithOpenRouter _ _) as [e|zq i|m]; [done| |].
      2:{ intros [= <- _]. by right; left. }
      destruct (negb (String.eqb zq "")); [|done].
      destruct (negb (HasPrefix zq _)); [|done].
      destruct (Parse rt zq) as [pq|e]; [|done].
      destruct (searcher s) as [sr|] eqn:Hs; [|by left].
      destruct (Search sr pq KeywordHandlers.askOpts) as [res err] eqn:Hsr.
      destruct err as [e|]; [done|]. destruct res as [res|]; [done|].
      intros _. right; right. eauto.
  - intros r msg Hq Hd Hen Ht. apply String.eqb_neq in Hq.
    unfold KeywordHandlers.HandleSearch, HandleSearch.
    rewrite Hq, Hd. unfold translate. rewrite Hen. cbn [negb].
    unfold andThen, call, pure. by rewrite Ht.
  - intros question msg Hq Hen Ht. apply String.eqb_neq in Hq.
    unfold KeywordHandlers.HandleAsk, KeywordHandlers.findCode.
    rewrite Hq, Hen. unfold andThen, call, pure. by rewrite Ht.
Qed.

End KeywordHandlerFacts.

(** ** The translator: the query of the reply *)

(** A case for every test of the goal. *)
Ltac split_ifs :=
  repeat (cbn [orb andb negb];
          match goal with
          | |- context [if ?b then _ else _] =>
              lazymatch b with
              | true => fail
              | false => fail
              | _ => destruct b eqn:?
              end
          end).

Section ReplyFacts.

Context {U : Unicode}.

Local Open Scope nat_scope.

Variable FindAllString : string -> list string.
Variable parses : string -> bool.

Lemma keyTermsTwiceOr_once nlQuery :
  keyTermsTwiceOr nlQuery = keyTermsOr nlQuery.
Proof.
  unfold keyTermsTwiceOr, keyTermsOr.
  by destruct (0 <? length (extractKeyTerms nlQuery)).
Qed.

Lemma finishQuery_cases (zoektQuery nlQuery : string) :
  match finishQuery FindAllString parses zoektQuery nlQuery with
  | TranslateError _ =>
      zoektQuery = ""
      \/ (len (TrimSpace zoektQuery) <= 1
          /\ (keyTermsOr nlQuery = ""
              \/ len (TrimSpace (keyTermsOr nlQuery)) <= 1))
  | TranslateOk query intent =>
      ((query = validateAndFixQuery parses zoektQuery /\ zoektQuery <> "")
       \/ (query = validateAndFixQuery parses (keyTermsOr nlQuery)
           /\ keyTermsOr nlQuery <> "")
       \/ query = keyTermsOr nlQuery)
      /\ Intent.Query intent = query
      /\ Intent.Type_ intent = intentTypeOf nlQuery
  | TranslatePanic _ => False
  end.
Proof.
  unfold finishQuery. cbv zeta. rewrite !keyTermsTwiceOr_once.
  destruct (len (TrimSpace zoektQuery) <=? 1) eqn:Hshort;
    split_ifs; cbn [Intent.Query Intent.Type_]; try congruence;
    repeat match goal with
           | H : (_ <=? _) = true |- _ => apply Nat.leb_le in H
           | H : (_ =? _)%string = true |- _ => apply String.eqb_eq in H
           | H : _ || _ = true |- _ => apply orb_true_iff in H as [H|H]
           | H : _ || _ = false |- _ => apply orb_false_iff in H as [H ?]
           | H : (_ =? _)%string = false |- _ => apply String.eqb_neq in H
           end;
    auto 10.
  exfalso. apply Nat.leb_gt in Hshort. lia.
Qed.

(** X22. The query that the translator returns for a reply is the query
    of the reply after [validateAndFixQuery], or the key terms of the
    question joined by spaces (the question itself when it has no key
    terms), these also after [validateAndFixQuery] when they stand in for
    a query that is too short: what the pattern of query atoms finds in a
    long reply never reaches the result. The translation fails only for
    an empty query, or when both the query of the reply and this
    replacement are too short; these checks do not panic. *)
Theorem finish_query_cases (zoektQuery nlQuery : string) :
  match finishQuery FindAllString parses zoektQuery nlQuery with
  | TranslateError _ =>
      zoektQuery = ""
      \/ (len (TrimSpace zoektQuery) <= 1
          /\ (keyTermsOr nlQuery = ""
              \/ len (TrimSpace (keyTermsOr nlQuery)) <= 1))
  | TranslateOk query intent =>
      ((query = validateAndFixQuery parses zoektQuery /\ zoektQuery <> "")
       \/ (query = validateAndFixQuery parses (keyTermsOr nlQuery)
           /\ keyTermsOr nlQuery <> "")
       \/ query = keyTermsOr nlQuery)
      /\ Intent.Query intent = query
      /\ Intent.Type_ intent = intentTypeOf nlQuery
  | TranslatePanic _ => False
  end.
Proof. apply finishQuery_cases. Qed.

(** *** The query is not empty *)

(** The words of [Fields] are not empty. *)
Definition FieldsNotEmpty : Prop :=
  forall s, Forall (fun word => word <> "") (Fields s).

Lemma Join_not_empty x rest sep : x <> "" -> Join (x :: rest) sep <> "".
Proof. destruct x; [done|]. intros _. by destruct rest. Qed.

Lemma app_not_empty s t : s <> "" -> s +:+ t <> "".
Proof. by destruct s. Qed.

Lemma closeQuotes_not_empty q : q <> "" -> closeQuotes q <> "".
Proof.
  intros Hq. unfold closeQuotes, closeFileQuote, closeContentQuote.
  split_ifs; auto using app_not_empty.
Qed.

Lemma unwrapContent_not_empty q :
  FieldsNotEmpty -> q <> "" -> unwrapContent q <> "".
Proof.
  intros HF Hq. unfold unwrapContent.
  destruct (Contains q contentq); [|done].
  set (step := fun (cleanParts : list string) (part : string) => _).
  assert (H : forall parts acc,
             Forall (fun w => w <> "") parts ->
             Forall (fun w => w <> "") acc ->
             Forall (fun w => w <> "") (foldl step acc parts)).
  { induction parts as [|p parts IH]; intros acc Hp Hacc; [done|].
    apply Forall_cons in Hp as [Hp Hparts]. cbn [foldl]. apply IH; [done|].
    unfold step.
    destruct (HasPrefix p contentq).
    - destruct (String.eqb_spec (TrimSuffix (TrimPrefix p contentq) dq) "");
        cbn [negb]; [done|].
      apply Forall_app. split; [done|]. by apply Forall_singleton.
    - destruct (negb (HasPrefix p "content:")); [|done].
      apply Forall_app. split; [done|]. by apply Forall_singleton. }
  specialize (H (Fields q) [] (HF q) (Forall_nil_2 _)).
  destruct (foldl step [] (Fields q)) as [|x rest]; [done|].
  cbn [length Nat.ltb Nat.leb]. apply Forall_cons in H as [Hx _].
  by apply Join_not_empty.
Qed.

Lemma validateAndFixQuery_not_empty q :
  FieldsNotEmpty -> q <> "" -> validateAndFixQuery parses q <> "".
Proof.
  intros HF Hq. unfold validateAndFixQuery.
  pose proof (closeQuotes_not_empty q Hq).
  destruct (parses _); [done|]. by apply unwrapContent_not_empty.
Qed.

Lemma keyTermsOr_not_empty nlQuery : nlQuery <> "" -> keyTermsOr nlQuery <> "".
Proof.
  intros Hq. unfold keyTermsOr.
  destruct (extractKeyTerms_inv nlQuery) as (_ & _ & Hin). simpl in Hin.
  destruct (extractKeyTerms nlQuery) as [|t ts]; [done|].
  cbn [length Nat.ltb Nat.leb]. apply Join_not_empty.
  destruct (proj1 (Hin t) (list_elem_of_here _ _)) as [[_ Hlen] _].
  intros ->. simpl in Hlen. lia.
Qed.

(** X23. For a question that is not empty the translator never returns
    an empty query with its intent: the branch of [HandleSearch] for an
    empty query of a translation that did not fail is not needed for
    the queries of replies. [Fields] is assumed to return no empty
    word. *)
Theorem translated_query_not_empty (zoektQuery nlQuery query : string)
    (intent : Intent.t) :
  FieldsNotEmpty ->
  nlQuery <> "" ->
  finishQuery FindAllString parses zoektQuery nlQuery
  = TranslateOk query intent ->
  query <> "".
Proof.
  intros HF Hq E. pose proof (finishQuery_cases zoektQuery nlQuery) as H.
  rewrite E in H. destruct H as [[[-> Hz]|[[-> Hk]| ->]] _].
  - by apply validateAndFixQuery_not_empty.
  - by apply validateAndFixQuery_not_empty.
  - by apply keyTermsOr_not_empty.
Qed.

(** *** The reply that stops the translator *)

(** The line of the reply that is taken for the query, without what is
    put around it. *)
Definition pickedQuery (text : string) : string :=
  let zoektQuery := TrimSpace text in
  stripWrappers
    match queryLinesOf zoektQuery with
    | first :: _ => first
    | [] => zoektQuery
    end.

(** No word stands between the first [file:] of the query and the next
    one, or the end of the query: [parts[1]] of the split at [file:] has
    no field. *)
Definition bareFilePattern (query : string) : Prop :=
  Contains query "file:" = true
  /\ exists before after rest,
       Split query "file:" = before :: after :: rest /\ Fields after = [].

Lemma keepPattern_panics query :
  (exists msg, keepPattern query = Panic msg) <-> bareFilePattern query.
Proof.
  unfold keepPattern, bareFilePattern.
  destruct (Contains query "file:").
  - destruct (Split query "file:") as [|b [|a rest]]; cbn [length Nat.ltb Nat.leb].
    + split; [by intros [? ?]|]. by intros [_ (? & ? & ? & ? & _)].
    + split; [by intros [? ?]|]. by intros [_ (? & ? & ? & ? & _)].
    + unfold index. cbn [Z.ltb Z.compare].
      change (Z.to_nat 1) with 1%nat. change (Z.to_nat 0) with 0%nat.
      cbn [lookup list_lookup mbind Result_bind].
      destruct (Fields a) as [|w ws] eqn:HF; cbn [lookup list_lookup].
      * split; [|by eauto]. intros _. split; [done|]. by exists b, a, rest.
      * split.
        -- intros [msg H]. cbn [mbind Result_bind] in H.
           by destruct (_ && _).
        -- intros [_ (b' & a' & rest' & [= <- <- <-] & H)]. congruence.
  - split; [|by intros [? _]]. intros [msg H].
    destruct (200 <? len query); [|done].
    destruct (Fields query); [done|]. by destruct (200 <? len _).
Qed.

(** X24. The translation of a reply panics, with an index out of range,
    exactly when the line that is taken for the query holds [file:] and
    no word stands between the first [file:] and the next one, or the
    end of the line when there is no other: [Fields] finds no word in
    [parts[1]], and its first word is read. What follows a second
    [file:] does not matter. *)
Theorem reply_with_bare_file_pattern_panics (message : option Message)
    (nlQuery : string) :
  (exists msg,
      translateReply FindAllString parses message nlQuery = Panic msg)
  <-> replyText message <> ""
      /\ bareFilePattern (pickedQuery (replyText message)).
Proof.
  unfold translateReply. cbv zeta.
  destruct (String.eqb_spec (replyText message) "") as [He|Hne];
    cbn [negb mbind Result_bind].
  { split; [by intros [? ?]|]. by intros [? _]. }
  rewrite <- keepPattern_panics.
  change (cleanReply (replyText message))
    with (zoektQuery ← keepPattern (pickedQuery (replyText message));
          Ok (repairFileQuotes zoektQuery)).
  destruct (keepPattern (pickedQuery (replyText message))) as [z|msg];
    cbn [mbind Result_bind].
  - split; [by intros [? ?]|]. by intros [_ [? ?]].
  - split; [eauto|]. intros _. eauto.
Qed.

End ReplyFacts.

(** Two queries that stop the translator: one that ends in [file:], and
    one with a word behind its second [file:]. *)
Example bare_file_pattern_runs :
  keepPattern (U := AsciiText) "lang:go file:"
  = Panic "index out of range"
  /\ keepPattern (U := AsciiText) "lang:go file: file:x"
     = Panic "index out of range"
  /\ keepPattern (U := AsciiText) "lang:go file:x"
     = Ok "file:x".
Proof. repeat split; vm_compute; reflexivity. Qed.

(** *** The direct answer *)

Section DirectAnswerFacts.

Context {U : Unicode} {Q : Type}.

Lemma answerDirectly_answer (t : OpenRouterTranslator)
    (nlQuery relevantCodeSnippets zoektQuery : string) (intent : Intent.t)
    (log : list (@Call Q)) :
  answerDirectly t nlQuery relevantCodeSnippets
  = (Some (TranslateOk zoektQuery intent), log) ->
  exists cleanSnippets,
    let directAnswer := AnswerFromSnippets t nlQuery cleanSnippets in
    zoektQuery = "DIRECT_ANSWER:" +:+ directAnswer
    /\ (10 < len directAnswer)%nat
    /\ Intent.Type_ intent = "answer"
    /\ Intent.Query intent = directAnswer
    /\ log = [CallAnswerFromSnippets nlQuery cleanSnippets].
Proof.
  unfold answerDirectly. cbv zeta.
  destruct (_ && _); [|done].
  set (cleanSnippets := foldl _ [] _).
  destruct (0 <? length cleanSnippets)%nat; [|done].
  unfold andThen, call, pure.
  destruct (negb _ && (10 <? _)%nat) eqn:H; [|done].
  apply andb_true_iff in H as [_ H]. apply Nat.ltb_lt in H.
  intros [= <- <- <-]. by exists cleanSnippets.
Qed.

(** X25. A direct answer makes the round trip from the translator to the
    response: what [TranslateWithOpenRouter] returns for a question that
    it answers from the snippets is [DIRECT_ANSWER:] and the answer, of
    more than 10 bytes, and [HandleSearch] of either server returns this
    answer in [directAnswer] and [yesNoAnswer] without searching. *)
Theorem direct_answer_round_trip (rt : @Runtime Q) (s : @NLQueryServer Q)
    (r : Request) (relevantCodeSnippets zoektQuery : string)
    (intent : Intent.t) (log : list (@Call Q)) :
  q r <> "" ->
  String.eqb (direct r) "true" = false ->
  enabled (openRouterTranslator s) = true ->
  answerDirectly (openRouterTranslator s) (q r) relevantCodeSnippets
  = (Some (TranslateOk zoektQuery intent), log) ->
  TranslateWithOpenRouter (openRouterTranslator s) (q r)
  = TranslateOk zoektQuery intent ->
  exists directAnswer,
    zoektQuery = "DIRECT_ANSWER:" +:+ directAnswer
    /\ (10 < len directAnswer)%nat
    /\ Intent.Type_ intent = "answer"
    /\ HandleSearch rt s r
       = (Responded (directAnswerResponse rt (q r) directAnswer intent),
          [CallTranslateWithOpenRouter (q r)])
    /\ KeywordHandlers.HandleSearch rt s r
       = (Responded (directAnswerResponse rt (q r) directAnswer intent),
          [CallTranslateWithOpenRouter (q r)]).
Proof.
  intros Hq Hd Hen Ha Ht.
  apply answerDirectly_answer in Ha as (cs & -> & Hlen & Hty & _ & _).
  eexists. split; [reflexivity|]. split; [exact Hlen|]. split; [exact Hty|].
  apply String.eqb_neq in Hq.
  assert (Htr : translate rt s (q r) false
                = (Ok (inl (directAnswerResponse rt (q r)
                              (AnswerFromSnippets (openRouterTranslator s)
                                 (q r) cs)
                              intent)),
                   [CallTranslateWithOpenRouter (q r)])).
  { unfold translate. rewrite Hen. cbn [negb]. unfold andThen, call.
    rewrite Ht.
    set (a := AnswerFromSnippets (openRouterTranslator s) (q r) cs).
    assert (H1 : String.eqb ("DIRECT_ANSWER:" +:+ a) "" = false) by done.
    assert (H2 : HasPrefix ("DIRECT_ANSWER:" +:+ a) "DIRECT_ANSWER:" = true)
      by (apply GoStringsFacts.HasPrefix_spec; eauto).
    assert (H3 : TrimPrefix ("DIRECT_ANSWER:" +:+ a) "DIRECT_ANSWER:" = a).
    { unfold TrimPrefix. rewrite H2. apply GoStringsFacts.sliceFrom_app. }
    rewrite H1, H2, H3. reflexivity. }
  unfold HandleSearch, KeywordHandlers.HandleSearch.
  rewrite Hq, Hd, Htr. split; reflexivity.
Qed.

End DirectAnswerFacts.

(** ** Rounding in any format *)

Section RoundingFacts.

Variables prec emax : Z.

Lemma shr_fexp_sign m e l :
  0 <= m -> 0 <= shr_m (fst (shr_fexp prec emax m e l)).
Proof.
  intros H. unfold shr_fexp, shr.
  assert (H0 : 0 <= shr_m (shr_record_of_loc m l))
    by (destruct l as [|[]]; exact H).
  destruct (fexp prec emax (Zdigits2 m + e) - e); simpl; auto.
  apply F32Facts.iter_shr_1_nonneg, H0.
Qed.

(** The sign of a number that is no NaN: [s], or nothing to say for a
    NaN. *)
Definition hasSign (s : bool) (x : spec_float) : Prop :=
  match x with
  | S754_zero s' | S754_infinity s' | S754_finite s' _ _ => s' = s
  | S754_nan => False
  end.

Lemma round_aux_sign s m e l :
  0 <= m -> hasSign s (binary_round_aux prec emax s m e l).
Proof.
  intros H. unfold binary_round_aux.
  pose proof (shr_fexp_sign m e l H) as H1.
  destruct (shr_fexp prec emax m e l) as [mrs' e'] eqn:E1. simpl in H1.
  pose proof (shr_fexp_sign
                (round_nearest_even (shr_m mrs') (loc_of_shr_record mrs'))
                e' loc_Exact
                (F32Facts.round_nearest_even_nonneg _ _ H1)) as H2.
  destruct (shr_fexp prec emax _ e' loc_Exact) as [mrs'' e''] eqn:E2.
  simpl in H2.
  destruct (shr_m mrs'') as [|p|p]; try reflexivity; try lia.
  destruct (e'' <=? emax - prec); reflexivity.
Qed.

Lemma round_sign s m e : hasSign s (binary_round prec emax s m e).
Proof.
  unfold binary_round. destruct (shl_align m e _) as [mz ez].
  apply round_aux_sign. lia.
Qed.

(** The sum of two numbers that are not negative is not negative. *)
Lemma add_sign x y :
  hasSign false x -> hasSign false y -> hasSign false (SFadd prec emax x y).
Proof.
  destruct x as [sx|sx| |sx mx ex], y as [sy|sy| |sy my ey]; simpl;
    try done; intros -> ->; try done.
  unfold binary_normalize. simpl.
  apply round_sign.
Qed.

(** So is the quotient of a positive number and a number that is not
    negative. *)
Lemma div_sign mx ex y :
  hasSign false y ->
  hasSign false (SFdiv prec emax (S754_finite false mx ex) y).
Proof.
  destruct y as [sy|sy| |sy my ey]; simpl; try done; intros ->; try done.
  unfold SFdiv_core_binary.
  set (m' := match _ - _ - _ with 0 => _ | Z.pos _ => _ | Z.neg _ => _ end).
  assert (Hm : 0 <= m').
  { subst m'. destruct (_ - _ - _); try lia. apply Z.shiftl_nonneg. lia. }
  pose proof (Z_div_mod m' (Z.pos my) ltac:(lia)) as Hd.
  destruct (Z.div_eucl m' (Z.pos my)) as [q r] eqn:E.
  apply round_aux_sign. destruct Hd as [Hq Hr]. nia.
Qed.

End RoundingFacts.

(** ** Semantic search: the results of a reply *)

Section SimilarityFacts.

Import F32.

(** A distance that is a number and not below zero. *)
Definition notNegative (distance : spec_float) : Prop :=
  is_nan distance = false /\ SFltb distance (S754_zero false) = false.

Lemma notNegative_sign distance :
  notNegative distance ->
  (exists s, distance = S754_zero s) \/ hasSign false distance.
Proof.
  intros [Hn Hl]. destruct distance as [s|s| |s m e]; try discriminate.
  - left. eauto.
  - destruct s; [cbv in Hl; discriminate|by right].
  - destruct s; [cbv in Hl; discriminate|by right].
Qed.

Lemma float32Of_sign x : hasSign false x -> hasSign false (float32Of x).
Proof.
  destruct x as [s|s| |s m e]; simpl; try done. intros ->. simpl.
  apply round_sign.
Qed.

Lemma clamp_in_unit (p : float32) :
  hasSign false p -> in_unit (if gtb p one then one else p).
Proof.
  intros Hp. destruct (gtb p one) eqn:G; [split; reflexivity|].
  unfold gtb, SFltb in G. unfold in_unit, leb, SFleb.
  rewrite (F32Facts.compare_antisym one p).
  destruct p as [s|s| |s m e]; simpl in Hp; try done; subst s.
  - cbv in G. discriminate.
  - split; [reflexivity|].
    destruct (SFcompare one (S754_finite false m e)) as [[]|] eqn:E;
      try reflexivity; try discriminate.
Qed.

(** The similarity of a distance that is not negative is in the unit
    interval. *)
Lemma similarityOf_in_unit distance :
  notNegative distance -> in_unit (similarityOf distance).
Proof.
  intros H. unfold similarityOf. apply clamp_in_unit, float32Of_sign.
  change F64.one with (S754_finite false 4503599627370496 (-52)).
  apply div_sign.
  destruct (notNegative_sign _ H) as [[s ->]|Hs]; [done|].
  by apply add_sign.
Qed.

End SimilarityFacts.

Section SemanticResultsFacts.

Context {U : Unicode} {Q : Type}.

Variable float64ToInt : spec_float -> Z.

(** The first element of an array of arrays, nil when there is none. *)
Definition firstList (x : option Decoded.Value) : list Decoded.Value :=
  match arrayOrNil x with
  | Decoded.Array l :: _ => l
  | _ => []
  end.

(** What a result has of the id and of the distance of its index. *)
Definition resultOf (idVal distVal : Decoded.Value)
    (r : SemanticSearchResultV2) : Prop :=
  ID (Chunk r) = textOr (Some idVal) ""
  /\ Similarity r = similarityOf (numberOr (Some distVal) (S754_zero false))
  /\ Score r = Similarity r.

Section Lists.

Variables idsList documentsList metadatasList distancesList
  : list Decoded.Value.

(** The indexes that all four lists have. *)
Definition common : nat :=
  Nat.min (Nat.min (length idsList) (length documentsList))
    (Nat.min (length metadatasList) (length distancesList)).

Lemma index_Some {A} (l : list A) (i : nat) :
  (i < length l)%nat -> exists a, l !! i = Some a
                                  /\ index l (Z.of_nat i) = Ok a.
Proof.
  intros Hi. destruct (lookup_lt_is_Some_2 l i Hi) as [a Ha].
  exists a. split; [done|]. unfold index.
  destruct (Z.ltb_spec (Z.of_nat i) 0); [lia|].
  by rewrite Nat2Z.id, Ha.
Qed.

Lemma index_None {A} (l : list A) (i : nat) :
  (length l <= i)%nat -> exists msg, index l (Z.of_nat i) = Panic msg.
Proof.
  intros Hi. unfold index.
  destruct (Z.ltb_spec (Z.of_nat i) 0); [lia|].
  rewrite Nat2Z.id, lookup_ge_None_2 by done. eauto.
Qed.

Lemma resultAt_common (i : nat) acc :
  (i < common)%nat ->
  exists r idVal distVal,
    resultAt float64ToInt idsList documentsList metadatasList distancesList
      (Z.of_nat i) acc = Ok (acc ++ [r])
    /\ idsList !! i = Some idVal /\ distancesList !! i = Some distVal
    /\ resultOf idVal distVal r.
Proof.
  unfold common. intros Hi.
  destruct (index_Some idsList i) as (idVal & Hid & Eid); [lia|].
  destruct (index_Some documentsList i) as (docVal & _ & Edoc); [lia|].
  destruct (index_Some metadatasList i) as (metaVal & _ & Emeta); [lia|].
  destruct (index_Some distancesList i) as (distVal & Hdist & Edist); [lia|].
  unfold resultAt.
  rewrite Edist, Eid, Edoc, Emeta. cbn [mbind Result_bind].
  eexists _, idVal, distVal. split; [reflexivity|].
  split; [done|]. split; [done|]. by repeat split.
Qed.

Lemma resultAt_beyond (i : nat) acc :
  (common <= i)%nat ->
  exists msg,
    resultAt float64ToInt idsList documentsList metadatasList distancesList
      (Z.of_nat i) acc = Panic msg.
Proof.
  unfold common. intros Hi. unfold resultAt.
  destruct (Nat.lt_ge_cases i (length distancesList)) as [H1|H1];
    [|destruct (index_None distancesList i H1) as [msg ->]; by eexists].
  destruct (index_Some distancesList i H1) as (? & _ & ->).
  cbn [mbind Result_bind].
  destruct (Nat.lt_ge_cases i (length idsList)) as [H2|H2];
    [|destruct (index_None idsList i H2) as [msg ->]; by eexists].
  destruct (index_Some idsList i H2) as (? & _ & ->).
  cbn [mbind Result_bind].
  destruct (Nat.lt_ge_cases i (length documentsList)) as [H3|H3];
    [|destruct (index_None documentsList i H3) as [msg ->]; by eexists].
  destruct (index_Some documentsList i H3) as (? & _ & ->).
  cbn [mbind Result_bind].
  destruct (index_None metadatasList i) as [msg ->]; [lia|]. by eexists.
Qed.

(** The loop within the common indexes: a result for every index, in
    the order of the indexes. *)
Lemma results_common (n i : nat) acc :
  (i + n <= common)%nat ->
  exists rs,
    forUpTo n (Z.of_nat i) (fun _ => true)
      (resultAt float64ToInt idsList documentsList metadatasList distancesList) acc
    = Ok (acc ++ rs)
    /\ Forall2 (fun r k =>
                  exists idVal distVal,
                    idsList !! k = Some idVal
                    /\ distancesList !! k = Some distVal
                    /\ resultOf idVal distVal r)
         rs (seq i n).
Proof.
  revert i acc. induction n as [|n IH]; intros i acc Hn.
  - exists []. simpl. by rewrite app_nil_r.
  - destruct (resultAt_common i acc) as (r & idVal & distVal & E & H1 & H2 & H3);
      [lia|].
    destruct (IH (Datatypes.S i) (acc ++ [r])) as (rs & E' & Hrs); [lia|].
    exists (r :: rs). split.
    + cbn [forUpTo]. rewrite E. cbn [mbind Result_bind].
      replace (Z.of_nat i + 1) with (Z.of_nat (Datatypes.S i)) by lia.
      by rewrite E', <- app_assoc.
    + simpl. constructor; [eauto|done].
Qed.

(** The loop past the common indexes panics. *)
Lemma results_beyond (n i : nat) acc :
  (i <= common < i + n)%nat ->
  exists msg,
    forUpTo n (Z.of_nat i) (fun _ => true)
      (resultAt float64ToInt idsList documentsList metadatasList distancesList) acc
    = Panic msg.
Proof.
  revert i acc. induction n as [|n IH]; intros i acc Hn; [lia|].
  cbn [forUpTo].
  destruct (decide (i = common)) as [->|Hne].
  - destruct (resultAt_beyond common acc) as [msg ->]; [done|]. by eexists.
  - destruct (resultAt_common i acc) as (r & _ & _ & -> & _); [lia|].
    cbn [mbind Result_bind].
    replace (Z.of_nat i + 1) with (Z.of_nat (Datatypes.S i)) by lia.
    apply IH. lia.
Qed.

End Lists.

(** The first element of a list as an array. *)
Lemma first_array (l : list Decoded.Value) :
  (exists first, l !! 0%nat = Some (Decoded.Array first)
                 /\ index l 0 ≫= mustArray = Ok first)
  \/ ((forall first, l !! 0%nat <> Some (Decoded.Array first))
      /\ exists msg, index l 0 ≫= mustArray = Panic msg).
Proof.
  destruct l as [|[]]; try (right; split; [done|by eexists]).
  left. by eexists.
Qed.

Lemma firstList_lookup x first :
  arrayOrNil x !! 0%nat = Some (Decoded.Array first) -> firstList x = first.
Proof.
  unfold firstList. destruct (arrayOrNil x) as [|? ?]; [done|].
  simpl. by intros [= ->].
Qed.

(** The limit of the loop: [topK] after its default, and the length of
    the list of ids. *)
Definition bound (topK : Z) (idsList : list Decoded.Value) : nat :=
  Z.to_nat (Z.min (Z.of_nat (length idsList))
              (if topK <=? 0 then 10 else topK)).

(** The four lists of a reply with results, long enough for the loop. *)
Definition wellFormed (result : string -> option Decoded.Value) (topK : Z)
    (idsList distancesList : list Decoded.Value) : Prop :=
  exists documentsList metadatasList,
    arrayOrNil (result "ids") !! 0%nat = Some (Decoded.Array idsList)
    /\ arrayOrNil (result "documents") !! 0%nat
       = Some (Decoded.Array documentsList)
    /\ arrayOrNil (result "metadatas") !! 0%nat
       = Some (Decoded.Array metadatasList)
    /\ arrayOrNil (result "distances") !! 0%nat
       = Some (Decoded.Array distancesList)
    /\ (bound topK idsList
        <= Nat.min (length documentsList)
             (Nat.min (length metadatasList) (length distancesList)))%nat.

(** What a reply that gives results looks like, and what the results
    are. *)
Lemma searchResultsOf_Ok result topK results :
  searchResultsOf float64ToInt result topK = Ok results ->
  ((arrayOrNil (result "ids") = [] \/ arrayOrNil (result "documents") = [])
   /\ results = [])
  \/ exists idsList distancesList,
       wellFormed result topK idsList distancesList
       /\ Forall2 (fun r k =>
                     exists idVal distVal,
                       idsList !! k = Some idVal
                       /\ distancesList !! k = Some distVal
                       /\ resultOf idVal distVal r)
            results (seq 0 (bound topK idsList)).
Proof.
  unfold searchResultsOf.
  destruct (arrayOrNil (result "ids")) as [|i0 ids'] eqn:Eids;
    [intros [= <-]; left; auto|].
  destruct (arrayOrNil (result "documents")) as [|d0 docs'] eqn:Edocs;
    [intros [= <-]; left; auto|].
  cbn [length Nat.ltb Nat.leb andb].
  destruct (first_array (i0 :: ids')) as [(il & Hil & ->)|(_ & msg & ->)];
    [|discriminate].
  cbn [mbind Result_bind].
  destruct (first_array (d0 :: docs')) as [(dl & Hdl & ->)|(_ & msg & ->)];
    [|discriminate].
  cbn [mbind Result_bind].
  destruct (first_array (arrayOrNil (result "metadatas")))
    as [(ml & Hml & ->)|(_ & msg & ->)]; [|discriminate].
  cbn [mbind Result_bind].
  destruct (first_array (arrayOrNil (result "distances")))
    as [(xl & Hxl & ->)|(_ & msg & ->)]; [|discriminate].
  cbn [mbind Result_bind].
  unfold forRange. rewrite Z.sub_0_r. fold (bound topK il).
  intros E. right. exists il, xl.
  assert (Hil' : (bound topK il <= length il)%nat) by (unfold bound; lia).
  destruct (Nat.le_gt_cases (bound topK il) (common il dl ml xl)) as [Hc|Hc].
  - destruct (results_common il dl ml xl (bound topK il) 0 []) as (rs & E' & Hrs);
      [done|].
    change (Z.of_nat 0) with 0 in E'. rewrite E' in E. simpl in E.
    injection E as <-.
    split; [|done]. exists dl, ml. unfold common in Hc.
    rewrite Eids, Edocs. split; [done|]. split; [done|]. split; [done|].
    split; [done|]. lia.
  - destruct (results_beyond il dl ml xl (bound topK il) 0 []) as [msg E'];
      [lia|].
    change (Z.of_nat 0) with 0 in E'. rewrite E' in E. discriminate.
Qed.

Lemma searchResultsOf_wellFormed result topK idsList distancesList :
  wellFormed result topK idsList distancesList ->
  exists results, searchResultsOf float64ToInt result topK = Ok results.
Proof.
  intros (dl & ml & Hil & Hdl & Hml & Hxl & Hb).
  unfold searchResultsOf.
  destruct (arrayOrNil (result "ids")) as [|i0 ids'] eqn:Eids; [by eexists|].
  destruct (arrayOrNil (result "documents")) as [|d0 docs'] eqn:Edocs;
    [by eexists|].
  cbn [length Nat.ltb Nat.leb andb].
  destruct (first_array (i0 :: ids')) as [(il & Hil' & ->)|(Hno & _)];
    [|by destruct (Hno _ Hil)].
  destruct (first_array (d0 :: docs')) as [(dl' & Hdl' & ->)|(Hno & _)];
    [|by destruct (Hno _ Hdl)].
  destruct (first_array (arrayOrNil (result "metadatas")))
    as [(ml' & Hml' & ->)|(Hno & _)]; [|by destruct (Hno _ Hml)].
  destruct (first_array (arrayOrNil (result "distances")))
    as [(xl' & Hxl' & ->)|(Hno & _)]; [|by destruct (Hno _ Hxl)].
  cbn [mbind Result_bind].
  assert (il = idsList) as -> by congruence.
  assert (dl' = dl) as -> by congruence.
  assert (ml' = ml) as -> by congruence.
  assert (xl' = distancesList) as -> by congruence.
  unfold forRange. rewrite Z.sub_0_r. fold (bound topK idsList).
  assert (Hil'' : (bound topK idsList <= length idsList)%nat)
    by (unfold bound; lia).
  destruct (results_common idsList dl ml distancesList
              (bound topK idsList) 0 []) as (rs & E' & Hrs);
    [unfold common; lia|].
  change (Z.of_nat 0) with 0 in E'. rewrite E'. by eexists.
Qed.

(** X26. The results of a reply of the vector store are computed without
    a panic exactly when the reply has no ids or no documents, or when the
    first elements of ids, documents, metadatas and distances are all
    arrays and the last three are as long as the loop runs: the smaller
    of the number of ids and the limit. *)
Theorem semantic_results_panic_free_iff
    (result : string -> option Decoded.Value) (topK : Z) :
  (exists results, searchResultsOf float64ToInt result topK = Ok results)
  <-> (arrayOrNil (result "ids") = []
       \/ arrayOrNil (result "documents") = []
       \/ exists idsList distancesList,
            wellFormed result topK idsList distancesList).
Proof.
  split.
  - intros [results E].
    destruct (searchResultsOf_Ok _ _ _ E) as [[[H|H] _]|(il & xl & H & _)];
      eauto 6.
  - intros [H|[H|(il & xl & H)]].
    + unfold searchResultsOf. rewrite H. by eexists.
    + unfold searchResultsOf. rewrite H.
      destruct (0 <? length _)%nat; by eexists.
    + by eapply searchResultsOf_wellFormed.
Qed.

Lemma Forall2_seq_map {A B C} (f : A -> C) (g : B -> C) (l : list B)
    (rs : list A) (i n : nat) :
  Forall2 (fun r k => exists b, l !! k = Some b /\ f r = g b) rs (seq i n) ->
  map f rs = map g (take n (drop i l)).
Proof.
  revert i rs. induction n as [|n IH]; intros i rs H; simpl in H.
  - inversion H. by rewrite take_0.
  - inversion H as [|r k rs' ks (b & Hb & Hfg) Hrest]; subst.
    rewrite (drop_S l b i Hb). simpl. rewrite Hfg. f_equal. by apply IH.
Qed.

(** X27. When the reply has documents, the results follow the list of
    ids: one result for each of the first ids up to the limit (10 for a
    limit that is not positive), with the text of the id as the id of its
    chunk, and with its score equal to its similarity. *)
Theorem semantic_results_follow_ids
    (result : string -> option Decoded.Value) (topK : Z)
    (results : list SemanticSearchResultV2) :
  arrayOrNil (result "documents") <> [] ->
  searchResultsOf float64ToInt result topK = Ok results ->
  map (fun r => ID (Chunk r)) results
  = map (fun idVal => textOr (Some idVal) "")
      (take (Z.to_nat (if topK <=? 0 then 10 else topK))
         (firstList (result "ids")))
  /\ Forall (fun r => Score r = Similarity r) results.
Proof.
  intros Hdocs E.
  destruct (searchResultsOf_Ok _ _ _ E) as [[[H|H] ->]|(il & xl & H & Hrs)];
    [|done|].
  - unfold firstList. rewrite H. by rewrite take_nil.
  - destruct H as (dl & ml & Hil & _).
    rewrite (firstList_lookup _ _ Hil). split.
    + rewrite (Forall2_seq_map (fun r => ID (Chunk r))
                 (fun idVal => textOr (Some idVal) "") il results 0
                 (bound topK il)).
      * rewrite drop_0. f_equal. unfold bound.
        destruct (Z.le_ge_cases (Z.of_nat (length il))
                    (if topK <=? 0 then 10 else topK)).
        -- rewrite Z.min_l, Nat2Z.id by done.
           rewrite !take_ge; [done|lia|lia].
        -- by rewrite Z.min_r.
      * eapply Forall2_impl; [exact Hrs|].
        intros r k (idVal & distVal & H1 & _ & H2 & _). eauto.
    + eapply Forall2_Forall_l; [exact Hrs|].
      apply Forall_forall. intros k _ r (idVal & distVal & _ & _ & _ & _ & H3).
      done.
Qed.

(** A distance of the reply that is not negative; what is no number is
    read as the distance zero. *)
Definition distanceNotNegative (distVal : Decoded.Value) : Prop :=
  match distVal with
  | Decoded.Number distance => notNegative distance
  | _ => True
  end.

Lemma results_unitScores result topK results :
  Forall distanceNotNegative (firstList (result "distances")) ->
  searchResultsOf float64ToInt result topK = Ok results ->
  Forall unitScores results.
Proof.
  intros Hd E.
  destruct (searchResultsOf_Ok _ _ _ E) as [[_ ->]|(il & xl & H & Hrs)];
    [done|].
  destruct H as (dl & ml & _ & _ & _ & Hxl & _).
  rewrite (firstList_lookup _ _ Hxl) in Hd.
  eapply Forall2_Forall_l; [exact Hrs|].
  apply Forall_forall.
  intros k _ r (idVal & distVal & _ & Hk & _ & Hsim & Hscore).
  assert (Hu : F32.in_unit (Similarity r)).
  { rewrite Hsim. apply similarityOf_in_unit.
    pose proof (Forall_lookup_1 _ _ _ _ Hd Hk) as Hn.
    destruct distVal; try exact Hn; by split. }
  split; [by rewrite Hscore|done].
Qed.

(** X28. When no distance of the reply is a number below zero or a NaN,
    the score and the similarity of every result are in the unit
    interval. *)
Theorem semantic_results_unit_scores
    (result : string -> option Decoded.Value) (topK : Z)
    (results : list SemanticSearchResultV2) :
  Forall distanceNotNegative (firstList (result "distances")) ->
  searchResultsOf float64ToInt result topK = Ok results ->
  Forall unitScores results.
Proof. apply results_unitScores. Qed.

(** X29. The results of such a reply keep their scores and similarities
    in the unit interval through the fusion with a keyword result. *)
Theorem semantic_results_unit_through_fusion
    (result : string -> option Decoded.Value) (topK : Z)
    (results : list SemanticSearchResultV2) (s : @NLQueryServer Q)
    (zoektResult : option zoekt.SearchResult) (query : string) :
  Forall distanceNotNegative (firstList (result "distances")) ->
  searchResultsOf float64ToInt result topK = Ok results ->
  Forall unitScores (enhanceSemanticWithZoekt s results zoektResult query).
Proof.
  intros Hd E. pose proof (results_unitScores _ _ _ Hd E) as H.
  destruct (searcher s) as [sr|] eqn:Hs, zoektResult as [zr|];
    try (unfold enhanceSemanticWithZoekt; rewrite Hs; exact H).
  rewrite enhance_resort by eauto.
  eapply Permutation_Forall; [apply resort_perm|].
  apply Forall_fmap. eapply Forall_impl; [exact H|].
  intros r Hr. by apply boosted_unitScores.
Qed.

End SemanticResultsFacts.

Module SnippetRuns.

(** A match whose context holds two blank lines in a row. *)
Definition spaced : zoekt.FileMatch :=
  {| zoekt.FileName := "a.go"; zoekt.Repository := "repo";
     zoekt.LineMatches :=
       [{| zoekt.Line := "";
           zoekt.LineNumber := 4;
           zoekt.Before := "a" +:+ nl +:+ " " +:+ nl +:+ " " +:+ nl +:+ "b";
           zoekt.After := "" |}];
     zoekt.Content := "" |}.

End SnippetRuns.

Example snippet_from_file_run :
  Split (extractSnippetFromFile (U := AsciiText) SnippetRuns.spaced "a") nl
  = ["a"; " "; "b"; ""].
Proof. vm_compute. reflexivity. Qed.

Lemma snippet_from_file_blank_runs_witness :
  TrimSpace (Unicode := AsciiText) truncated <> ""
  /\ Split (extractSnippetFromFile (U := AsciiText) SnippetRuns.spaced "a") nl
     = ["a"] ++ [" "] ++ ["b"; ""]
  /\ Forall (fun line => TrimSpace (Unicode := AsciiText) line = "") [" "]
  /\ (length [" "] <= 1)%nat.
Proof.
  assert (H1 : TrimSpace (Unicode := AsciiText) truncated <> "")
    by (vm_compute; discriminate).
  assert (H2 : Split (extractSnippetFromFile (U := AsciiText)
                        SnippetRuns.spaced "a") nl
               = ["a"] ++ [" "] ++ ["b"; ""])
    by (vm_compute; reflexivity).
  assert (H3 : Forall (fun line => TrimSpace (Unicode := AsciiText) line = "")
                 [" "])
    by (repeat constructor).
  split; [exact H1|]. split; [exact H2|]. split; [exact H3|].
  exact (snippet_from_file_blank_runs (U := AsciiText)
           SnippetRuns.spaced "a" ["a"] [" "] ["b"; ""] H1 H2 H3).
Defined.

Module AskRuns.

(** A completion service that translates every question to [query] and
    answers every question from snippets with [answer]. *)
Definition translator (query answer : string) : OpenRouterTranslator :=
  {| enabled := true;
     TranslateWithOpenRouter :=
       fun _ => TranslateOk query (HandlerRuns.intentOf "search" query);
     AnswerFromSnippets := fun _ _ => answer |}.

Definition server (query answer : string) : @NLQueryServer string :=
  {| searcher :=
       Some {| Search := fun _ _ => (Some HandlerRuns.twoFiles, None) |};
     openRouterTranslator := translator query answer;
     semanticSearch := None |}.

End AskRuns.

Lemma hybrid_keyword_only_is_keyword_server_witness :
  let rt := HandlerRuns.runtime in
  let s := HandlerRuns.countServer in
  let r := HandlerRuns.requestOf "how many articles are there" "semantic" in
  let hybrid := HandleSearch (U := AsciiText) rt s r in
  let keyword := KeywordHandlers.HandleSearch (U := AsciiText) rt s r in
  keywordOnly s r
  /\ hybrid.2 = keyword.2
  /\ match hybrid.1, keyword.1 with
     | Responded rh, Responded rk =>
         statusCode rh = statusCode rk
         /\ delete "mode" (body rh) = body rk
     | Panicked mh, Panicked mk => mh = mk
     | _, _ => False
     end.
Proof.
  assert (Hk : keywordOnly HandlerRuns.countServer
                 (HandlerRuns.requestOf "how many articles are there"
                    "semantic"))
    by (by left).
  split; [exact Hk|].
  apply (hybrid_keyword_only_is_keyword_server (U := AsciiText)
           HandlerRuns.runtime HandlerRuns.countServer
           (HandlerRuns.requestOf "how many articles are there" "semantic")
           Hk).
  intros t. vm_compute. intros [= <-]. discriminate.
Defined.

Lemma ask_answers_from_snippets_witness :
  let rt := HandlerRuns.runtime in
  let s := AskRuns.server "title:" "Two files define titles." in
  exists response log,
    KeywordHandlers.HandleAsk (U := AsciiText) rt s "where are the titles?"
    = (Responded response, log)
    /\ statusCode response = StatusOK
    /\ exists zoektQuery intent parsedQuery sr res searchErr snippets,
         TranslateWithOpenRouter (openRouterTranslator s)
           "where are the titles?"
         = TranslateOk zoektQuery intent
         /\ Parse rt zoektQuery = inl parsedQuery
         /\ searcher s = Some sr
         /\ Search sr parsedQuery KeywordHandlers.askOpts
            = (Some res, searchErr)
         /\ KeywordServer.extractAnswerSnippets (U := AsciiText) res 10
            = Ok snippets
         /\ (1 <= length snippets <= 10)%nat
         /\ AnswerFromSnippets (openRouterTranslator s)
              "where are the titles?" snippets <> ""
         /\ log = [CallTranslateWithOpenRouter "where are the titles?";
                   CallSearch parsedQuery KeywordHandlers.askOpts;
                   CallAnswerFromSnippets "where are the titles?" snippets]
         /\ body response
            = object
                [("question", JString "where are the titles?");
                 ("answer",
                  JString (AnswerFromSnippets (openRouterTranslator s)
                             "where are the titles?" snippets));
                 ("success", JBool true);
                 ("responseTime", JInt (sinceStartMs rt));
                 ("type", JString "text_answer");
                 ("queryUsed", JString zoektQuery);
                 ("filesFound", JInt (Z.of_nat (length (zoekt.Files res))))].
Proof.
  cbv zeta.
  destruct (KeywordHandlers.HandleAsk (U := AsciiText) HandlerRuns.runtime
              (AskRuns.server "title:" "Two files define titles.")
              "where are the titles?") as [out log] eqn:E.
  assert (Hout : exists response,
             out = Responded response /\ statusCode response = StatusOK).
  { vm_compute in E. injection E as <- _. eexists. split; reflexivity. }
  destruct Hout as (response & -> & Hs).
  exists response, log. split; [reflexivity|]. split; [exact Hs|].
  exact (ask_answers_from_snippets (U := AsciiText) HandlerRuns.runtime
           (AskRuns.server "title:" "Two files define titles.")
           "where are the titles?" response log E Hs).
Defined.

Lemma ask_drops_direct_answer_witness :
  let rt := HandlerRuns.runtime in
  let s := AskRuns.server "DIRECT_ANSWER:YES, in auth.go." "" in
  "is there a login?" <> ""
  /\ enabled (openRouterTranslator s) = true
  /\ HasPrefix "DIRECT_ANSWER:YES, in auth.go." "DIRECT_ANSWER:" = true
  /\ KeywordHandlers.HandleAsk (U := AsciiText) rt s "is there a login?"
     = (Responded
          {| statusCode := 500;
             body := object
               [("error",
                 JString ("Failed to generate answer: "
                          +:+ "no code snippets available for answering"));
                ("success", JBool false);
                ("question", JString "is there a login?")] |},
        [CallTranslateWithOpenRouter "is there a login?"]).
Proof.
  cbv zeta. split; [discriminate|]. split; [reflexivity|].
  split; [reflexivity|].
  apply (ask_drops_direct_answer (U := AsciiText) HandlerRuns.runtime
           (AskRuns.server "DIRECT_ANSWER:YES, in auth.go." "")
           "is there a login?" "DIRECT_ANSWER:YES, in auth.go."
           (HandlerRuns.intentOf "search" "DIRECT_ANSWER:YES, in auth.go."));
    [discriminate|reflexivity|reflexivity|reflexivity].
Defined.

Module ChunkRuns.

Definition goFile : string :=
  "package main" +:+ nl +:+ nl
  +:+ "func (s *Server) Handle(w http.ResponseWriter) {" +:+ nl
  +:+ "  x := 1 // a comment that brings the chunk over 50 bytes" +:+ nl
  +:+ "}" +:+ nl
  +:+ "type T struct {" +:+ nl
  +:+ "  a int" +:+ nl
  +:+ "}".

End ChunkRuns.

(** The brace that opens a declaration is not counted: the chunk of the
    function ends with the first line after which the other braces are
    balanced and the chunk has more than 50 bytes, here before its
    body is closed. *)
Example go_chunks_run :
  map (fun c => (ID c, StartLine c, EndLine c, Type_ c))
    (chunkCode (U := AsciiText) ChunkRuns.goFile "main.go" "go")
  = [("main.go:3-4", 2, 3, "function"); ("main.go:6-8", 5, 7, "struct")].
Proof. vm_compute. reflexivity. Qed.

(** ** The words of ASCII text *)

Lemma rev_app_not_empty (s1 s2 : string) :
  s2 <> "" -> String.rev_app s1 s2 <> "".
Proof.
  revert s2. induction s1 as [|a s1 IH]; intros s2 H; simpl; [done|].
  by apply IH.
Qed.

Lemma words_go_not_empty (cur : option string) (s : string) :
  (forall c, cur = Some c -> c <> "") ->
  Forall (fun word => word <> "") (String.words_go cur s).
Proof.
  assert (Hcur : forall cur : option string,
             (forall c, cur = Some c -> c <> "") ->
             Forall (fun word : string => word <> "")
               (option_list (String.rev <$> cur))).
  { intros [c|] H; simpl; [|constructor].
    constructor; [|constructor].
    destruct c as [|a c]; [by destruct (H "")|].
    unfold String.rev. simpl. by apply rev_app_not_empty. }
  revert cur. induction s as [|a s IH]; intros cur H; simpl.
  - by apply Hcur.
  - destruct (Ascii.is_space a).
    + apply Forall_app. split; [by apply Hcur|]. by apply IH.
    + apply IH. intros c [= <-]. by destruct cur.
Qed.

Lemma words_not_empty : FieldsNotEmpty (U := AsciiText).
Proof. intros s. by apply words_go_not_empty. Qed.

Lemma translated_query_not_empty_witness :
  FieldsNotEmpty (U := AsciiText)
  /\ "find the parser" <> ""
  /\ exists query intent,
       finishQuery (U := AsciiText) (fun _ => []) (fun _ => true)
         "file:parser.go" "find the parser"
       = TranslateOk query intent
       /\ query <> "".
Proof.
  split; [exact words_not_empty|].
  assert (Hq : "find the parser" <> "") by discriminate.
  split; [exact Hq|].
  destruct (finishQuery (U := AsciiText) (fun _ => []) (fun _ => true)
              "file:parser.go" "find the parser")
    as [err|query intent|msg] eqn:E;
    [vm_compute in E; discriminate| |vm_compute in E; discriminate].
  exists query, intent. split; [reflexivity|].
  exact (translated_query_not_empty (U := AsciiText) (fun _ => [])
           (fun _ => true) "file:parser.go" "find the parser" query intent
           words_not_empty Hq E).
Defined.

Module DirectRuns.

(** The snippets of one file for the term [login]. *)
Definition snippets : string :=
  "RELEVANT CODE SNIPPETS (found in codebase for your query):" +:+ nl
  +:+ "Found 'login' in auth.go:" +:+ nl +:+ "```" +:+ nl
  +:+ "func login(user string) error { return check(user) }" +:+ nl
  +:+ "```" +:+ nl.

Definition answers (answer : string) : OpenRouterTranslator :=
  {| enabled := true;
     TranslateWithOpenRouter := fun _ => TranslateError "no reply";
     AnswerFromSnippets := fun _ _ => answer |}.

(** A translator that answers from [snippets] where it can. *)
Definition translator (answer : string) : OpenRouterTranslator :=
  {| enabled := true;
     TranslateWithOpenRouter :=
       fun nlQuery =>
         match (answerDirectly (U := AsciiText) (Q := string)
                  (answers answer) nlQuery snippets).1 with
         | Some r => r
         | None => TranslateError "no reply"
         end;
     AnswerFromSnippets := fun _ _ => answer |}.

Definition server (answer : string) : @NLQueryServer string :=
  {| searcher :=
       Some {| Search := fun _ _ => (Some HandlerRuns.twoFiles, None) |};
     openRouterTranslator := translator answer;
     semanticSearch := None |}.

Definition request : Request :=
  {| q := "does the code have a login"; mode := ""; direct := "" |}.

End DirectRuns.

Lemma direct_answer_round_trip_witness :
  let rt := HandlerRuns.runtime in
  let s := DirectRuns.server "YES, the login is in auth.go." in
  let r := DirectRuns.request in
  q r <> ""
  /\ String.eqb (direct r) "true" = false
  /\ enabled (openRouterTranslator s) = true
  /\ exists zoektQuery intent log directAnswer,
       answerDirectly (U := AsciiText) (Q := string)
         (openRouterTranslator s) (q r) DirectRuns.snippets
       = (Some (TranslateOk zoektQuery intent), log)
       /\ TranslateWithOpenRouter (openRouterTranslator s) (q r)
          = TranslateOk zoektQuery intent
       /\ zoektQuery = "DIRECT_ANSWER:" +:+ directAnswer
       /\ (10 < len directAnswer)%nat
       /\ Intent.Type_ intent = "answer"
       /\ HandleSearch (U := AsciiText) rt s r
          = (Responded (directAnswerResponse rt (q r) directAnswer intent),
             [CallTranslateWithOpenRouter (q r)])
       /\ KeywordHandlers.HandleSearch (U := AsciiText) rt s r
          = (Responded (directAnswerResponse rt (q r) directAnswer intent),
             [CallTranslateWithOpenRouter (q r)]).
Proof.
  cbv zeta.
  assert (H1 : q DirectRuns.request <> "") by discriminate.
  assert (H2 : String.eqb (direct DirectRuns.request) "true" = false)
    by reflexivity.
  assert (H3 : enabled (openRouterTranslator
                          (DirectRuns.server "YES, the login is in auth.go."))
               = true) by reflexivity.
  split; [exact H1|]. split; [exact H2|]. split; [exact H3|].
  destruct (answerDirectly (U := AsciiText) (Q := string)
              (openRouterTranslator
                 (DirectRuns.server "YES, the login is in auth.go."))
              (q DirectRuns.request) DirectRuns.snippets)
    as [[[err|zoektQuery intent|msg]|] log] eqn:E;
    [vm_compute in E; discriminate| |vm_compute in E; discriminate
    |vm_compute in E; discriminate].
  assert (H4 : TranslateWithOpenRouter
                 (openRouterTranslator
                    (DirectRuns.server "YES, the login is in auth.go."))
                 (q DirectRuns.request)
               = TranslateOk zoektQuery intent).
  { vm_compute in E. injection E as <- <- _. vm_compute. reflexivity. }
  destruct (direct_answer_round_trip (U := AsciiText) HandlerRuns.runtime
              (DirectRuns.server "YES, the login is in auth.go.")
              DirectRuns.request DirectRuns.snippets zoektQuery intent log
              H1 H2 H3 E H4) as (directAnswer & H).
  exists zoektQuery, intent, log, directAnswer.
  split; [reflexivity|]. split; [exact H4|]. exact H.
Defined.

Module PanicRuns.

(** A translator whose completion service replies with the text
    [file:] to every question: the reply is processed as
    [TranslateWithOpenRouter] processes it. *)
Definition translator : OpenRouterTranslator :=
  {| enabled := true;
     TranslateWithOpenRouter :=
       fun nlQuery =>
         match translateReply (U := AsciiText) (fun _ => []) (fun _ => true)
                 (Some {| content := Some "file:"; reasoning := None |})
                 nlQuery with
         | Ok r => r
         | Panic msg => TranslatePanic msg
         end;
     AnswerFromSnippets := fun _ _ => "" |}.

Definition server : @NLQueryServer string :=
  {| searcher :=
       Some {| Search := fun _ _ => (Some HandlerRuns.twoFiles, None) |};
     openRouterTranslator := translator;
     semanticSearch := None |}.

End PanicRuns.

(** With this translator the three handlers stop with its panic,
    though the searcher is there. *)
Example translator_panic_runs :
  let rt := HandlerRuns.runtime in
  let r := HandlerRuns.requestOf "where is the parser" "" in
  HandleSearch (U := AsciiText) rt PanicRuns.server r
  = (Panicked "index out of range",
     [CallTranslateWithOpenRouter "where is the parser"])
  /\ KeywordHandlers.HandleSearch (U := AsciiText) rt PanicRuns.server r
     = (Panicked "index out of range",
        [CallTranslateWithOpenRouter "where is the parser"])
  /\ KeywordHandlers.HandleAsk (U := AsciiText) rt PanicRuns.server
       "where is the parser"
     = (Panicked "index out of range",
        [CallTranslateWithOpenRouter "where is the parser"]).
Proof. repeat split; vm_compute; reflexivity. Qed.

Module SemanticRuns.

(** [int(x)] for the numbers within the range of [int]: the fraction
    is dropped. *)
Definition toInt (x : spec_float) : Z :=
  match x with
  | S754_finite s m e => cond_Zopp s (Z.shiftl (Z.pos m) e)
  | _ => 0
  end.

Definition number (n d : Z) : Decoded.Value :=
  Decoded.Number (F64.of_ratio n d).

Definition fields (l : list (string * Decoded.Value))
  : string -> option Decoded.Value :=
  fun key => snd <$> List.find (fun kv => String.eqb (fst kv) key) l.

(** A reply with two chunks, at the distances 0.5 and 0; the second
    has no metadata. *)
Definition reply : string -> option Decoded.Value :=
  fields
    [("ids", Decoded.Array
               [Decoded.Array [Decoded.Text "a.go:3-9";
                               Decoded.Text "b.go:1-4"]]);
     ("documents", Decoded.Array
                     [Decoded.Array [Decoded.Text "func A() {}";
                                     Decoded.Text "func B() {}"]]);
     ("metadatas", Decoded.Array
                     [Decoded.Array
                        [Decoded.Object
                           (fields [("file_name", Decoded.Text "a.go");
                                    ("start_line", number 3 1);
                                    ("end_line", number 19 2);
                                    ("type", Decoded.Text "function");
                                    ("language", Decoded.Text "go")]);
                         Decoded.Null]]);
     ("distances", Decoded.Array
                     [Decoded.Array [number 1 2; number 0 1]])].

Definition results : list SemanticSearchResultV2 :=
  match searchResultsOf toInt reply 0 with
  | Ok results => results
  | Panic _ => []
  end.

Definition twoThirds : float32 :=
  Eval vm_compute in F32.of_ratio 2 3.

End SemanticRuns.

Example semantic_results_run :
  searchResultsOf SemanticRuns.toInt SemanticRuns.reply 0
  = Ok [{| Chunk := {| ID := "a.go:3-9"; Content := "func A() {}";
                       FileName := "a.go"; StartLine := 3; EndLine := 9;
                       Type_ := "function"; Language := "go";
                       Embedding := [] |};
           Similarity := SemanticRuns.twoThirds;
           Score := SemanticRuns.twoThirds |};
        {| Chunk := {| ID := "b.go:1-4"; Content := "func B() {}";
                       FileName := ""; StartLine := 0; EndLine := 0;
                       Type_ := ""; Language := ""; Embedding := [] |};
           Similarity := F32.one;
           Score := F32.one |}]
  /\ searchResultsOf SemanticRuns.toInt SemanticRuns.reply 1
     = Ok (take 1 SemanticRuns.results).
Proof. split; vm_compute; reflexivity. Qed.

Lemma distances_not_negative :
  Forall distanceNotNegative (firstList (SemanticRuns.reply "distances")).
Proof. repeat constructor. Qed.

Lemma semantic_results_follow_ids_witness :
  arrayOrNil (SemanticRuns.reply "documents") <> []
  /\ searchResultsOf SemanticRuns.toInt SemanticRuns.reply 0
     = Ok SemanticRuns.results
  /\ map (fun r => ID (Chunk r)) SemanticRuns.results
     = map (fun idVal => textOr (Some idVal) "")
         (take (Z.to_nat 10) (firstList (SemanticRuns.reply "ids")))
  /\ Forall (fun r => Score r = Similarity r) SemanticRuns.results.
Proof.
  assert (H1 : arrayOrNil (SemanticRuns.reply "documents") <> [])
    by discriminate.
  assert (H2 : searchResultsOf SemanticRuns.toInt SemanticRuns.reply 0
               = Ok SemanticRuns.results)
    by (vm_compute; reflexivity).
  split; [exact H1|]. split; [exact H2|].
  exact (semantic_results_follow_ids SemanticRuns.toInt SemanticRuns.reply 0
           SemanticRuns.results H1 H2).
Defined.

Lemma semantic_results_unit_scores_witness :
  Forall distanceNotNegative (firstList (SemanticRuns.reply "distances"))
  /\ searchResultsOf SemanticRuns.toInt SemanticRuns.reply 0
     = Ok SemanticRuns.results
  /\ Forall unitScores SemanticRuns.results.
Proof.
  assert (H2 : searchResultsOf SemanticRuns.toInt SemanticRuns.reply 0
               = Ok SemanticRuns.results)
    by (vm_compute; reflexivity).
  split; [exact distances_not_negative|]. split; [exact H2|].
  exact (semantic_results_unit_scores SemanticRuns.toInt SemanticRuns.reply 0
           SemanticRuns.results distances_not_negative H2).
Defined.

Lemma semantic_results_unit_through_fusion_witness :
  Forall distanceNotNegative (firstList (SemanticRuns.reply "distances"))
  /\ searchResultsOf SemanticRuns.toInt SemanticRuns.reply 0
     = Ok SemanticRuns.results
  /\ Forall unitScores
       (enhanceSemanticWithZoekt HandlerRuns.countServer
          SemanticRuns.results (Some HandlerRuns.twoFiles) "titles").
Proof.
  assert (H2 : searchResultsOf SemanticRuns.toInt SemanticRuns.reply 0
               = Ok SemanticRuns.results)
    by (vm_compute; reflexivity).
  split; [exact distances_not_negative|]. split; [exact H2|].
  exact (semantic_results_unit_through_fusion
           SemanticRuns.toInt SemanticRuns.reply 0 SemanticRuns.results
           HandlerRuns.countServer (Some HandlerRuns.twoFiles) "titles"
           distances_not_negative H2).
Defined.

Module StorePanicRuns.

(** A reply with ids and documents, and no metadatas or distances. *)
Definition reply : string -> option Decoded.Value :=
  SemanticRuns.fields
    [("ids", Decoded.Array [Decoded.Array [Decoded.Text "a.go:3-9"]]);
     ("documents",
      Decoded.Array [Decoded.Array [Decoded.Text "func A() {}"]])].

(** The vector store that answers every query with this reply. *)
Definition store : SemanticSearchService :=
  {| countReply := CountBody (Some 3);
     SemanticSearch :=
       fun _ topK =>
         match searchResultsOf SemanticRuns.toInt reply topK with
         | Ok results => Ok (inl results)
         | Panic msg => Panic msg
         end |}.

Definition server : @NLQueryServer string :=
  {| searcher := searcher HandlerRuns.countServer;
     openRouterTranslator := openRouterTranslator HandlerRuns.countServer;
     semanticSearch := Some store |}.

End StorePanicRuns.

(** On this reply the search of the vector store panics, and so does
    the handler, before the keyword query is parsed. *)
Example store_panic_run :
  HandleSearch (U := AsciiText) HandlerRuns.runtime StorePanicRuns.server
    (HandlerRuns.requestOf "where is the parser" "hybrid")
  = (Panicked "index out of range",
     [CallIsIndexed; CallSemanticSearch "where is the parser" 20]).
Proof. vm_compute. reflexivity. Qed.
